(** * cereal-box-styles: the prompt pipeline, embedded and verified

    A shallow embedding of the Python package [cereal_box_styles]:

    - [tools/parser.py]       the lexical extractor        (module [Parser])
    - [tools/utils.py]        weights, ordering, negatives (module [Utils])
    - [tools/transformer.py]  the category transformer     (module [Transformer])
    - [server.py]             the tool entry points        (module [Server])
    - [server.py]             the category suggestion      (module [Tools])
    - [tools/parser.py]       its operations that can raise (module [Fallible])
    - [server.py]             the tools over a heap of objects (module [Process])

    Modelling conventions.

    - Text is ASCII.  A Python [str] is a Rocq [string]; [lower], [upper],
      [\w] and [\s] are the ASCII fragments of the Python ones, and code
      points above 127 are outside the model.
    - A Python [dict] is an association list in insertion order ([Dict.t]);
      a well-formed dict has no repeated key.
    - An exception is a value of [exn]; a function that can raise returns
      [result].
    - Python floats are IEEE binary64 numbers, taken from the Standard
      Library's [SpecFloat] (precision 53, maximal exponent 1024), where the
      code computes with them ([calculate_semantic_weights]).  Float
      literals that are only stored or compared ([1.3], [0.85], the style
      parameters) are the rationals they denote.
    - [re.search] and [re.finditer] are a backtracking matcher over the
      operators the patterns of [parser.py] use (module [Re]). *)

From Stdlib Require Import ZArith List String Ascii Bool Lia QArith.
From Stdlib Require Import SpecFloat DecimalString.
From Stdlib Require Import Permutation Sorted.
From Stdlib Require Import Lqa.
Import ListNotations.

Open Scope string_scope.
Open Scope Z_scope.

(* ================================================================== *)
(** * Exceptions *)

Inductive exn : Type :=
| ValueError (msg : string)
| KeyError (key : string)
| TypeError (msg : string)
| AttributeError (msg : string)
| OverflowError (msg : string)
| ReError (msg : string).      (* [re.error] *)

Inductive result (A : Type) : Type :=
| Ok (a : A)
| Raise (e : exn).

Arguments Ok {A} a.
Arguments Raise {A} e.

Definition bind {A B : Type} (m : result A) (f : A -> result B) : result B :=
  match m with
  | Ok a => f a
  | Raise e => Raise e
  end.

Notation "x <- m ;; k" := (bind m (fun x => k))
  (at level 61, m at next level, right associativity).

(* ================================================================== *)
(** * Python strings (ASCII) *)

Module PyStr.

Definition code (c : ascii) : nat := nat_of_ascii c.

Definition between (lo hi : nat) (c : ascii) : bool :=
  (Nat.leb lo (code c) && Nat.leb (code c) hi)%bool.

Definition is_upper := between 65 90.
Definition is_lower := between 97 122.
Definition is_digit := between 48 57.

Definition lower_char (c : ascii) : ascii :=
  if is_upper c then ascii_of_nat (code c + 32) else c.

Definition upper_char (c : ascii) : ascii :=
  if is_lower c then ascii_of_nat (code c - 32) else c.

Fixpoint map_chars (f : ascii -> ascii) (s : string) : string :=
  match s with
  | EmptyString => EmptyString
  | String c r => String (f c) (map_chars f r)
  end.

(** [s.lower()] and [s.upper()] *)
Definition lower : string -> string := map_chars lower_char.
Definition upper : string -> string := map_chars upper_char.

(** [needle in hay] *)
Fixpoint contains (needle hay : string) : bool :=
  prefix needle hay
  || match hay with
     | EmptyString => false
     | String _ r => contains needle r
     end.

(** [s.endswith(suffix)] *)
Definition endswith (s suffix : string) : bool :=
  let n := String.length s in
  let m := String.length suffix in
  (Nat.leb m n && String.eqb (substring (n - m) m s) suffix)%bool.

(** [s[:n]] *)
Definition take (n : nat) (s : string) : string := substring 0 n s.

(** [s.replace(old, new)] for a non-empty [old]: occurrences are replaced
    from the left and do not overlap.  [skip] counts the characters of an
    occurrence that are still to be dropped. *)
Fixpoint replace_from (skip : nat) (old new s : string) : string :=
  match s with
  | EmptyString => EmptyString
  | String c r =>
      match skip with
      | S k => replace_from k old new r
      | O =>
          if prefix old s
          then new ++ replace_from (String.length old - 1) old new r
          else String c (replace_from O old new r)
      end
  end.

Definition replace (old new s : string) : string := replace_from 0 old new s.

(** [sep.join(parts)] *)
Definition join (sep : string) (parts : list string) : string :=
  String.concat sep parts.

(** [str(n)] for an [int] *)
Definition of_int (n : Z) : string := NilZero.string_of_int (Z.to_int n).

(** [s.isdigit()] *)
Fixpoint all_digits (s : string) : bool :=
  match s with
  | EmptyString => true
  | String c r => is_digit c && all_digits r
  end.

Definition isdigit (s : string) : bool :=
  match s with
  | EmptyString => false
  | _ => all_digits s
  end.

(** [int(s)] for a string of decimal digits *)
Fixpoint digits_value (acc : Z) (s : string) : Z :=
  match s with
  | EmptyString => acc
  | String c r => digits_value (10 * acc + Z.of_nat (code c - 48)) r
  end.

Definition to_int (s : string) : Z := digits_value 0 s.

(** ** [repr] of a string, as [str(list)] prints each element *)

Definition quote_s : ascii := "'"%char.
Definition quote_d : ascii := ascii_of_nat 34.
Definition backslash : ascii := "\"%char.

Fixpoint has_char (c : ascii) (s : string) : bool :=
  match s with
  | EmptyString => false
  | String d r => Ascii.eqb c d || has_char c r
  end.

(** Python quotes with the single quote, unless the string has a single
    quote and no double quote. *)
Definition repr_quote (s : string) : ascii :=
  if (has_char quote_s s && negb (has_char quote_d s))%bool
  then quote_d else quote_s.

Definition hex_digit (n : nat) : ascii :=
  if Nat.ltb n 10 then ascii_of_nat (48 + n) else ascii_of_nat (87 + n).

Definition repr_char (q c : ascii) : string :=
  if (Ascii.eqb c q || Ascii.eqb c backslash)%bool
  then String backslash (String c EmptyString)
  else if Nat.eqb (code c) 9 then "\t"
  else if Nat.eqb (code c) 10 then "\n"
  else if Nat.eqb (code c) 13 then "\r"
  else if (Nat.ltb (code c) 32 || Nat.eqb (code c) 127)%bool
  then String backslash
         (String "x"%char
            (String (hex_digit (Nat.div (code c) 16))
               (String (hex_digit (Nat.modulo (code c) 16)) EmptyString)))
  else String c EmptyString.

Fixpoint repr_body (q : ascii) (s : string) : string :=
  match s with
  | EmptyString => EmptyString
  | String c r => repr_char q c ++ repr_body q r
  end.

Definition repr (s : string) : string :=
  let q := repr_quote s in
  String q (repr_body q s ++ String q EmptyString).

(** [str(l)] for a list of strings *)
Definition repr_list (l : list string) : string :=
  "[" ++ join ", " (map repr l) ++ "]".

End PyStr.

(* ================================================================== *)
(** * Python dicts: association lists in insertion order *)

Module Dict.

Definition t (V : Type) : Type := list (string * V).

Fixpoint get {V : Type} (k : string) (d : t V) : option V :=
  match d with
  | [] => None
  | (k', v) :: r => if String.eqb k k' then Some v else get k r
  end.

(** [k in d] *)
Definition mem {V : Type} (k : string) (d : t V) : bool :=
  match get k d with
  | Some _ => true
  | None => false
  end.

(** [d[k] = v]: an existing key keeps its place, a new one goes last. *)
Fixpoint set {V : Type} (k : string) (v : V) (d : t V) : t V :=
  match d with
  | [] => [(k, v)]
  | (k', v') :: r =>
      if String.eqb k k' then (k, v) :: r else (k', v') :: set k v r
  end.

Definition keys {V : Type} (d : t V) : list string := map fst d.
Definition values {V : Type} (d : t V) : list V := map snd d.

(** [d[k]], raising [KeyError] *)
Definition item {V : Type} (k : string) (d : t V) : result V :=
  match get k d with
  | Some v => Ok v
  | None => Raise (KeyError k)
  end.

(** [d.get(k, default)] *)
Definition get_or {V : Type} (k : string) (default : V) (d : t V) : V :=
  match get k d with
  | Some v => v
  | None => default
  end.

Definition wf {V : Type} (d : t V) : Prop := NoDup (keys d).

End Dict.

(* ================================================================== *)
(** * Python floats where the code computes with them *)

Module PyFloat.

Definition prec : Z := 53.
Definition emax : Z := 1024.

Definition t : Type := spec_float.

(** [float(n)] *)
Definition of_int (n : Z) : t := binary_normalize prec emax n 0 false.

Definition div (x y : t) : t := SFdiv prec emax x y.
Definition mul (x y : t) : t := SFmul prec emax x y.

(** [int(x)]: truncation toward zero; infinities and NaN raise. *)
Definition to_int (x : t) : result Z :=
  match x with
  | S754_zero _ => Ok 0
  | S754_finite s m e =>
      let a := if 0 <=? e then Zpos m * 2 ^ e else Zpos m / 2 ^ (- e) in
      Ok (if s then - a else a)
  | S754_infinity _ =>
      Raise (OverflowError "cannot convert float infinity to integer")
  | S754_nan => Raise (ValueError "cannot convert float NaN to integer")
  end.

End PyFloat.

(** [sum(l)] over integers *)
Definition zsum (l : list Z) : Z := fold_right Z.add 0 l.

(** Truthiness of an optional string: [None] and [''] are falsy. *)
Definition truthy (o : option string) : bool :=
  match o with
  | Some s => negb (String.eqb s "")
  | None => false
  end.

(** [f"{x}"] for an optional string *)
Definition fmt (o : option string) : string :=
  match o with
  | Some s => s
  | None => "None"
  end.

(** [mapM] over a list, left to right *)
Fixpoint traverse {A B : Type} (f : A -> result B) (l : list A)
  : result (list B) :=
  match l with
  | [] => Ok []
  | a :: r => b <- f a ;; bs <- traverse f r ;; Ok (b :: bs)
  end.

(* ================================================================== *)
(** * The data model: a parsed prompt *)

Record Subject : Type := mkSubject {
  subject_type : string;
  subject_name : option string;
  subject_attributes : list string;
  subject_profession : option string;
  subject_count : Z
}.

Record Action : Type := mkAction {
  action_verb : option string;
  action_energy_level : string;
  action_object : option string;
  action_modifier : option string;
  action_progressive : bool
}.

Record Setting : Type := mkSetting {
  setting_type : string;
  setting_location : option string;
  setting_attributes : list string;
  setting_time : option string
}.

Record Mood : Type := mkMood {
  mood_emotion : option string;
  mood_valence : string;
  mood_intensity : string
}.

(** The dict [parse_prompt_components] returns; [semantic_weights] is the
    key [parse_prompt] adds, absent ([None]) before that. *)
Record ComponentSet : Type := mkComponents {
  subject : Subject;
  action : Action;
  setting : Setting;
  objects : list string;
  colors : list string;
  mood : Mood;
  semantic_weights : option (Dict.t Z)
}.

(** The six component names of a ComponentSet *)
Definition component_names : list string :=
  ["subject"; "action"; "setting"; "objects"; "colors"; "mood"].

(* ================================================================== *)
(** * Regular expressions, as [parser.py] uses them

    Every pattern of the parser is built from literal text, [\w+], [\s+],
    [\s*], [\b], alternation, an optional group and capture groups, and is
    searched with [re.IGNORECASE].  [run] is the backtracking matcher in
    continuation-passing style: the first complete match in Python's
    priority order (leftmost alternative, greedy repetition) is the one
    returned. *)

Module Re.

Inductive t : Type :=
| Lit (s : string)          (* literal text, letters match in either case *)
| Word1                     (* \w+ *)
| Space1                    (* \s+ *)
| Space0                    (* \s* *)
| Bound                     (* \b *)
| Fail                      (* the empty alternation *)
| Alt (a b : t)             (* a|b *)
| Opt (a : t)               (* a? *)
| Grp (n : nat) (a : t)     (* capture group number n *)
| Cat (a b : t).            (* ab *)

(** [w1|w2|...|wn] *)
Definition alts (ws : list string) : t :=
  fold_right (fun w r => Alt (Lit w) r) Fail ws.

(** [\w]: letters, digits and the underscore *)
Definition is_word (c : ascii) : bool :=
  (PyStr.is_lower c || PyStr.is_upper c || PyStr.is_digit c
   || Nat.eqb (PyStr.code c) 95)%bool.

(** [\s]: tab, newline, vertical tab, form feed, carriage return, the
    four separators 28-31 and the space *)
Definition is_space (c : ascii) : bool :=
  (PyStr.between 9 13 c || PyStr.between 28 32 c)%bool.

(** A position in the text: the characters before it, nearest first, and
    the characters after it; and the groups captured so far, latest
    first. *)
Record state : Type := mkState {
  before : string;
  after : string;
  groups : list (nat * string)
}.

Definition head_is (p : ascii -> bool) (s : string) : bool :=
  match s with
  | String c _ => p c
  | EmptyString => false
  end.

(** [\b] holds between a word character and a non-word character or an
    end of the text. *)
Definition at_boundary (s : state) : bool :=
  xorb (head_is is_word (before s)) (head_is is_word (after s)).

Fixpoint eat (lit : string) (bef aft : string) : option (string * string) :=
  match lit with
  | EmptyString => Some (bef, aft)
  | String c r =>
      match aft with
      | String d aft' =>
          if Ascii.eqb (PyStr.lower_char c) (PyStr.lower_char d)
          then eat r (String d bef) aft'
          else None
      | EmptyString => None
      end
  end.

(** Greedy [p*]: the longest run first, then shorter ones. *)
Fixpoint many {R : Type} (p : ascii -> bool) (bef aft : string)
         (k : string -> string -> option R) : option R :=
  match aft with
  | String c aft' =>
      if p c
      then match many p (String c bef) aft' k with
           | Some r => Some r
           | None => k bef aft
           end
      else k bef aft
  | EmptyString => k bef aft
  end.

(** Greedy [p+] *)
Definition many1 {R : Type} (p : ascii -> bool) (bef aft : string)
           (k : string -> string -> option R) : option R :=
  match aft with
  | String c aft' => if p c then many p (String c bef) aft' k else None
  | EmptyString => None
  end.

(** The text between two positions of the same string *)
Definition consumed (aft0 aft1 : string) : string :=
  substring 0 (String.length aft0 - String.length aft1) aft0.

Fixpoint run {R : Type} (r : t) (s : state) (k : state -> option R)
  : option R :=
  let at_ bef aft := k (mkState bef aft (groups s)) in
  match r with
  | Lit l =>
      match eat l (before s) (after s) with
      | Some (bef, aft) => at_ bef aft
      | None => None
      end
  | Word1 => many1 is_word (before s) (after s) at_
  | Space1 => many1 is_space (before s) (after s) at_
  | Space0 => many is_space (before s) (after s) at_
  | Bound => if at_boundary s then k s else None
  | Fail => None
  | Alt a b =>
      match run a s k with
      | Some x => Some x
      | None => run b s k
      end
  | Opt a =>
      match run a s k with
      | Some x => Some x
      | None => k s
      end
  | Grp n a =>
      run a s (fun s' =>
        k (mkState (before s') (after s')
             ((n, consumed (after s) (after s')) :: groups s')))
  | Cat a b => run a s (fun s' => run b s' k)
  end.

(** A match object: where it starts, and the state where it ends. *)
Record match_ : Type := mkMatch {
  m_from : string;
  m_end : state
}.

Definition match_at (r : t) (bef aft : string) : option match_ :=
  run r (mkState bef aft []) (fun s' => Some (mkMatch aft s')).

(** [m.group(0)] *)
Definition group0 (m : match_) : string :=
  consumed (m_from m) (after (m_end m)).

(** [m.group(n)], [None] for a group that took no part in the match *)
Fixpoint lookup (n : nat) (gs : list (nat * string)) : option string :=
  match gs with
  | [] => None
  | (i, s) :: r => if Nat.eqb n i then Some s else lookup n r
  end.

Definition group (n : nat) (m : match_) : option string :=
  lookup n (groups (m_end m)).

(** [re.search]: the match at the leftmost position that has one *)
Fixpoint search_from (r : t) (bef aft : string) : option match_ :=
  match match_at r bef aft with
  | Some m => Some m
  | None =>
      match aft with
      | String c aft' => search_from r (String c bef) aft'
      | EmptyString => None
      end
  end.

Definition search (r : t) (text : string) : option match_ :=
  search_from r EmptyString text.

(** [re.finditer]: the matches from left to right, each search starting
    where the last match ended; [skip] counts the characters of the last
    match still to pass.  (An empty match moves on by one character.) *)
Fixpoint finditer_from (r : t) (skip : nat) (bef aft : string)
  : list match_ :=
  match skip with
  | S n =>
      match aft with
      | String c aft' => finditer_from r n (String c bef) aft'
      | EmptyString => []
      end
  | O =>
      match match_at r bef aft with
      | Some m =>
          m :: match aft with
               | String c aft' =>
                   finditer_from r (String.length (group0 m) - 1)
                                 (String c bef) aft'
               | EmptyString => []
               end
      | None =>
          match aft with
          | String c aft' => finditer_from r O (String c bef) aft'
          | EmptyString => []
          end
      end
  end.

Definition finditer (r : t) (text : string) : list match_ :=
  finditer_from r O EmptyString text.

End Re.

(* ================================================================== *)
(** * tools/parser.py *)

(** The auxiliary lookup tables ([transformation_maps]).  The code reads
    each table with [.get(name, {})]: a missing table is the empty one. *)
Record Maps : Type := mkMaps {
  profession_to_icon_props : Dict.t string;
  emotion_to_mascot_face : Dict.t string;
  location_to_fantasy : Dict.t string
}.

Module Parser.

(** [\b(w1|...|wn)\b] *)
Definition words (ws : list string) : Re.t :=
  Re.Cat Re.Bound (Re.Cat (Re.Grp 1 (Re.alts ws)) Re.Bound).

Definition subjects : Dict.t Re.t :=
  [("human",
    words ["person"; "people"; "man"; "woman"; "child"; "kid"; "adult";
           "teenager"; "boy"; "girl"; "chef"; "doctor"; "firefighter";
           "teacher"; "artist"; "musician"; "pilot"; "detective";
           "scientist"; "astronaut"; "athlete"; "dancer"; "singer";
           "wizard"; "warrior"; "knight"; "pirate"; "ninja"; "superhero"]);
   ("animal",
    words ["cat"; "dog"; "bird"; "fish"; "horse"; "lion"; "tiger"; "bear";
           "elephant"; "dragon"; "phoenix"; "unicorn"; "griffin"; "kitten";
           "puppy"]);
   ("object",
    words ["car"; "boat"; "plane"; "bicycle"; "train"; "rocket"; "sword";
           "hammer"; "book"; "computer"; "phone"; "camera"; "chair";
           "table"]);
   ("food",
    words ["pizza"; "burger"; "sandwich"; "taco"; "pasta"; "apple";
           "banana"; "strawberry"; "cake"; "cookie"; "donut"])].

(** The loop [for kind, pattern in table.items()]: the first pattern, in
    table order, that is found in the prompt. *)
Fixpoint first_match (table : Dict.t Re.t) (prompt : string)
  : option (string * Re.match_) :=
  match table with
  | [] => None
  | (kind, pattern) :: rest =>
      match Re.search pattern prompt with
      | Some m => Some (kind, m)
      | None => first_match rest prompt
      end
  end.

(** [rf'\b(\w+)\s+{subject_name}\b'] *)
Definition attr_pattern (subject_name : string) : Re.t :=
  Re.Cat Re.Bound
    (Re.Cat (Re.Grp 1 Re.Word1)
       (Re.Cat Re.Space1 (Re.Cat (Re.Lit subject_name) Re.Bound))).

(** [r'\b(two|three|four|five|six|2|3|4|5|6)\s+' + subject_name] *)
Definition count_pattern (subject_name : string) : Re.t :=
  Re.Cat Re.Bound
    (Re.Cat (Re.Grp 1 (Re.alts ["two"; "three"; "four"; "five"; "six";
                                "2"; "3"; "4"; "5"; "6"]))
       (Re.Cat Re.Space1 (Re.Lit subject_name))).

Definition count_map : Dict.t Z :=
  [("two", 2); ("three", 3); ("four", 4); ("five", 5); ("six", 6)].

Definition default_subject : Subject :=
  mkSubject "abstract" None [] None 0.

Definition extract_subject (prompt : string) (transformation_maps : Maps)
  : Subject :=
  match first_match subjects prompt with
  | Some (kind, m) =>
      let name := Re.group0 m in
      let attributes :=
        match Re.search (attr_pattern name) prompt with
        | Some am => match Re.group 1 am with
                     | Some a => [a]
                     | None => []
                     end
        | None => []
        end in
      let profession :=
        if (String.eqb kind "human"
            && Dict.mem (PyStr.lower name)
                        (profession_to_icon_props transformation_maps))%bool
        then Some (PyStr.lower name)
        else None in
      let count :=
        match Re.search (count_pattern name) prompt with
        | Some cm =>
            let count_word := PyStr.lower (fmt (Re.group 1 cm)) in
            Dict.get_or count_word
              (if PyStr.isdigit count_word
               then PyStr.to_int count_word else 1)
              count_map
        | None => 1
        end in
      mkSubject kind (Some name) attributes profession count
  | None => default_subject
  end.

Definition actions : Dict.t (list string) :=
  [("high_energy", ["running"; "jumping"; "flying"; "racing"; "sprinting";
                    "leaping"; "dashing"]);
   ("medium_energy", ["walking"; "swimming"; "climbing"; "dancing";
                      "playing"; "working"; "cooking"]);
   ("low_energy", ["sitting"; "standing"; "lying"; "resting"; "reading";
                   "thinking"; "meditating"])].

(** The nested loops [for tier, ws in table.items(): for w in ws:
    if w in text]: the first word, in table order, found in the text. *)
Fixpoint first_word (table : Dict.t (list string)) (text : string)
  : option (string * string) :=
  match table with
  | [] => None
  | (tier, ws) :: rest =>
      match find (fun w => PyStr.contains w text) ws with
      | Some w => Some (tier, w)
      | None => first_word rest text
      end
  end.

(** [rf'{verb}\s+(a|an|the)?\s*(\w+)'] *)
Definition obj_pattern (verb : string) : Re.t :=
  Re.Cat (Re.Lit verb)
    (Re.Cat Re.Space1
       (Re.Cat (Re.Opt (Re.Grp 1 (Re.alts ["a"; "an"; "the"])))
          (Re.Cat Re.Space0 (Re.Grp 2 Re.Word1)))).

Definition intensity_modifiers : list string :=
  ["violently"; "intensely"; "quickly"; "slowly"; "gently"; "carefully"].

Definition default_action : Action :=
  mkAction None "low" None None false.

Definition extract_action (prompt : string) : Action :=
  let text := PyStr.lower prompt in
  match first_word actions text with
  | Some (energy_level, verb) =>
      let action_object :=
        match Re.search (obj_pattern verb) prompt with
        | Some m => Re.group 2 m
        | None => None
        end in
      let modifier :=
        find (fun md => PyStr.contains md text) intensity_modifiers in
      mkAction (Some verb)
               (PyStr.replace "_energy" "" energy_level)
               action_object
               modifier
               (PyStr.contains "ing" text)
  | None => default_action
  end.

(** [\b(w1|...|wn)\b] where a word may hold a space *)
Definition settings : Dict.t Re.t :=
  [("indoor_specific",
    words ["kitchen"; "bedroom"; "office"; "classroom"; "library"; "lab";
           "studio"; "garage"; "bathroom"; "hallway"]);
   ("indoor_generic",
    words ["inside"; "indoors"; "room"; "building"; "house"]);
   ("outdoor_natural",
    words ["forest"; "mountain"; "beach"; "desert"; "jungle"; "field";
           "river"; "lake"; "ocean"; "park"; "garden"]);
   ("outdoor_urban",
    words ["street"; "city"; "downtown"; "alley"; "plaza"; "rooftop";
           "sidewalk"]);
   ("fantasy",
    words ["castle"; "dungeon"; "spaceship"; "alien planet";
           "magical realm"; "dimension"])].

Definition atmosphere_words : list string :=
  ["busy"; "quiet"; "dark"; "bright"; "crowded"; "empty"; "chaotic";
   "peaceful"].

Definition time_pattern : Re.t :=
  words ["dawn"; "sunrise"; "morning"; "noon"; "afternoon"; "sunset";
         "dusk"; "evening"; "night"; "midnight"].

Definition default_setting : Setting :=
  mkSetting "abstract" None [] None.

Definition extract_setting (prompt : string) : Setting :=
  match first_match settings prompt with
  | Some (kind, m) =>
      mkSetting kind
        (Some (Re.group0 m))
        (filter (fun w => PyStr.contains w (PyStr.lower prompt))
                atmosphere_words)
        (option_map Re.group0 (Re.search time_pattern prompt))
  | None => default_setting
  end.

(** [r'\b(with|holding|carrying|near|beside)\s+(a|an|the)?\s*(\w+)\b'] *)
Definition prop_pattern : Re.t :=
  Re.Cat Re.Bound
    (Re.Cat (Re.Grp 1 (Re.alts ["with"; "holding"; "carrying"; "near";
                                "beside"]))
       (Re.Cat Re.Space1
          (Re.Cat (Re.Opt (Re.Grp 2 (Re.alts ["a"; "an"; "the"])))
             (Re.Cat Re.Space0 (Re.Cat (Re.Grp 3 Re.Word1) Re.Bound))))).

Definition extract_objects (prompt : string) : list string :=
  map (fun m => fmt (Re.group 3 m)) (Re.finditer prop_pattern prompt).

Definition palette : list string :=
  ["red"; "blue"; "green"; "yellow"; "orange"; "purple"; "pink"; "black";
   "white"; "brown"; "gray"; "cyan"; "magenta"; "teal"; "gold"; "silver"].

(** The loop [for color in colors: if color in prompt.lower(): append] *)
Definition extract_colors (prompt : string) : list string :=
  filter (fun color => PyStr.contains color (PyStr.lower prompt)) palette.

Definition emotions : Dict.t (list string) :=
  [("positive", ["happy"; "joyful"; "excited"; "proud"; "confident";
                 "cheerful"; "delighted"]);
   ("negative", ["sad"; "angry"; "afraid"; "worried"; "frustrated";
                 "tired"; "exhausted"; "lonely"]);
   ("neutral", ["calm"; "peaceful"; "focused"; "curious";
                "contemplative"])].

Definition default_mood : Mood := mkMood None "neutral" "medium".

Definition extract_mood (prompt : string) : Mood :=
  let text := PyStr.lower prompt in
  match first_word emotions text with
  | Some (valence, emotion) =>
      let intensity :=
        if (PyStr.contains "very" text
            || PyStr.contains "extremely" text)%bool then "high"
        else if (PyStr.contains "slightly" text
                 || PyStr.contains "a bit" text)%bool then "low"
        else "medium" in
      mkMood (Some emotion) valence intensity
  | None => default_mood
  end.

Definition parse_prompt_components (prompt : string)
           (transformation_maps : Maps) : ComponentSet :=
  mkComponents (extract_subject prompt transformation_maps)
               (extract_action prompt)
               (extract_setting prompt)
               (extract_objects prompt)
               (extract_colors prompt)
               (extract_mood prompt)
               None.

End Parser.

(* ================================================================== *)
(** * The rule catalog and the style parameters

    Only the keys the pipeline reads are modelled.  A table or list the
    code reads with [.get(key, {})] or [.get(key, [])] is the empty one
    when the key is missing; a key with any other default is an [option]. *)

Record SubjectRule : Type := mkSubjectRule {
  sr_treatment : option string;          (* default 'standard' *)
  sr_features : list string;
  sr_attributes : list string
}.

Record ActionRule : Type := mkActionRule {
  ar_treatment : string;                 (* default '' *)
  ar_features : list string;
  ar_effects : list string
}.

Record SettingRule : Type := mkSettingRule {
  st_treatment : string;                 (* default '' *)
  st_elements : string;                  (* default '' *)
  st_background : string                 (* default '' *)
}.

Record ColorRules : Type := mkColorRules {
  cr_mappings : Dict.t string;
  cr_always_add : option string;
  cr_saturation : option string;         (* default 'medium' *)
  cr_gradients : option bool;            (* default True *)
  cr_max_colors : option Z;
  cr_default_palette : option string     (* default 'natural balanced colors' *)
}.

Record Rules : Type := mkRules {
  rules_name : option string;
  subject_rules : Dict.t SubjectRule;
  action_rules : Dict.t ActionRule;
  setting_rules : Dict.t SettingRule;
  color_rules : ColorRules;
  mandatory_markers : list string;
  negative_prompts : list string
}.

(** A style-parameter bundle; [{}] is [no_params]. *)
Record Params : Type := mkParams {
  param_name : option string;
  param_energy_level : option Q;
  param_color_saturation : option string;
  param_composition_density : option Q;
  param_era : option string
}.

Definition no_params : Params := mkParams None None None None None.

Definition Qltb (x y : Q) : bool := negb (Qle_bool y x).

(** A value of the transformed-components dict: a fragment, the list of
    style markers, or [None]. *)
Inductive value : Type :=
| VStr (s : string)
| VList (l : list string)
| VNone.

(** [bool(v)] *)
Definition value_truthy (v : value) : bool :=
  match v with
  | VStr s => negb (String.eqb s "")
  | VList l => match l with [] => false | _ => true end
  | VNone => false
  end.

(** [str(v)] *)
Definition value_str (v : value) : string :=
  match v with
  | VStr s => s
  | VList l => PyStr.repr_list l
  | VNone => "None"
  end.

(** The keys of the dict [apply_category_transformation] returns *)
Definition transformed_names : list string :=
  ["subject"; "action"; "setting"; "colors"; "effects"; "style_markers";
   "typography"].

(* ================================================================== *)
(** * tools/utils.py *)

Module Utils.

Definition initial_weights : Dict.t Z :=
  [("subject", 0); ("action", 0); ("setting", 0);
   ("objects", 0); ("colors", 0); ("mood", 0)].

(** [weights[k] += n] *)
Definition add_to (k : string) (n : Z) (w : Dict.t Z) : Dict.t Z :=
  Dict.set k (Dict.get_or k 0 w + n) w.

Definition when (b : bool) (f : Dict.t Z -> Dict.t Z) (w : Dict.t Z)
  : Dict.t Z := if b then f w else w.

Definition nonempty {A : Type} (l : list A) : bool :=
  match l with [] => false | _ => true end.

Definition high_or_extreme (e : string) : bool :=
  (String.eqb e "high" || String.eqb e "extreme")%bool.

(** The raw scores: lines 9-41 of [calculate_semantic_weights], the
    base weights and the three specificity bonuses. *)
Definition raw_weights (c : ComponentSet) : Dict.t Z :=
  let w := initial_weights in
  let w := when (truthy (subject_name (subject c)))
                (Dict.set "subject" 40) w in
  let w := when (truthy (action_verb (action c)))
                (Dict.set "action" 30) w in
  let w := when (truthy (setting_location (setting c)))
                (Dict.set "setting" 15) w in
  let w := when (nonempty (objects c)) (Dict.set "objects" 10) w in
  let w := when (truthy (mood_emotion (mood c)))
                (Dict.set "mood" 5) w in
  let w := when (Nat.ltb 1 (List.length (subject_attributes (subject c)))
                 || truthy (subject_profession (subject c)))
                (add_to "subject" 10) w in
  let w := when (high_or_extreme (action_energy_level (action c)))
                (add_to "action" 10) w in
  let w := when (PyStr.endswith (setting_type (setting c)) "_specific")
                (add_to "setting" 10) w in
  w.

(** [int((x / total) * 100)] *)
Definition scale (total x : Z) : result Z :=
  PyFloat.to_int
    (PyFloat.mul (PyFloat.div (PyFloat.of_int x) (PyFloat.of_int total))
                 (PyFloat.of_int 100)).

(** Lines 43-47: normalize to 100, [if total > 0]. *)
Definition normalize (w : Dict.t Z) : result (Dict.t Z) :=
  let total := zsum (Dict.values w) in
  if 0 <? total
  then traverse (fun kv => v <- scale total (snd kv) ;; Ok (fst kv, v)) w
  else Ok w.

Definition calculate_semantic_weights (c : ComponentSet)
  : result (Dict.t Z) :=
  normalize (raw_weights c).

(** The second argument is not read. *)
Definition order_by_importance (components : Dict.t value)
           (semantic_weights : Dict.t Z) (emphasis_order : list string)
  : Dict.t value :=
  let ordered :=
    fold_left
      (fun ordered key =>
         match Dict.get key components with
         | Some v => if value_truthy v then Dict.set key v ordered
                     else ordered
         | None => ordered
         end)
      emphasis_order [] in
  fold_left
    (fun ordered kv =>
       if (negb (Dict.mem (fst kv) ordered) && value_truthy (snd kv))%bool
       then Dict.set (fst kv) (snd kv) ordered
       else ordered)
    components ordered.

Definition universal : list string :=
  ["blurry"; "low quality"; "distorted"; "deformed"; "watermark";
   "text overlay"; "signature"; "cropped"; "out of frame"].

Definition generate_negative_prompt (category : string)
           (categories : Dict.t Rules) : string :=
  let category_negatives :=
    match Dict.get category categories with
    | Some rules => negative_prompts rules
    | None => []
    end in
  PyStr.join ", " (universal ++ category_negatives).

End Utils.

(* ================================================================== *)
(** * tools/transformer.py *)

Module Transformer.

Definition opt_default (o : option string) (d : string) : string :=
  match o with
  | Some s => s
  | None => d
  end.

Definition transform_subject (s : Subject) (rules : Rules) (maps : Maps)
           (params : Params) : result string :=
  match Dict.get (subject_type s) (subject_rules rules) with
  | None => Ok (fmt (subject_name s))
  | Some subject_rule =>
      let treatment := opt_default (sr_treatment subject_rule) "standard" in
      let prop :=
        if truthy (subject_profession s)
        then match Dict.get (fmt (subject_profession s))
                            (profession_to_icon_props maps) with
             | Some p => ["with " ++ p]
             | None => []
             end
        else [] in
      let faces :=
        map (fun attr =>
               match Dict.get attr (emotion_to_mascot_face maps) with
               | Some face => face
               | None => attr ++ " appearance"
               end)
            (subject_attributes s) in
      match subject_name s with
      | Some name =>
          Ok (PyStr.join ", "
                ([PyStr.replace "_" " " treatment; name]
                 ++ prop
                 ++ sr_features subject_rule
                 ++ sr_attributes subject_rule
                 ++ faces))
      | None =>
          (* [', '.join(parts)] with [parts[1]] being [None] *)
          Raise (TypeError
                   "sequence item 1: expected str instance, NoneType found")
      end
  end.

Definition transform_action (a : Action) (rules : Rules) (maps : Maps)
           (params : Params) : result string :=
  if negb (truthy (action_verb a)) then Ok "in neutral pose"
  else
    let verb := fmt (action_verb a) in
    let energy_level :=
      if Dict.mem (action_energy_level a) (action_rules rules)
      then action_energy_level a
      else "low_energy" in
    action_rule <- Dict.item energy_level (action_rules rules) ;;
    let effects :=
      match param_energy_level params with
      | Some m =>
          if Qltb 1 m
          then map (fun e => e ++ " intensified") (ar_effects action_rule)
          else ar_effects action_rule
      | None => ar_effects action_rule
      end in
    let category := opt_default (rules_name rules) "" in
    let with_object :=
      if truthy (action_object a)
      then if (PyStr.contains "mascot" category
               || PyStr.contains "kid_chaos" category)%bool
           then ["with comically oversized " ++ fmt (action_object a)]
           else ["with " ++ fmt (action_object a)]
      else [] in
    let with_effects :=
      match effects with
      | [] => []
      | _ => [PyStr.join ", " effects]
      end in
    Ok (PyStr.join ", "
          ([verb ++ " with " ++ ar_treatment action_rule]
           ++ ar_features action_rule
           ++ with_object
           ++ with_effects)).

Definition nonempty_str (s : string) : bool := negb (String.eqb s "").

Definition transform_setting (s : Setting) (rules : Rules) (params : Params)
  : string :=
  let location := fmt (setting_location s) in
  let rule_key :=
    if Dict.mem (setting_type s) (setting_rules rules)
    then setting_type s
    else if PyStr.contains "indoor" (setting_type s) then "indoor"
    else if PyStr.contains "outdoor" (setting_type s) then "outdoor"
    else "abstract" in
  match Dict.get rule_key (setting_rules rules) with
  | None => location ++ " background"
  | Some setting_rule =>
      PyStr.join ", "
        ([location ++ " " ++ st_treatment setting_rule]
         ++ (if nonempty_str (st_elements setting_rule)
             then ["with " ++ st_elements setting_rule] else [])
         ++ (if nonempty_str (st_background setting_rule)
             then [st_background setting_rule] else [])
         ++ (if truthy (setting_time s)
             then ["at " ++ fmt (setting_time s)] else []))
  end.

Definition transform_colors (colors : list string) (rules : Rules)
           (params : Params) : string :=
  let cr := color_rules rules in
  let saturation :=
    match param_color_saturation params with
    | Some s => s
    | None => opt_default (cr_saturation cr) "medium"
    end in
  match colors with
  | [] =>
      opt_default (cr_default_palette cr) "natural balanced colors"
      ++ ", " ++ saturation ++ " saturation"
  | _ =>
      let transformed :=
        map (fun color => Dict.get_or color color (cr_mappings cr)) colors in
      let transformed :=
        match cr_always_add cr with
        | Some a =>
            if String.eqb a "complementary accent color"
            then (transformed ++ ["with complementary accent"])%list
            else transformed
        | None => transformed
        end in
      let palette_desc := PyStr.join ", " (firstn 3 transformed) in
      PyStr.join ", "
        (["color palette of " ++ palette_desc; saturation ++ " saturation"]
         ++ (match cr_gradients cr with
             | Some false => ["flat colors with no gradients"]
             | _ => []
             end)
         ++ (match cr_max_colors cr with
             | Some n =>
                 if Z.eqb n 0 then []
                 else ["limited to " ++ PyStr.of_int n ++ " colors maximum"]
             | None => []
             end))
  end.

Definition effects_map : Dict.t (list string) :=
  [("mascot_theater",
    ["white starburst highlights on curved surfaces";
     "radial sunburst background lines";
     "scattered floating sparkle effects";
     "thick drop shadows for depth"]);
   ("health_halo",
    ["soft lens bokeh in background";
     "natural dust particles visible in light beam";
     "subtle vignette framing";
     "shallow depth of field"]);
   ("nostalgia_revival",
    ["visible halftone dot pattern";
     "slight paper texture and grain";
     "intentional registration offset for vintage print feel";
     "limited spot color separation"]);
   ("premium_disruptor",
    ["gold foil catching single light source";
     "extreme rim lighting creating halo";
     "selective focus with razor-thin depth of field";
     "dramatic shadows in 90% of composition"]);
   ("kid_chaos",
    ["speed lines radiating from all edges";
     "explosive starburst effects in multiple neon colors";
     "lightning bolts and electricity crackling";
     "holographic rainbow gradient overlays";
     "motion blur trails showing energy"]);
   ("transparent_honest",
    ["crisp sharp focus throughout with no artistic blur";
     "even clinical lighting eliminating shadows";
     "grid overlay with measurements visible";
     "labeled components and specifications"]);
   ("adventure_fantasy",
    ["volumetric god rays breaking through atmosphere";
     "magical particle effects floating in air";
     "dramatic rim lighting with colored gels";
     "ethereal glow on mystical elements";
     "cinematic lens flare"])].

Definition transform_effects (category : string) (c : ComponentSet)
           (params : Params) : string :=
  let effects := Dict.get_or category [] effects_map in
  let density :=
    match param_composition_density params with
    | Some d => d
    | None => 0.7%Q
    end in
  let effects :=
    if Qltb density 0.5 then firstn 2 effects
    else if Qltb 0.8 density then effects
    else firstn 3 effects in
  PyStr.join ", " effects.

(** [profession.upper()], where [profession] may be [None] *)
Definition upper_of (o : option string) : result string :=
  match o with
  | Some s => Ok (PyStr.upper s)
  | None => Raise (AttributeError
                     "'NoneType' object has no attribute 'upper'")
  end.

Definition transform_typography (s : Subject) (category : string)
           (params : Params) : result (option string) :=
  let profession :=
    if truthy (subject_profession s)
    then subject_profession s else subject_name s in
  if String.eqb category "mascot_theater" then
    up <- upper_of profession ;;
    let text := up ++ " CRUNCH" in
    Ok (Some ("bubbly curved typography spelling '" ++ text
              ++ "' arcing over scene, thick inline and outline effects"))
  else if String.eqb category "kid_chaos" then
    up <- upper_of profession ;;
    let text := up ++ " BLAST" in
    Ok (Some ("chrome metallic text spelling '" ++ text
              ++ "' with lightning bolt letters, extreme 3D extrusion, neon glow"))
  else if String.eqb category "nostalgia_revival" then
    let era := opt_default (param_era params) "1970s" in
    up <- upper_of profession ;;
    let text := up ++ " - SINCE " ++ PyStr.take 4 era in
    Ok (Some ("hand-lettered " ++ era ++ " typography reading '" ++ text
              ++ "', distressed letterpress texture, slab serif style"))
  else Ok None.

Definition typography_categories : list string :=
  ["mascot_theater"; "kid_chaos"; "nostalgia_revival"].

Definition value_of_option (o : option string) : value :=
  match o with
  | Some s => VStr s
  | None => VNone
  end.

Definition apply_category_transformation (c : ComponentSet) (rules : Rules)
           (transformation_maps : Maps) (params : Params)
  : result (Dict.t value) :=
  let category := opt_default (rules_name rules) "unknown" in
  subj <- transform_subject (subject c) rules transformation_maps params ;;
  act <- transform_action (action c) rules transformation_maps params ;;
  let sett := transform_setting (setting c) rules params in
  let cols := transform_colors (colors c) rules params in
  let effs := transform_effects category c params in
  typo <- (if existsb (String.eqb category) typography_categories
           then transform_typography (subject c) category params
           else Ok None) ;;
  Ok [("subject", VStr subj);
      ("action", VStr act);
      ("setting", VStr sett);
      ("colors", VStr cols);
      ("effects", VStr effs);
      ("style_markers", VList (mandatory_markers rules));
      ("typography", value_of_option typo)].

End Transformer.

(* ================================================================== *)
(** * server.py: the tools *)

Record Template : Type := mkTemplate {
  emphasis_order : list string;
  structure : string
}.

(** The module-level tables of [server.py], filled once at import. *)
Record Globals : Type := mkGlobals {
  CATEGORIES : Dict.t Rules;
  TRANSFORMATION_MAPS : Maps;
  TEMPLATES : Dict.t Template
}.

Record Metadata : Type := mkMetadata {
  meta_category : string;
  estimated_tokens : Z;
  ready_for_synthesis : bool;
  user_modifications : option (list string)   (* [None]: key absent *)
}.

Record Skeleton : Type := mkSkeleton {
  sections : Dict.t value;
  emphasis : Dict.t Q;
  template : Template;
  negative_prompt : string;
  metadata : Metadata
}.

Record Variant : Type := mkVariant {
  variant_name : string;
  style_params : Params;
  skeleton : Skeleton
}.

Module Server.

Definition parse_prompt (g : Globals) (user_prompt : string)
  : result ComponentSet :=
  let c := Parser.parse_prompt_components user_prompt
                                          (TRANSFORMATION_MAPS g) in
  w <- Utils.calculate_semantic_weights c ;;
  Ok (mkComponents (subject c) (action c) (setting c) (objects c)
                   (colors c) (mood c) (Some w)).

Definition apply_transformations (g : Globals) (parsed : ComponentSet)
           (category : string) (style_params : option Params)
  : result (Dict.t value) :=
  match Dict.get category (CATEGORIES g) with
  | None => Raise (ValueError ("Unknown category: " ++ category))
  | Some rules =>
      let params := match style_params with
                    | Some p => p
                    | None => no_params
                    end in
      Transformer.apply_category_transformation
        parsed rules (TRANSFORMATION_MAPS g) params
  end.

(** The emphasis tier of one weight (lines 549-556) *)
Definition emphasis_of (weight : Z) : Q :=
  if 60 <? weight then 1.3%Q
  else if 40 <? weight then 1.15%Q
  else if 20 <? weight then 1.0%Q
  else 0.85%Q.

(** [sum(len(str(v)) for v in sections.values()) // 4] *)
Definition token_estimate (sections : Dict.t value) : Z :=
  zsum (map (fun v => Z.of_nat (String.length (value_str v)))
            (Dict.values sections)) / 4.

Definition build_prompt_skeleton (g : Globals)
           (transformed_components : Dict.t value) (category : string)
           (semantic_weights : Dict.t Z) : result Skeleton :=
  template <- Dict.item category (TEMPLATES g) ;;
  let ordered_sections :=
    Utils.order_by_importance transformed_components semantic_weights
                              (emphasis_order template) in
  let emphasis :=
    fold_left (fun emphasis cw =>
                 Dict.set (fst cw) (emphasis_of (snd cw)) emphasis)
              semantic_weights [] in
  let negative := Utils.generate_negative_prompt category (CATEGORIES g) in
  Ok (mkSkeleton ordered_sections emphasis template negative
                 (mkMetadata category (token_estimate ordered_sections)
                             true None)).

(** [refine_component] works on the caller's skeleton in place and
    returns that same object.  The first component of the result is the
    skeleton object after the call, the second the outcome: [Ok tt] when
    the reference is returned, the exception otherwise. *)
Definition refine_component (skeleton : Skeleton)
           (component_name new_value : string) : Skeleton * result unit :=
  if negb (Dict.mem component_name (sections skeleton))
  then (skeleton,
        Raise (ValueError
                 ("Unknown component: " ++ component_name
                  ++ ". Available: "
                  ++ PyStr.repr_list (Dict.keys (sections skeleton)))))
  else
    let sections' :=
      Dict.set component_name (VStr new_value) (sections skeleton) in
    let md := metadata skeleton in
    let history :=
      match user_modifications md with
      | Some l => l
      | None => []
      end in
    (mkSkeleton sections' (emphasis skeleton) (template skeleton)
                (negative_prompt skeleton)
                (mkMetadata (meta_category md)
                            (token_estimate sections')
                            (ready_for_synthesis md)
                            (Some (history ++ [component_name])%list)),
     Ok tt).

Definition param_sets : list Params :=
  [mkParams (Some "Subtle") (Some 0.5%Q) (Some "pastel") (Some 0.4%Q) None;
   mkParams (Some "Balanced") (Some 0.75%Q) (Some "bright") (Some 0.7%Q)
            None;
   mkParams (Some "Intense") (Some 1.0%Q) (Some "neon") (Some 1.0%Q) None;
   mkParams (Some "Vintage") (Some 0.6%Q) (Some "muted") (Some 0.5%Q)
            (Some "1970s");
   mkParams (Some "Dramatic") (Some 0.9%Q) (Some "bold") (Some 0.8%Q) None].

(** The body of the loop over [enumerate(param_sets[:count])] *)
Definition variant (g : Globals) (parsed : ComponentSet)
           (category : string) (i : Z) (params : Params) : result Variant :=
  transformed <- apply_transformations g parsed category (Some params) ;;
  weights <- match semantic_weights parsed with
             | Some w => Ok w
             | None => Raise (KeyError "semantic_weights")
             end ;;
  skeleton <- build_prompt_skeleton g transformed category weights ;;
  Ok (mkVariant ("Variant " ++ PyStr.of_int (i + 1) ++ " ("
                 ++ fmt (param_name params) ++ ")")
                params skeleton).

Fixpoint variants_from (g : Globals) (parsed : ComponentSet)
         (category : string) (i : Z) (ps : list Params)
  : result (list Variant) :=
  match ps with
  | [] => Ok []
  | params :: rest =>
      v <- variant g parsed category i params ;;
      vs <- variants_from g parsed category (i + 1) rest ;;
      Ok (v :: vs)
  end.

Definition generate_variants (g : Globals) (parsed : ComponentSet)
           (category : string) (count : Z) : result (list Variant) :=
  if ((count <? 1) || (5 <? count))%bool
  then Raise (ValueError "Count must be between 1 and 5")
  else variants_from g parsed category 0
                     (firstn (Z.to_nat count) param_sets).

End Server.

(* ================================================================== *)
(** * server.py: the tables [OlogLoader] holds in the source

    The category names come from the YAML olog, which is not among the
    sources; the tests fix them.  Every other table below is a literal of
    [server.py], restricted to the keys the pipeline reads. *)

Module OlogLoader.

Definition category_names : list string :=
  ["mascot_theater"; "health_halo"; "nostalgia_revival";
   "premium_disruptor"; "kid_chaos"; "transparent_honest";
   "adventure_fantasy"].

Definition subject_rules_map : Dict.t (Dict.t SubjectRule) :=
  [("mascot_theater",
    [("human",
      mkSubjectRule (Some "cartoon_mascot")
        ["oversized head (1.5x proportion)"; "simplified 4-finger hands";
         "simplified anatomy"; "expressive eyes"]
        ["bold black outlines"; "thick drop shadows";
         "white gloves optional"]);
     ("animal",
      mkSubjectRule (Some "anthropomorphized")
        ["bipedal stance"; "clothed"; "expressive eyebrows";
         "human-like gestures"]
        ["bold outlines"; "simple rounded shapes"]);
     ("object",
      mkSubjectRule (Some "personified")
        ["add face with googly eyes"; "add limbs and hands";
         "personality expression"]
        ["friendly smile or expression"])]);
   ("health_halo",
    [("human",
      mkSubjectRule (Some "hands_only_or_silhouette")
        ["cropped to hands in close-up"; "partial face in shadow";
         "no identifying features"; "focus on capable gestures"]
        ["natural skin tones"; "minimal styling"; "authentic presence"]);
     ("animal",
      mkSubjectRule (Some "naturalistic")
        ["documentary photography style"; "natural behavior";
         "real environment"]
        ["soft focus background"; "natural colors"]);
     ("object",
      mkSubjectRule (Some "deconstructed_materials")
        ["shown as raw materials"; "ingredient stage";
         "component parts visible"]
        ["texture visible"; "natural finish";
         "organized flat-lay arrangement"])])].

Definition base_actions : Dict.t ActionRule :=
  [("low_energy", mkActionRule "" [] []);
   ("medium_energy", mkActionRule "" [] []);
   ("high_energy", mkActionRule "" [] [])].

Definition action_map : Dict.t (Dict.t ActionRule) :=
  [("mascot_theater",
    [("low_energy",
      mkActionRule "friendly gesture"
        ["static pose"; "one hand waving or pointing"; "welcoming stance"]
        ["small sparkles"; "simple motion line"]);
     ("medium_energy",
      mkActionRule "animated motion"
        ["leaning into action"; "arms in motion";
         "one foot slightly raised"]
        ["motion lines"; "small starbursts"; "action swooshes"]);
     ("high_energy",
      mkActionRule "dynamic mid-action"
        ["mid-leap or jump"; "one foot always off ground";
         "arms spread wide"; "hair/clothing flowing"]
        ["speed lines"; "motion blur trail"; "dust clouds";
         "large starbursts"; "impact marks"])])].

Definition setting_map : Dict.t (Dict.t SettingRule) :=
  [("mascot_theater",
    [("indoor",
      mkSettingRule "simplified_icons" "2-3 key objects only"
                    "flat solid color with no detail");
     ("outdoor",
      mkSettingRule "generic_simple"
        "blue sky, white puffy clouds, green ground line, simple curved hills"
        "no texture, basic shapes");
     ("abstract",
      mkSettingRule "radial_sunburst"
                    "concentric circles or radiating lines"
                    "bright primary color")])].

Definition no_color_rules : ColorRules :=
  mkColorRules [] None None None None None.

Definition color_map : Dict.t ColorRules :=
  [("mascot_theater",
    mkColorRules
      [("blue", "bright primary blue"); ("red", "cherry red");
       ("green", "lime green"); ("yellow", "sunshine yellow");
       ("purple", "grape purple"); ("orange", "bright orange");
       ("pink", "bubblegum pink")]
      (Some "complementary accent color")
      (Some "maximum")
      (Some false)
      (Some 4)
      (Some "bright primary colors (red, blue, yellow)"))].

Definition mandatory_markers_map : Dict.t (list string) :=
  [("mascot_theater",
    ["cartoon character"; "bold black outlines";
     "commercial illustration style"; "bright primary colors"]);
   ("health_halo",
    ["natural palette"; "clean composition"; "matte finish aesthetic";
     "soft natural lighting"])].

Definition negative_prompts_map : Dict.t (list string) :=
  [("mascot_theater",
    ["realistic"; "photographic"; "detailed anatomy"; "complex shading";
     "gradient backgrounds"; "violent"; "dark"; "gritty"]);
   ("health_halo",
    ["cartoon"; "bright neon colors"; "artificial"; "cluttered";
     "dramatic lighting"; "busy background"])].

(** [_build_category_structure], the keys the pipeline reads *)
Definition build_category_structure (category_name : string) : Rules :=
  mkRules (Some category_name)
          (Dict.get_or category_name [] subject_rules_map)
          (Dict.get_or category_name base_actions action_map)
          (Dict.get_or category_name [] setting_map)
          (Dict.get_or category_name no_color_rules color_map)
          (Dict.get_or category_name [] mandatory_markers_map)
          (Dict.get_or category_name [] negative_prompts_map).

Definition get_categories : Dict.t Rules :=
  map (fun n => (n, build_category_structure n)) category_names.

Definition get_transformation_maps : Maps :=
  mkMaps
    [("chef", "oversized white chef hat and red neckerchief");
     ("firefighter", "bright yellow helmet with red suspenders");
     ("doctor", "white coat and stethoscope around neck")]
    [("happy", "wide smile with sparkles in eyes, cheeks raised in joy");
     ("sad", "single large tear drop, downturned mouth with slight frown")]
    [("kitchen",
      "alchemist's laboratory with bubbling cauldrons and mystical ingredients")].

(** The table [get_templates] builds *)
Definition template_map : Dict.t Template :=
  [("mascot_theater",
    mkTemplate
      ["subject"; "action"; "effects"; "setting"; "colors"; "typography";
       "style_markers"]
      "Subject → Action → Setting → Colors → Effects → Typography → Style Markers")].

(** [get_templates], over the loader's [templates_cache]: a filled cache
    is returned as it is; otherwise the cache takes [template_map] and the
    local [templates], still empty, is returned. *)
Definition get_templates (templates_cache : option (Dict.t Template))
  : Dict.t Template * option (Dict.t Template) :=
  match templates_cache with
  | Some (entry :: rest) => (entry :: rest, templates_cache)
  | _ => ([], Some template_map)
  end.

(** A process whose [TEMPLATES] is the table the loader builds and caches
    (what [get_templates] returns from its second call on) *)
Definition globals : Globals :=
  mkGlobals get_categories get_transformation_maps template_map.

(** The process as the module initializes it when the ologs load:
    [TEMPLATES] is what the first call of [get_templates] returns. *)
Definition globals_at_import : Globals :=
  mkGlobals get_categories get_transformation_maps (fst (get_templates None)).

End OlogLoader.

(* ================================================================== *)
(** * Definitions used by the statements below *)

(** ** The importance weighter *)

Fixpoint weights_eqb (a b : Dict.t Z) : bool :=
  match a, b with
  | [], [] => true
  | (k, x) :: a', (k', y) :: b' =>
      (String.eqb k k' && (x =? y) && weights_eqb a' b')%bool
  | _, _ => false
  end.

(** The raw scores depend on the ComponentSet through eight tests. *)
Definition raw_of (name verb location objs emotion specific high place : bool)
  : Dict.t Z :=
  Utils.when place (Utils.add_to "setting" 10)
    (Utils.when high (Utils.add_to "action" 10)
       (Utils.when specific (Utils.add_to "subject" 10)
          (Utils.when emotion (Dict.set "mood" 5)
             (Utils.when objs (Dict.set "objects" 10)
                (Utils.when location (Dict.set "setting" 15)
                   (Utils.when verb (Dict.set "action" 30)
                      (Utils.when name (Dict.set "subject" 40)
                         Utils.initial_weights))))))).

(** What the claim calls the normalization: each raw score times 100
    over the raw total, truncated, in exact integer arithmetic. *)
Definition truncated_share (total x : Z) : Z := x * 100 / total.

Definition normalized_exactly (raw : Dict.t Z) : Dict.t Z :=
  let total := zsum (Dict.values raw) in
  if 0 <? total
  then map (fun kv => (fst kv, truncated_share total (snd kv))) raw
  else raw.

Definition positive (x : Z) : bool := 0 <? x.

(** What is proved of the weights of given raw scores, as one decidable
    check *)
Definition weights_check (raw : Dict.t Z) : bool :=
  match Utils.normalize raw with
  | Ok w =>
      let s := zsum (Dict.values w) in
      weights_eqb w (normalized_exactly raw)
      && (if list_eq_dec string_dec (Dict.keys w) component_names
          then true else false)
      && forallb (fun v => 0 <=? v) (Dict.values w)
      && (if existsb positive (Dict.values raw)
          then (96 <=? s) && (s <=? 100)
          else forallb (Z.eqb 0) (Dict.values w))
  | Raise _ => false
  end.

(** The parse of "a cat walking in the park" *)
Definition walking_cat : ComponentSet :=
  Parser.parse_prompt_components "a cat walking in the park"
                                 OlogLoader.get_transformation_maps.

(** ** The assembler *)

(** The weights of "a red cat walking in the park" *)
Definition red_cat_weights : Dict.t Z :=
  [("subject", 47); ("action", 35); ("setting", 17);
   ("objects", 0); ("colors", 0); ("mood", 0)].

(** What [parse_prompt] returns for "a red cat walking in the park" *)
Definition red_cat : ComponentSet :=
  mkComponents
    (mkSubject "animal" (Some "cat") ["red"] None 1)
    (mkAction (Some "walking") "medium" (Some "in") None true)
    (mkSetting "outdoor_natural" (Some "park") [] None)
    []
    ["red"]
    (mkMood None "neutral" "medium")
    (Some red_cat_weights).

(** What [parse_prompt] returns for "hello world": nothing is found *)
Definition hello_world : ComponentSet :=
  mkComponents
    (mkSubject "abstract" None [] None 0)
    (mkAction None "low" None None false)
    (mkSetting "abstract" None [] None)
    []
    []
    (mkMood None "neutral" "medium")
    (Some [("subject", 0); ("action", 0); ("setting", 0);
           ("objects", 0); ("colors", 0); ("mood", 0)]).

(** [sum(len(str(v)) for v in sections.values())] *)
Definition total_chars (sections : Dict.t value) : Z :=
  zsum (map (fun v => Z.of_nat (String.length (value_str v)))
            (Dict.values sections)).

(** The modification history of a skeleton, empty before the first edit *)
Definition history (sk : Skeleton) : list string :=
  match user_modifications (metadata sk) with
  | Some l => l
  | None => []
  end.

(** Weights on and just above the thresholds 60, 40 and 20 *)
Definition boundary_weights : Dict.t Z :=
  [("subject", 60); ("action", 61); ("setting", 40);
   ("objects", 41); ("colors", 20); ("mood", 21)].

(** ** The transformer *)

Definition mascot_theater : Rules :=
  OlogLoader.build_category_structure "mascot_theater".

Definition high_energy_verbs : list string :=
  Dict.get_or "high_energy" [] Parser.actions.

(** ** The extractor *)

(** [l1] holds elements of [l2], in the order of [l2]. *)
Inductive subseq {A : Type} : list A -> list A -> Prop :=
| subseq_nil : subseq [] []
| subseq_skip : forall x l1 l2, subseq l1 l2 -> subseq l1 (x :: l2)
| subseq_take : forall x l1 l2, subseq l1 l2 -> subseq (x :: l1) (x :: l2).

(** The ComponentSet of a prompt in which no pattern matches *)
Definition default_components : ComponentSet :=
  mkComponents Parser.default_subject Parser.default_action
               Parser.default_setting [] [] Parser.default_mood None.

(** ** Further statements: the variant generator and the edits *)

(** The names [generate_variants] gives, in preset order *)
Definition variant_names : list string :=
  ["Variant 1 (Subtle)"; "Variant 2 (Balanced)"; "Variant 3 (Intense)";
   "Variant 4 (Vintage)"; "Variant 5 (Dramatic)"].

(** The names of the variants made from the presets [ps], the first of
    them being number [i + 1] *)
Fixpoint labels (i : Z) (ps : list Params) : list string :=
  match ps with
  | [] => []
  | p :: rest =>
      ("Variant " ++ PyStr.of_int (i + 1) ++ " (" ++ fmt (param_name p)
       ++ ")") :: labels (i + 1) rest
  end.

(** The loop over [semantic_weights.items()] of [build_prompt_skeleton] *)
Definition emphasis_loop (weights : Dict.t Z) : Dict.t Q :=
  fold_left (fun e cw => Dict.set (fst cw) (Server.emphasis_of (snd cw)) e)
            weights [].

(** The skeletons a caller can reach from [sk0] by calls of
    [refine_component], failed ones included *)
Inductive edited (sk0 : Skeleton) : Skeleton -> Prop :=
| edited_none : edited sk0 sk0
| edited_step : forall sk name new_value,
    edited sk0 sk ->
    edited sk0 (fst (Server.refine_component sk name new_value)).

(** ** Further statements: the transformer *)

(** The rules with the key [always_add] of the color rules taken out *)
Definition without_accent (rules : Rules) : Rules :=
  mkRules (rules_name rules) (subject_rules rules) (action_rules rules)
          (setting_rules rules)
          (mkColorRules (cr_mappings (color_rules rules)) None
                        (cr_saturation (color_rules rules))
                        (cr_gradients (color_rules rules))
                        (cr_max_colors (color_rules rules))
                        (cr_default_palette (color_rules rules)))
          (mandatory_markers rules) (negative_prompts rules).

(** The error of [None.upper()] *)
Definition no_upper : exn :=
  AttributeError "'NoneType' object has no attribute 'upper'".

Definition is_none (o : option string) : bool :=
  match o with
  | None => true
  | Some _ => false
  end.

(** The three ways [apply_category_transformation] raises: a rule for the
    subject's type and no name to join; a verb, and neither its tier nor
    'low_energy' in the action table; an on-box text and neither a
    profession nor a name to put in upper case. *)
Definition subject_fails (c : ComponentSet) (rules : Rules) : bool :=
  Dict.mem (subject_type (subject c)) (subject_rules rules)
  && is_none (subject_name (subject c)).

Definition action_fails (c : ComponentSet) (rules : Rules) : bool :=
  truthy (action_verb (action c))
  && negb (Dict.mem (action_energy_level (action c)) (action_rules rules))
  && negb (Dict.mem "low_energy" (action_rules rules)).

Definition typography_fails (c : ComponentSet) (rules : Rules) : bool :=
  existsb (String.eqb (Transformer.opt_default (rules_name rules) "unknown"))
          Transformer.typography_categories
  && negb (truthy (subject_profession (subject c)))
  && is_none (subject_name (subject c)).

Definition join_type_error : exn :=
  TypeError "sequence item 1: expected str instance, NoneType found".

(** ** Further statements: the ordering of the sections *)

(** Whether [components] has a non-empty value under [k] *)
Definition kept (components : Dict.t value) (k : string) : bool :=
  match Dict.get k components with
  | Some v => value_truthy v
  | None => false
  end.

(** ** Further statements: the extractor *)

Definition positive_emotions : list string :=
  Dict.get_or "positive" [] Parser.emotions.

(** The intensity [extract_mood] reads off a lower-cased text *)
Definition intensity_of (text : string) : string :=
  if (PyStr.contains "very" text || PyStr.contains "extremely" text)%bool
  then "high"
  else if (PyStr.contains "slightly" text || PyStr.contains "a bit" text)%bool
  then "low"
  else "medium".

(** ** Further statements: what a regular expression matches *)

(** [t] pushed onto the text before a position, character by character *)
Fixpoint push (t bef : string) : string :=
  match t with
  | EmptyString => bef
  | String c r => push r (String c bef)
  end.

Fixpoint all_chars (p : ascii -> bool) (t : string) : bool :=
  match t with
  | EmptyString => true
  | String c r => p c && all_chars p r
  end.

(** The matcher passes the text [t] between the states [s] and [s']. *)
Definition passes (t : string) (s s' : Re.state) : Prop :=
  Re.after s = t ++ Re.after s'
  /\ Re.before s' = push t (Re.before s)
  /\ Re.groups s' = Re.groups s.

(** What a pattern matches between two states, read off the pattern *)
Fixpoint denotes (r : Re.t) (s s' : Re.state) : Prop :=
  match r with
  | Re.Lit l => exists t, passes t s s' /\ PyStr.lower t = PyStr.lower l
  | Re.Word1 =>
      exists t, passes t s s' /\ t <> "" /\ all_chars Re.is_word t = true
  | Re.Space1 =>
      exists t, passes t s s' /\ t <> "" /\ all_chars Re.is_space t = true
  | Re.Space0 => exists t, passes t s s' /\ all_chars Re.is_space t = true
  | Re.Bound => s' = s /\ Re.at_boundary s = true
  | Re.Fail => False
  | Re.Alt a b => denotes a s s' \/ denotes b s s'
  | Re.Opt a => denotes a s s' \/ s' = s
  | Re.Grp n a =>
      exists s1,
        denotes a s s1
        /\ s' = Re.mkState (Re.before s1) (Re.after s1)
                  ((n, Re.consumed (Re.after s) (Re.after s1))
                   :: Re.groups s1)
  | Re.Cat a b => exists s1, denotes a s s1 /\ denotes b s1 s'
  end.

(** The words of the subject patterns, by subject type *)
Definition subject_vocabulary : Dict.t (list string) :=
  [("human",
    ["person"; "people"; "man"; "woman"; "child"; "kid"; "adult";
     "teenager"; "boy"; "girl"; "chef"; "doctor"; "firefighter";
     "teacher"; "artist"; "musician"; "pilot"; "detective";
     "scientist"; "astronaut"; "athlete"; "dancer"; "singer";
     "wizard"; "warrior"; "knight"; "pirate"; "ninja"; "superhero"]);
   ("animal",
    ["cat"; "dog"; "bird"; "fish"; "horse"; "lion"; "tiger"; "bear";
     "elephant"; "dragon"; "phoenix"; "unicorn"; "griffin"; "kitten";
     "puppy"]);
   ("object",
    ["car"; "boat"; "plane"; "bicycle"; "train"; "rocket"; "sword";
     "hammer"; "book"; "computer"; "phone"; "camera"; "chair";
     "table"]);
   ("food",
    ["pizza"; "burger"; "sandwich"; "taco"; "pasta"; "apple";
     "banana"; "strawberry"; "cake"; "cookie"; "donut"])].

(** The words of the setting patterns, by setting type *)
Definition setting_vocabulary : Dict.t (list string) :=
  [("indoor_specific",
    ["kitchen"; "bedroom"; "office"; "classroom"; "library"; "lab";
     "studio"; "garage"; "bathroom"; "hallway"]);
   ("indoor_generic",
    ["inside"; "indoors"; "room"; "building"; "house"]);
   ("outdoor_natural",
    ["forest"; "mountain"; "beach"; "desert"; "jungle"; "field";
     "river"; "lake"; "ocean"; "park"; "garden"]);
   ("outdoor_urban",
    ["street"; "city"; "downtown"; "alley"; "plaza"; "rooftop";
     "sidewalk"]);
   ("fantasy",
    ["castle"; "dungeon"; "spaceship"; "alien planet";
     "magical realm"; "dimension"])].

Definition time_words : list string :=
  ["dawn"; "sunrise"; "morning"; "noon"; "afternoon"; "sunset";
   "dusk"; "evening"; "night"; "midnight"].

(** The raw scores of a parsed prompt, read off its fields *)
Definition subject_score (s : Subject) : Z :=
  match subject_name s with
  | None => 0
  | Some _ => match subject_profession s with
              | None => 40
              | Some _ => 50
              end
  end.

Definition action_score (a : Action) : Z :=
  match action_verb a with
  | None => 0
  | Some _ => if String.eqb (action_energy_level a) "high" then 40 else 30
  end.

Definition setting_score (s : Setting) : Z :=
  match setting_location s with
  | None => 0
  | Some _ =>
      if String.eqb (setting_type s) "indoor_specific" then 25 else 15
  end.

Definition objects_score (l : list string) : Z :=
  match l with
  | [] => 0
  | _ => 10
  end.

Definition mood_score (m : Mood) : Z :=
  match mood_emotion m with
  | None => 0
  | Some _ => 5
  end.

(* ================================================================== *)
(** * server.py: the remaining tools over the catalog *)

(** The keys of a category record that [suggest_category] reads *)
Record Profile : Type := mkProfile {
  ideal_subjects : list string;
  compatible_moods : list string;
  trigger_keywords : list string
}.

Record Suggestion : Type := mkSuggestion {
  primary_suggestion : string;
  alternatives : list string;
  suggestion_scores : Dict.t Z;
  reasoning : string
}.

(** [ranked[0]] on an empty list *)
Inductive index_error : Type :=
| IndexError (msg : string).

Module Tools.

(** ** [str(parsed_components)] *)

Definition repr_option (o : option string) : string :=
  match o with
  | Some s => PyStr.repr s
  | None => "None"
  end.

Definition repr_bool (b : bool) : string := if b then "True" else "False".

(** [str(d)] of a dict whose keys and values are already rendered *)
Definition repr_dict (items : list (string * string)) : string :=
  "{" ++ PyStr.join ", "
           (map (fun kv => PyStr.repr (fst kv) ++ ": " ++ snd kv) items)
      ++ "}".

Definition repr_subject (s : Subject) : string :=
  repr_dict [("type", PyStr.repr (subject_type s));
             ("name", repr_option (subject_name s));
             ("attributes", PyStr.repr_list (subject_attributes s));
             ("profession", repr_option (subject_profession s));
             ("count", PyStr.of_int (subject_count s))].

Definition repr_action (a : Action) : string :=
  repr_dict [("verb", repr_option (action_verb a));
             ("energy_level", PyStr.repr (action_energy_level a));
             ("object", repr_option (action_object a));
             ("modifier", repr_option (action_modifier a));
             ("progressive", repr_bool (action_progressive a))].

Definition repr_setting (s : Setting) : string :=
  repr_dict [("type", PyStr.repr (setting_type s));
             ("location", repr_option (setting_location s));
             ("attributes", PyStr.repr_list (setting_attributes s));
             ("time", repr_option (setting_time s))].

Definition repr_mood (m : Mood) : string :=
  repr_dict [("emotion", repr_option (mood_emotion m));
             ("valence", PyStr.repr (mood_valence m));
             ("intensity", PyStr.repr (mood_intensity m))].

Definition repr_weights (w : Dict.t Z) : string :=
  repr_dict (map (fun kv => (fst kv, PyStr.of_int (snd kv))) w).

Definition repr_components (c : ComponentSet) : string :=
  repr_dict
    ([("subject", repr_subject (subject c));
      ("action", repr_action (action c));
      ("setting", repr_setting (setting c));
      ("objects", PyStr.repr_list (objects c));
      ("colors", PyStr.repr_list (colors c));
      ("mood", repr_mood (mood c))]
     ++ match semantic_weights c with
        | Some w => [("semantic_weights", repr_weights w)]
        | None => []
        end).

(** ** [suggest_category] *)

Definition mem_str (s : string) (l : list string) : bool :=
  existsb (String.eqb s) l.

(** [mood in compatible_moods], the mood being a string or [None] *)
Definition mood_matches (mood : option string) (l : list string) : bool :=
  match mood with
  | Some m => mem_str m l
  | None => false
  end.

(** The energy affinity, the [if] and its [elif] *)
Definition energy_reason (category energy : string) : option string :=
  if (mem_str category ["kid_chaos"; "mascot_theater"]
      && mem_str energy ["high"; "extreme"])%bool
  then Some "High energy matches dynamic category"
  else if (mem_str category ["health_halo"; "premium_disruptor"]
           && String.eqb energy "low")%bool
  then Some "Low energy suits minimalist aesthetic"
  else None.

(** The number of trigger keywords found in the text *)
Definition keyword_hits (keywords : list string) (text : string) : Z :=
  Z.of_nat (List.length (filter (fun k => PyStr.contains k text) keywords)).

(** One turn of the loop over [CATEGORIES.items()]: the score and the
    reasons of one category *)
Definition score_category (category : string) (rules : Profile)
           (c : ComponentSet) : Z * list string :=
  let subject_type := subject_type (subject c) in
  let subject_ok := mem_str subject_type (ideal_subjects rules) in
  let mood_ok := mood_matches (mood_emotion (mood c))
                              (compatible_moods rules) in
  let energy := energy_reason category (action_energy_level (action c)) in
  let prompt_text := PyStr.lower (repr_components c) in
  ((if subject_ok then 3 else 0)
   + (if mood_ok then 2 else 0)
   + (match energy with Some _ => 2 | None => 0 end)
   + keyword_hits (trigger_keywords rules) prompt_text,
   ((if subject_ok
     then [("Subject type '" ++ subject_type
            ++ "' is ideal for this category")%string]
     else [])
    ++ (if mood_ok
        then [("Mood '" ++ fmt (mood_emotion (mood c))
               ++ "' aligns with category aesthetic")%string]
        else [])
    ++ (match energy with Some r => [r] | None => [] end))%list).

(** [sorted(items, key = score, reverse = True)]: a stable sort, entries
    of equal score keeping their order *)
Fixpoint insert_ranked {A : Type} (score : A -> Z) (x : A) (l : list A)
  : list A :=
  match l with
  | [] => [x]
  | y :: r =>
      if score x <? score y then y :: insert_ranked score x r
      else x :: y :: r
  end.

Definition sort_ranked {A : Type} (score : A -> Z) (l : list A) : list A :=
  fold_right (insert_ranked score) [] l.

Definition suggest_category (categories : Dict.t Profile) (c : ComponentSet)
  : Suggestion + index_error :=
  let scores :=
    fold_left (fun scores cr =>
                 Dict.set (fst cr) (score_category (fst cr) (snd cr) c)
                          scores)
              categories [] in
  let ranked := sort_ranked (fun entry => fst (snd entry)) scores in
  match ranked with
  | [] => inr (IndexError "list index out of range")
  | (primary, (_, reasons)) :: rest =>
      inl (mkSuggestion
             primary
             (map fst (firstn 2 rest))
             (map (fun entry => (fst entry, fst (snd entry))) scores)
             (match reasons with
              | [] => "General compatibility"
              | _ => PyStr.join "; " reasons
              end))
  end.

End Tools.

(** The moods and keywords of the seven categories, as [OlogLoader] has
    them; the ideal subjects are the default of [_build_category_structure] *)
Definition catalog_profiles : Dict.t Profile :=
  [("mascot_theater",
    mkProfile ["human"; "animal"; "object"]
      ["happy"; "excited"; "energetic"; "playful"; "joyful"]
      ["fun"; "playful"; "kids"; "mascot"; "cartoon"; "energetic"]);
   ("health_halo",
    mkProfile ["human"; "animal"; "object"]
      ["calm"; "peaceful"; "focused"; "authentic"; "mindful"]
      ["natural"; "organic"; "healthy"; "authentic"; "minimal"; "wellness"]);
   ("nostalgia_revival",
    mkProfile ["human"; "animal"; "object"]
      ["nostalgic"; "comfortable"; "warm"; "reflective"]
      ["vintage"; "retro"; "nostalgic"; "throwback"; "classic"]);
   ("premium_disruptor",
    mkProfile ["human"; "animal"; "object"]
      ["sophisticated"; "refined"; "elegant"; "minimal"]
      ["luxury"; "premium"; "elegant"; "minimal"; "sophisticated"]);
   ("kid_chaos",
    mkProfile ["human"; "animal"; "object"]
      ["chaotic"; "wild"; "energetic"; "exuberant"; "extreme"]
      ["crazy"; "wild"; "extreme"; "chaos"; "explosion"; "maximum"]);
   ("transparent_honest",
    mkProfile ["human"; "animal"; "object"]
      ["neutral"; "focused"; "educational"; "clinical"]
      ["transparent"; "honest"; "educational"; "technical"; "scientific"]);
   ("adventure_fantasy",
    mkProfile ["human"; "animal"; "object"]
      ["dramatic"; "mysterious"; "powerful"; "adventurous"; "magical"]
      ["epic"; "fantasy"; "magical"; "legendary"; "heroic"; "mystical"])].

(** ** Further statements: the suggestion *)

(** The score [suggest_category] gives the category [k] of the catalog *)
Definition category_score (categories : Dict.t Profile) (c : ComponentSet)
           (k : string) : Z :=
  match Dict.get k categories with
  | Some rules => fst (Tools.score_category k rules c)
  | None => 0
  end.

(** The trigger keywords of the category [k] found in the rendered
    components *)
Definition category_hits (categories : Dict.t Profile) (c : ComponentSet)
           (k : string) : Z :=
  match Dict.get k categories with
  | Some rules =>
      Tools.keyword_hits (trigger_keywords rules)
                         (PyStr.lower (Tools.repr_components c))
  | None => 0
  end.

Definition calm_person : ComponentSet :=
  Parser.parse_prompt_components "a calm person sitting in the forest"
                                 OlogLoader.get_transformation_maps.

(** What [suggest_category] returns for [calm_person] *)
Definition calm_suggestion : Suggestion :=
  mkSuggestion
    "health_halo"
    ["premium_disruptor"; "mascot_theater"]
    [("mascot_theater", 3); ("health_halo", 8); ("nostalgia_revival", 3);
     ("premium_disruptor", 5); ("kid_chaos", 3); ("transparent_honest", 3);
     ("adventure_fantasy", 3)]
    "Subject type 'human' is ideal for this category; Mood 'calm' aligns with category aesthetic; Low energy suits minimalist aesthetic".

(** ** Further statements: the effects *)

(** [params.get('composition_density', 0.7)] *)
Definition density_of (params : Params) : Q :=
  match param_composition_density params with
  | Some d => d
  | None => 0.7%Q
  end.

Definition subtle : Params :=
  mkParams (Some "Subtle") (Some 0.5%Q) (Some "pastel") (Some 0.4%Q) None.

Definition intense : Params :=
  mkParams (Some "Intense") (Some 1.0%Q) (Some "neon") (Some 1.0%Q) None.

(* ================================================================== *)
(** * tools/parser.py, with the operations that can raise

    [Parser] gives each extractor as a function of the prompt.  Three
    operations of [extract_subject] and [extract_action] can raise in
    Python: the compilation of a pattern that has text spliced in
    ([re.error]), [lower] on a group that took no part in the match
    ([AttributeError]) and [int] ([ValueError]).  Here each of them
    returns a [result], and so do the two extractors and the parser. *)

Module Fallible.

(** [g.lower()], where [g] is what [m.group(n)] returned *)
Definition lower_of (g : option string) : result string :=
  match g with
  | Some s => Ok (PyStr.lower s)
  | None => Raise (AttributeError
                     "'NoneType' object has no attribute 'lower'")
  end.

(** [int(s)] *)
Definition int_of (s : string) : result Z :=
  if PyStr.isdigit s then Ok (PyStr.to_int s)
  else Raise (ValueError ("invalid literal for int() with base 10: "
                          ++ PyStr.repr s)).

(** Text spliced into a pattern is read as pattern syntax.  Word
    characters stand for themselves; any other character may be an
    operator of the pattern language or make the pattern invalid, and is
    refused. *)
Definition spliced (text : string) : result Re.t :=
  if all_chars Re.is_word text then Ok (Re.Lit text)
  else Raise (ReError ("not plain text: " ++ text)).

(** [rf'\b(\w+)\s+{subject_name}\b'] *)
Definition attr_pattern (subject_name : string) : result Re.t :=
  name <- spliced subject_name ;;
  Ok (Re.Cat Re.Bound
        (Re.Cat (Re.Grp 1 Re.Word1)
           (Re.Cat Re.Space1 (Re.Cat name Re.Bound)))).

(** [r'\b(two|three|four|five|six|2|3|4|5|6)\s+' + subject_name] *)
Definition count_pattern (subject_name : string) : result Re.t :=
  name <- spliced subject_name ;;
  Ok (Re.Cat Re.Bound
        (Re.Cat (Re.Grp 1 (Re.alts ["two"; "three"; "four"; "five"; "six";
                                    "2"; "3"; "4"; "5"; "6"]))
           (Re.Cat Re.Space1 name))).

(** [rf'{verb}\s+(a|an|the)?\s*(\w+)'] *)
Definition obj_pattern (verb : string) : result Re.t :=
  v <- spliced verb ;;
  Ok (Re.Cat v
        (Re.Cat Re.Space1
           (Re.Cat (Re.Opt (Re.Grp 1 (Re.alts ["a"; "an"; "the"])))
              (Re.Cat Re.Space0 (Re.Grp 2 Re.Word1))))).

Definition extract_subject (prompt : string) (transformation_maps : Maps)
  : result Subject :=
  match Parser.first_match Parser.subjects prompt with
  | Some (kind, m) =>
      let name := Re.group0 m in
      attr_pattern <- attr_pattern name ;;
      let attributes :=
        match Re.search attr_pattern prompt with
        | Some am => match Re.group 1 am with
                     | Some a => [a]
                     | None => []
                     end
        | None => []
        end in
      let profession :=
        if (String.eqb kind "human"
            && Dict.mem (PyStr.lower name)
                        (profession_to_icon_props transformation_maps))%bool
        then Some (PyStr.lower name)
        else None in
      count_pattern <- count_pattern name ;;
      count <- match Re.search count_pattern prompt with
               | Some cm =>
                   count_word <- lower_of (Re.group 1 cm) ;;
                   default <- (if PyStr.isdigit count_word
                               then int_of count_word else Ok 1) ;;
                   Ok (Dict.get_or count_word default Parser.count_map)
               | None => Ok 1
               end ;;
      Ok (mkSubject kind (Some name) attributes profession count)
  | None => Ok Parser.default_subject
  end.

Definition extract_action (prompt : string) : result Action :=
  let text := PyStr.lower prompt in
  match Parser.first_word Parser.actions text with
  | Some (energy_level, verb) =>
      obj_pattern <- obj_pattern verb ;;
      let action_object :=
        match Re.search obj_pattern prompt with
        | Some m => Re.group 2 m
        | None => None
        end in
      let modifier :=
        find (fun md => PyStr.contains md text) Parser.intensity_modifiers in
      Ok (mkAction (Some verb)
                   (PyStr.replace "_energy" "" energy_level)
                   action_object
                   modifier
                   (PyStr.contains "ing" text))
  | None => Ok Parser.default_action
  end.

(** The dict display evaluates its six entries in order; the other four
    extractors have no operation that can raise. *)
Definition parse_prompt_components (prompt : string)
           (transformation_maps : Maps) : result ComponentSet :=
  subject <- extract_subject prompt transformation_maps ;;
  action <- extract_action prompt ;;
  Ok (mkComponents subject action
                   (Parser.extract_setting prompt)
                   (Parser.extract_objects prompt)
                   (Parser.extract_colors prompt)
                   (Parser.extract_mood prompt)
                   None).

End Fallible.

(** ** Further statements: when a pattern matches *)

(** The pattern [r] matches somewhere in [text]: between some position
    and a later state, by what the pattern denotes. *)
Definition matches (r : Re.t) (text : string) : Prop :=
  exists pre post s',
    text = pre ++ post
    /\ denotes r (Re.mkState (push pre "") post []) s'.

(** [w in text]: the text has [w] as a piece *)
Definition occurs (w text : string) : Prop :=
  exists pre post, text = pre ++ w ++ post.

(* ================================================================== *)
(** * server.py as a process: objects, references, the module's tables

    [Server] gives each tool as a function of the three tables.  In the
    running module the tables are objects: [CATEGORIES],
    [TRANSFORMATION_MAPS] and [TEMPLATES] are names bound at import to
    dicts, a tool reads the dicts through the names, and the dict a tool
    returns is a new object, which may hold references to objects of the
    tables.  This part models that: a heap of dicts and lists, the three
    names, and the tools as programs that read the heap, add objects to it
    and write to it.

    The arguments a caller passes by value here are the parsed components,
    the style parameters and the weights: the tools read them and never
    write to them.  A dict or list a function builds and fills before
    anyone else can see it is put on the heap when it is complete. *)

Module Process.

Definition loc : Type := nat.

(** A value: a str, an int, a float, a bool, [None], or a reference to a
    dict or list of the heap *)
Inductive pyval : Type :=
| StrV (s : string)
| IntV (n : Z)
| FloatV (x : Q)
| BoolV (b : bool)
| NoneV
| RefV (l : loc).

Inductive pyobj : Type :=
| DictO (d : Dict.t pyval)
| ListO (items : list pyval).

(** The heap, and what the three module-level names are bound to *)
Record t : Type := mk {
  heap : list pyobj;
  categories_name : pyval;
  maps_name : pyval;
  templates_name : pyval
}.

(** ** Programs over the process *)

Definition M (A : Type) : Type := t -> t * result A.

Definition ret {A : Type} (a : A) : M A := fun p => (p, Ok a).

Definition raise {A : Type} (e : exn) : M A := fun p => (p, Raise e).

Definition mbind {A B : Type} (m : M A) (f : A -> M B) : M B :=
  fun p =>
    match m p with
    | (p', Ok a) => f a p'
    | (p', Raise e) => (p', Raise e)
    end.

Notation "x <~ m ;; k" := (mbind m (fun x => k))
  (at level 61, m at next level, right associativity).

Definition lift {A : Type} (r : result A) : M A := fun p => (p, r).

(** A new object, at the next free location *)
Definition alloc (o : pyobj) : M pyval :=
  fun p =>
    (mk (heap p ++ [o]) (categories_name p) (maps_name p) (templates_name p),
     Ok (RefV (List.length (heap p)))).

Definition lookup (h : list pyobj) (v : pyval) : option pyobj :=
  match v with
  | RefV l => nth_error h l
  | _ => None
  end.

Definition dict_at (h : list pyobj) (v : pyval) : option (Dict.t pyval) :=
  match lookup h v with
  | Some (DictO d) => Some d
  | _ => None
  end.

Definition list_at (h : list pyobj) (v : pyval) : option (list pyval) :=
  match lookup h v with
  | Some (ListO l) => Some l
  | _ => None
  end.

(** What a function of the heap reads; a value of another type than the
    code expects is a [TypeError]. *)
Definition reading {A : Type} (f : list pyobj -> option A) : M A :=
  fun p =>
    match f (heap p) with
    | Some a => (p, Ok a)
    | None => (p, Raise (TypeError "not the type the code expects"))
    end.

(** [d[k] = x] and [l.append(x)], on the object itself *)
Fixpoint update (l : loc) (f : pyobj -> option pyobj) (h : list pyobj)
  : option (list pyobj) :=
  match h, l with
  | o :: r, O => match f o with
                 | Some o' => Some (o' :: r)
                 | None => None
                 end
  | o :: r, S n => match update n f r with
                   | Some r' => Some (o :: r')
                   | None => None
                   end
  | [], _ => None
  end.

Definition write (v : pyval) (f : pyobj -> option pyobj) : M unit :=
  fun p =>
    match v with
    | RefV l =>
        match update l f (heap p) with
        | Some h => (mk h (categories_name p) (maps_name p)
                        (templates_name p), Ok tt)
        | None => (p, Raise (TypeError "not the type the code expects"))
        end
    | _ => (p, Raise (TypeError "not the type the code expects"))
    end.

Definition setitem (d : pyval) (k : string) (x : pyval) : M unit :=
  write d (fun o => match o with
                    | DictO e => Some (DictO (Dict.set k x e))
                    | ListO _ => None
                    end).

Definition append (l : pyval) (x : pyval) : M unit :=
  write l (fun o => match o with
                    | ListO items => Some (ListO (items ++ [x]))
                    | DictO _ => None
                    end).

(** ** Reading typed data off the heap *)

Notation "x <-? m ;; k" :=
  (match m with Some x => k | None => None end)
  (at level 61, m at next level, right associativity).

Fixpoint all_some {A : Type} (l : list (option A)) : option (list A) :=
  match l with
  | [] => Some []
  | o :: r => x <-? o ;; xs <-? all_some r ;; Some (x :: xs)
  end.

Definition as_str (v : pyval) : option string :=
  match v with
  | StrV s => Some s
  | _ => None
  end.

(** A list of str *)
Definition strs_at (h : list pyobj) (v : pyval) : option (list string) :=
  l <-? list_at h v ;; all_some (map as_str l).

(** The entries of a dict, each value read by [f] *)
Definition read_entries {A : Type} (f : pyval -> option A)
           (d : Dict.t pyval) : option (Dict.t A) :=
  all_some (map (fun kv => x <-? f (snd kv) ;; Some (fst kv, x)) d).

(** A dict whose values are read by [f] *)
Definition table_at {A : Type} (f : pyval -> option A) (h : list pyobj)
           (v : pyval) : option (Dict.t A) :=
  d <-? dict_at h v ;; read_entries f d.

(** [d.get(k, [])], a list of str *)
Definition strs_or_nil (h : list pyobj) (d : Dict.t pyval) (k : string)
  : option (list string) :=
  match Dict.get k d with
  | Some v => strs_at h v
  | None => Some []
  end.

(** [d.get(k, {})], a dict whose values are read by [f] *)
Definition table_or_nil {A : Type} (f : pyval -> option A)
           (h : list pyobj) (d : Dict.t pyval) (k : string)
  : option (Dict.t A) :=
  match Dict.get k d with
  | Some v => table_at f h v
  | None => Some []
  end.

(** [d.get(k)], a str when the key is there *)
Definition str_opt (d : Dict.t pyval) (k : string) : option (option string) :=
  match Dict.get k d with
  | Some (StrV s) => Some (Some s)
  | Some _ => None
  | None => Some None
  end.

(** [d.get(k, '')], a str *)
Definition str_or_empty (d : Dict.t pyval) (k : string) : option string :=
  match Dict.get k d with
  | Some (StrV s) => Some s
  | Some _ => None
  | None => Some ""
  end.

Definition bool_opt (d : Dict.t pyval) (k : string) : option (option bool) :=
  match Dict.get k d with
  | Some (BoolV b) => Some (Some b)
  | Some _ => None
  | None => Some None
  end.

Definition int_opt (d : Dict.t pyval) (k : string) : option (option Z) :=
  match Dict.get k d with
  | Some (IntV n) => Some (Some n)
  | Some _ => None
  | None => Some None
  end.

Definition read_subject_rule (h : list pyobj) (v : pyval)
  : option SubjectRule :=
  d <-? dict_at h v ;;
  treatment <-? str_opt d "treatment" ;;
  features <-? strs_or_nil h d "features" ;;
  attributes <-? strs_or_nil h d "attributes" ;;
  Some (mkSubjectRule treatment features attributes).

Definition read_action_rule (h : list pyobj) (v : pyval)
  : option ActionRule :=
  d <-? dict_at h v ;;
  treatment <-? str_or_empty d "treatment" ;;
  features <-? strs_or_nil h d "features" ;;
  effects <-? strs_or_nil h d "effects" ;;
  Some (mkActionRule treatment features effects).

Definition read_setting_rule (h : list pyobj) (v : pyval)
  : option SettingRule :=
  d <-? dict_at h v ;;
  treatment <-? str_or_empty d "treatment" ;;
  elements <-? str_or_empty d "elements" ;;
  background <-? str_or_empty d "background" ;;
  Some (mkSettingRule treatment elements background).

(** [rules.get('color_rules', {})] and the keys read from it *)
Definition read_color_rules (h : list pyobj) (rules : Dict.t pyval)
  : option ColorRules :=
  match Dict.get "color_rules" rules with
  | Some v =>
      d <-? dict_at h v ;;
      mappings <-? table_or_nil as_str h d "mappings" ;;
      always_add <-? str_opt d "always_add" ;;
      saturation <-? str_opt d "saturation" ;;
      gradients <-? bool_opt d "gradients" ;;
      max_colors <-? int_opt d "max_colors" ;;
      default_palette <-? str_opt d "default_palette" ;;
      Some (mkColorRules mappings always_add saturation gradients
                         max_colors default_palette)
  | None => Some (mkColorRules [] None None None None None)
  end.

(** A category of [CATEGORIES], the keys the pipeline reads *)
Definition read_rules (h : list pyobj) (v : pyval) : option Rules :=
  d <-? dict_at h v ;;
  name <-? str_opt d "name" ;;
  subject_rules <-? table_or_nil (read_subject_rule h) h d "subject_rules" ;;
  action_rules <-? table_or_nil (read_action_rule h) h d "action_rules" ;;
  setting_rules <-? table_or_nil (read_setting_rule h) h d "setting_rules" ;;
  color_rules <-? read_color_rules h d ;;
  mandatory_markers <-? strs_or_nil h d "mandatory_markers" ;;
  negative_prompts <-? strs_or_nil h d "negative_prompts" ;;
  Some (mkRules name subject_rules action_rules setting_rules color_rules
                mandatory_markers negative_prompts).

Definition read_maps (h : list pyobj) (v : pyval) : option Maps :=
  d <-? dict_at h v ;;
  professions <-? table_or_nil as_str h d "profession_to_icon_props" ;;
  emotions <-? table_or_nil as_str h d "emotion_to_mascot_face" ;;
  locations <-? table_or_nil as_str h d "location_to_fantasy" ;;
  Some (mkMaps professions emotions locations).

Definition read_template (h : list pyobj) (v : pyval) : option Template :=
  d <-? dict_at h v ;;
  order <-? match Dict.get "emphasis_order" d with
            | Some l => strs_at h l
            | None => None
            end ;;
  structure <-? str_or_empty d "structure" ;;
  Some (mkTemplate order structure).

(** The three tables, as [Server] takes them *)
Definition read_globals (p : t) : option Globals :=
  categories <-? table_at (read_rules (heap p)) (heap p) (categories_name p) ;;
  maps <-? read_maps (heap p) (maps_name p) ;;
  templates <-? table_at (read_template (heap p)) (heap p)
                         (templates_name p) ;;
  Some (mkGlobals categories maps templates).

(** A value of a dict of fragments: a str, [None], or a list of str *)
Definition read_value (h : list pyobj) (v : pyval) : option value :=
  match v with
  | StrV s => Some (VStr s)
  | NoneV => Some VNone
  | RefV _ => l <-? strs_at h v ;; Some (VList l)
  | _ => None
  end.

Definition read_components (h : list pyobj) (v : pyval)
  : option (Dict.t value) :=
  table_at (read_value h) h v.

Definition as_num (v : pyval) : option Q :=
  match v with
  | FloatV x => Some x
  | _ => None
  end.

Definition read_metadata (h : list pyobj) (v : pyval) : option Metadata :=
  d <-? dict_at h v ;;
  category <-? match Dict.get "category" d with
               | Some (StrV s) => Some s
               | _ => None
               end ;;
  tokens <-? match Dict.get "estimated_tokens" d with
             | Some (IntV n) => Some n
             | _ => None
             end ;;
  ready <-? match Dict.get "ready_for_synthesis" d with
            | Some (BoolV b) => Some b
            | _ => None
            end ;;
  modifications <-? match Dict.get "user_modifications" d with
                    | Some l => x <-? strs_at h l ;; Some (Some x)
                    | None => Some None
                    end ;;
  Some (mkMetadata category tokens ready modifications).

(** The content of a skeleton: what its dict and the objects it refers to
    hold *)
Definition read_skeleton (h : list pyobj) (v : pyval) : option Skeleton :=
  d <-? dict_at h v ;;
  sections <-? match Dict.get "sections" d with
               | Some s => read_components h s
               | None => None
               end ;;
  emphasis <-? match Dict.get "emphasis" d with
               | Some e => table_at as_num h e
               | None => None
               end ;;
  template <-? match Dict.get "template" d with
               | Some x => read_template h x
               | None => None
               end ;;
  negative_prompt <-? match Dict.get "negative_prompt" d with
                      | Some (StrV s) => Some s
                      | _ => None
                      end ;;
  metadata <-? match Dict.get "metadata" d with
               | Some m => read_metadata h m
               | None => None
               end ;;
  Some (mkSkeleton sections emphasis template negative_prompt metadata).

(** ** tools/transformer.py and tools/utils.py, on the heap *)

(** [apply_category_transformation]: the fragments are new strs, made from
    what the rules and the tables hold; the value under 'style_markers' is
    the list the rules hold under 'mandatory_markers', the object itself
    (a new empty list when the rules have no such key); the dict is a new
    object. *)
Definition apply_category_transformation (components : ComponentSet)
           (rules : pyval) (transformation_maps : pyval) (params : Params)
  : M pyval :=
  r <~ reading (fun h => read_rules h rules) ;;
  maps <~ reading (fun h => read_maps h transformation_maps) ;;
  d <~ reading (fun h => dict_at h rules) ;;
  let category := Transformer.opt_default (rules_name r) "unknown" in
  subj <~ lift (Transformer.transform_subject (subject components)
                                              r maps params) ;;
  act <~ lift (Transformer.transform_action (action components)
                                            r maps params) ;;
  let sett := Transformer.transform_setting (setting components) r params in
  let cols := Transformer.transform_colors (colors components) r params in
  let effs := Transformer.transform_effects category components params in
  style_markers <~ match Dict.get "mandatory_markers" d with
                   | Some l => ret l
                   | None => alloc (ListO [])
                   end ;;
  typo <~ lift (if existsb (String.eqb category)
                           Transformer.typography_categories
                then Transformer.transform_typography
                       (subject components) category params
                else Ok None) ;;
  alloc (DictO [("subject", StrV subj);
                ("action", StrV act);
                ("setting", StrV sett);
                ("colors", StrV cols);
                ("effects", StrV effs);
                ("style_markers", style_markers);
                ("typography", match typo with
                               | Some s => StrV s
                               | None => NoneV
                               end)]).

(** [bool(v)] and [str(v)] for a value of a dict of fragments *)
Definition truthy_at (h : list pyobj) (v : pyval) : option bool :=
  x <-? read_value h v ;; Some (value_truthy x).

Definition str_at (h : list pyobj) (v : pyval) : option string :=
  x <-? read_value h v ;; Some (value_str x).

(** [order_by_importance]: a new dict, its values those of [components]
    (a list stays the same object).  Each entry of [components] is taken
    with its truth value. *)
Definition order_by_importance (components : pyval)
           (semantic_weights : Dict.t Z) (emphasis_order : list string)
  : M pyval :=
  d <~ reading (fun h => dict_at h components) ;;
  entries <~ reading (fun h =>
                        read_entries
                          (fun v => b <-? truthy_at h v ;; Some (v, b)) d) ;;
  let ordered :=
    fold_left
      (fun ordered key =>
         match Dict.get key entries with
         | Some (v, true) => Dict.set key v ordered
         | _ => ordered
         end)
      emphasis_order [] in
  alloc (DictO
           (fold_left
              (fun ordered kvb =>
                 if (negb (Dict.mem (fst kvb) ordered)
                     && snd (snd kvb))%bool
                 then Dict.set (fst kvb) (fst (snd kvb)) ordered
                 else ordered)
              entries ordered)).

(** [generate_negative_prompt]: reads
    [categories.get(category, {}).get('negative_prompts', [])] *)
Definition generate_negative_prompt (category : string) (categories : pyval)
  : M string :=
  cats <~ reading (fun h => dict_at h categories) ;;
  category_negatives <~
    match Dict.get category cats with
    | Some rules =>
        reading (fun h => d <-? dict_at h rules ;;
                          strs_or_nil h d "negative_prompts")
    | None => ret []
    end ;;
  ret (PyStr.join ", " (Utils.universal ++ category_negatives)).

(** ** server.py: the tools, on the heap *)

Definition apply_transformations (parsed_components : ComponentSet)
           (category : string) (style_params : option Params) : M pyval :=
  fun p =>
    (cats <~ reading (fun h => dict_at h (categories_name p)) ;;
     match Dict.get category cats with
     | None => raise (ValueError ("Unknown category: " ++ category))
     | Some rules =>
         let params := match style_params with
                       | Some x => x
                       | None => no_params
                       end in
         apply_category_transformation parsed_components rules
                                       (maps_name p) params
     end) p.

Definition build_prompt_skeleton (transformed_components : pyval)
           (category : string) (semantic_weights : Dict.t Z) : M pyval :=
  fun p =>
    (templates <~ reading (fun h => dict_at h (templates_name p)) ;;
     template <~ lift (Dict.item category templates) ;;
     emphasis_order <~
       reading (fun h => d <-? dict_at h template ;;
                         l <-? Dict.get "emphasis_order" d ;;
                         strs_at h l) ;;
     ordered_sections <~ order_by_importance transformed_components
                                             semantic_weights
                                             emphasis_order ;;
     emphasis <~
       alloc (DictO
                (map (fun cw => (fst cw, FloatV (snd cw)))
                     (fold_left
                        (fun emphasis cw =>
                           Dict.set (fst cw) (Server.emphasis_of (snd cw))
                                    emphasis)
                        semantic_weights []))) ;;
     negative <~ generate_negative_prompt category (categories_name p) ;;
     strs <~ reading (fun h => table_at (str_at h) h ordered_sections) ;;
     let estimated_tokens :=
       zsum (map (fun s => Z.of_nat (String.length s))
                 (Dict.values strs)) / 4 in
     metadata <~ alloc (DictO [("category", StrV category);
                               ("estimated_tokens", IntV estimated_tokens);
                               ("ready_for_synthesis", BoolV true)]) ;;
     alloc (DictO [("sections", ordered_sections);
                   ("emphasis", emphasis);
                   ("template", template);
                   ("negative_prompt", StrV negative);
                   ("metadata", metadata)])) p.

(** transform, then assemble: the two calls of the body of the loop of
    [generate_variants] *)
Definition transform_then_assemble (parsed_components : ComponentSet)
           (category : string) (style_params : option Params)
           (semantic_weights : Dict.t Z) : M pyval :=
  transformed <~ apply_transformations parsed_components category
                                       style_params ;;
  build_prompt_skeleton transformed category semantic_weights.

(** [refine_component]: the skeleton the caller passes is written to, in
    its sections and in its metadata, and is returned, the same object. *)
Definition refine_component (skeleton : pyval)
           (component_name new_value : string) : M pyval :=
  sk <~ reading (fun h => dict_at h skeleton) ;;
  sections <~ lift (Dict.item "sections" sk) ;;
  secs <~ reading (fun h => dict_at h sections) ;;
  if negb (Dict.mem component_name secs)
  then raise (ValueError
                ("Unknown component: " ++ component_name
                 ++ ". Available: " ++ PyStr.repr_list (Dict.keys secs)))
  else
    _ <~ setitem sections component_name (StrV new_value) ;;
    metadata <~ lift (Dict.item "metadata" sk) ;;
    md <~ reading (fun h => dict_at h metadata) ;;
    _ <~ (if negb (Dict.mem "user_modifications" md)
          then l <~ alloc (ListO []) ;;
               setitem metadata "user_modifications" l
          else ret tt) ;;
    md <~ reading (fun h => dict_at h metadata) ;;
    modifications <~ lift (Dict.item "user_modifications" md) ;;
    _ <~ append modifications (StrV component_name) ;;
    strs <~ reading (fun h => table_at (str_at h) h sections) ;;
    _ <~ setitem metadata "estimated_tokens"
           (IntV (zsum (map (fun s => Z.of_nat (String.length s))
                            (Dict.values strs)) / 4)) ;;
    ret skeleton.

(** ** The tables put on the heap, as the module does at import *)

Fixpoint for_each {A B : Type} (f : A -> M B) (l : list A) : M (list B) :=
  match l with
  | [] => ret []
  | a :: r => b <~ f a ;; bs <~ for_each f r ;; ret (b :: bs)
  end.

Definition store_strs (l : list string) : M pyval :=
  alloc (ListO (map StrV l)).

Definition store_str_dict (d : Dict.t string) : M pyval :=
  alloc (DictO (map (fun kv => (fst kv, StrV (snd kv))) d)).

Definition store_table {A : Type} (f : A -> M pyval) (d : Dict.t A)
  : M pyval :=
  entries <~ for_each (fun kv => v <~ f (snd kv) ;; ret (fst kv, v)) d ;;
  alloc (DictO entries).

(** An entry for a key that is there *)
Definition entry {A : Type} (k : string) (f : A -> pyval) (o : option A)
  : Dict.t pyval :=
  match o with
  | Some a => [(k, f a)]
  | None => []
  end.

Definition store_subject_rule (r : SubjectRule) : M pyval :=
  features <~ store_strs (sr_features r) ;;
  attributes <~ store_strs (sr_attributes r) ;;
  alloc (DictO (entry "treatment" StrV (sr_treatment r)
                ++ [("features", features);
                    ("attributes", attributes)])%list).

Definition store_action_rule (r : ActionRule) : M pyval :=
  features <~ store_strs (ar_features r) ;;
  effects <~ store_strs (ar_effects r) ;;
  alloc (DictO [("treatment", StrV (ar_treatment r));
                ("features", features);
                ("effects", effects)]).

Definition store_setting_rule (r : SettingRule) : M pyval :=
  alloc (DictO [("treatment", StrV (st_treatment r));
                ("elements", StrV (st_elements r));
                ("background", StrV (st_background r))]).

Definition store_color_rules (r : ColorRules) : M pyval :=
  mappings <~ store_str_dict (cr_mappings r) ;;
  alloc (DictO ([("mappings", mappings)]
                ++ entry "always_add" StrV (cr_always_add r)
                ++ entry "saturation" StrV (cr_saturation r)
                ++ entry "gradients" BoolV (cr_gradients r)
                ++ entry "max_colors" IntV (cr_max_colors r)
                ++ entry "default_palette" StrV (cr_default_palette r))%list).

Definition store_rules (r : Rules) : M pyval :=
  subject_rules <~ store_table store_subject_rule (subject_rules r) ;;
  action_rules <~ store_table store_action_rule (action_rules r) ;;
  setting_rules <~ store_table store_setting_rule (setting_rules r) ;;
  color_rules <~ store_color_rules (color_rules r) ;;
  mandatory_markers <~ store_strs (mandatory_markers r) ;;
  negative_prompts <~ store_strs (negative_prompts r) ;;
  alloc (DictO (entry "name" StrV (rules_name r)
                ++ [("subject_rules", subject_rules);
                    ("action_rules", action_rules);
                    ("setting_rules", setting_rules);
                    ("color_rules", color_rules);
                    ("mandatory_markers", mandatory_markers);
                    ("negative_prompts", negative_prompts)])%list).

Definition store_maps (m : Maps) : M pyval :=
  professions <~ store_str_dict (profession_to_icon_props m) ;;
  emotions <~ store_str_dict (emotion_to_mascot_face m) ;;
  locations <~ store_str_dict (location_to_fantasy m) ;;
  alloc (DictO [("profession_to_icon_props", professions);
                ("emotion_to_mascot_face", emotions);
                ("location_to_fantasy", locations)]).

Definition store_template (x : Template) : M pyval :=
  order <~ store_strs (emphasis_order x) ;;
  alloc (DictO [("emphasis_order", order);
                ("structure", StrV (structure x))]).

(** The process after import: the tables of [g] on the heap and the three
    names bound to them *)
Definition boot (g : Globals) : t :=
  match (categories <~ store_table store_rules (CATEGORIES g) ;;
         maps <~ store_maps (TRANSFORMATION_MAPS g) ;;
         templates <~ store_table store_template (TEMPLATES g) ;;
         ret (categories, maps, templates)) (mk [] NoneV NoneV NoneV) with
  | (p, Ok (categories, maps, templates)) =>
      mk (heap p) categories maps templates
  | (p, Raise _) => p
  end.

(** ** What a call leaves behind *)

(** Every object of [h] is in [h'], at its location. *)
Definition sub_heap (h h' : list pyobj) : Prop :=
  forall l o, nth_error h l = Some o -> nth_error h' l = Some o.

(** From [p] to [p'] objects were added to the heap and nothing else
    happened: no object was written to, no name was bound again. *)
Definition grows (p p' : t) : Prop :=
  (exists new, heap p' = (heap p ++ new)%list)
  /\ categories_name p' = categories_name p
  /\ maps_name p' = maps_name p
  /\ templates_name p' = templates_name p.

(** A value of the heap against the value it reads as, and an entry taken
    with its truth value against the value it reads as *)
Definition reads_as (h : list pyobj) (v : pyval) (x : value) : Prop :=
  read_value h v = Some x.

Definition entry_of (h : list pyobj) (vb : pyval * bool) (x : value)
  : Prop :=
  read_value h (fst vb) = Some x /\ snd vb = value_truthy x.

(** Two dicts with the same keys in the same order, the values related *)
Definition entrywise {A B : Type} (R : A -> B -> Prop)
  : Dict.t A -> Dict.t B -> Prop :=
  Forall2 (fun ka kb => fst ka = fst kb /\ R (snd ka) (snd kb)).

End Process.

(** The process after the import of [server.py], with the tables the
    loader builds *)
Definition running : Process.t := Process.boot OlogLoader.globals.

(** The pipeline for "a red cat walking in the park" in mascot_theater *)
Definition red_cat_run : Process.M Process.pyval :=
  Process.transform_then_assemble red_cat "mascot_theater" None
                                  red_cat_weights.

(* ================================================================== *)
(** * Properties *)

(** ** Tactics for literal lists of strings *)

(** [H : In x l] for a literal [l] that does not hold the literal [x] *)
Ltac not_in_literal H :=
  simpl in H;
  repeat (destruct H as [H|H]; [discriminate H|]);
  exact H.

(** [NoDup l] for a literal [l] *)
Ltac solve_nodup :=
  repeat (constructor; [let H := fresh "Hin" in intros H; not_in_literal H|]);
  constructor.

(** ** Strings *)

Lemma prefix_append : forall p s : string,
  prefix p s = true <-> exists r, s = p ++ r.
Proof.
  induction p as [|c p IH]; intros s; simpl.
  - split; [intros _; exists s; reflexivity | intros _; now destruct s].
  - destruct s as [|d s]; simpl.
    + split; [discriminate | intros [r Hr]; discriminate Hr].
    + destruct (ascii_dec c d) as [->|Hcd].
      * rewrite IH. split; intros [r Hr]; exists r.
        -- now rewrite Hr.
        -- now injection Hr.
      * split; [discriminate|].
        intros [r Hr]. injection Hr as Hd _. congruence.
Qed.

(** [needle in hay] holds exactly when [hay] is some text, then [needle],
    then some text. *)
Lemma contains_substring : forall needle hay : string,
  PyStr.contains needle hay = true
  <-> exists pre post, hay = pre ++ needle ++ post.
Proof.
  intros needle hay. induction hay as [|c hay IH]; cbn [PyStr.contains].
  - rewrite orb_false_r, prefix_append. split.
    + intros [r Hr]. exists EmptyString, r. exact Hr.
    + intros [pre [post H]]. destruct pre as [|d pre]; [|discriminate H].
      exists post. exact H.
  - rewrite orb_true_iff, prefix_append, IH. split.
    + intros [[r Hr]|[pre [post H]]].
      * exists EmptyString, r. exact Hr.
      * exists (String c pre), post. simpl. now rewrite H.
    + intros [pre [post H]]. destruct pre as [|d pre].
      * left. exists post. exact H.
      * right. exists pre, post. simpl in H. now injection H.
Qed.

(** ** Dicts *)

Section DictFacts.

Variable V : Type.

Lemma dict_mem_get : forall (k : string) (d : Dict.t V),
  Dict.mem k d = true <-> exists v, Dict.get k d = Some v.
Proof.
  intros k d. unfold Dict.mem. destruct (Dict.get k d) as [v|].
  - split; [intros _; now exists v | reflexivity].
  - split; [discriminate | intros [v Hv]; discriminate Hv].
Qed.

Lemma dict_get_in : forall (k : string) (d : Dict.t V) (v : V),
  Dict.get k d = Some v -> In (k, v) d.
Proof.
  induction d as [|[k' v'] d IH]; simpl; intros v H; [discriminate|].
  destruct (String.eqb_spec k k') as [->|Hk].
  - injection H as ->. now left.
  - right. now apply IH.
Qed.

Lemma dict_get_key : forall (k : string) (d : Dict.t V) (v : V),
  Dict.get k d = Some v -> In k (Dict.keys d).
Proof.
  intros k d v H. apply dict_get_in in H.
  unfold Dict.keys. change k with (fst (k, v)). now apply in_map.
Qed.

Lemma dict_in_get : forall (d : Dict.t V) (k : string) (v : V),
  Dict.wf d -> In (k, v) d -> Dict.get k d = Some v.
Proof.
  unfold Dict.wf, Dict.keys.
  induction d as [|[k' v'] d IH]; simpl; intros k v Hwf Hin; [easy|].
  inversion Hwf as [|? ? Hnot Hwf']; subst.
  destruct Hin as [Heq|Hin].
  - injection Heq as -> ->. now rewrite String.eqb_refl.
  - destruct (String.eqb_spec k k') as [->|Hk].
    + exfalso. apply Hnot. change k' with (fst (k', v)). now apply in_map.
    + now apply IH.
Qed.

(** Assigning to a key of the dict keeps the keys and their order. *)
Lemma dict_set_keys_mem : forall (k : string) (v : V) (d : Dict.t V),
  Dict.mem k d = true -> Dict.keys (Dict.set k v d) = Dict.keys d.
Proof.
  unfold Dict.mem.
  induction d as [|[k' v'] d IH]; simpl; intros H; [discriminate|].
  destruct (String.eqb_spec k k') as [->|Hk]; simpl; [reflexivity|].
  f_equal. now apply IH.
Qed.

Lemma dict_set_keys_incl : forall (k : string) (v : V) (d : Dict.t V),
  incl (Dict.keys (Dict.set k v d)) (k :: Dict.keys d).
Proof.
  induction d as [|[k' v'] d IH]; simpl.
  - apply incl_refl.
  - destruct (String.eqb_spec k k') as [->|Hk]; simpl.
    + intros x [<-|Hx]; [now left | now right; right].
    + intros x [<-|Hx]; [now right; left|].
      destruct (IH x Hx) as [<-|Hx']; [now left | now right; right].
Qed.

Lemma dict_get_set_same : forall (k : string) (v : V) (d : Dict.t V),
  Dict.get k (Dict.set k v d) = Some v.
Proof.
  induction d as [|[k' v'] d IH]; simpl.
  - now rewrite String.eqb_refl.
  - destruct (String.eqb_spec k k') as [->|Hk]; simpl.
    + now rewrite String.eqb_refl.
    + destruct (String.eqb_spec k k'); [contradiction | exact IH].
Qed.

Lemma dict_get_set_other : forall (k k' : string) (v : V) (d : Dict.t V),
  k' <> k -> Dict.get k' (Dict.set k v d) = Dict.get k' d.
Proof.
  induction d as [|[k0 v0] d IH]; simpl; intros Hk.
  - destruct (String.eqb_spec k' k); [contradiction | reflexivity].
  - destruct (String.eqb_spec k k0) as [->|Hk0]; simpl.
    + destruct (String.eqb_spec k' k0); [contradiction | reflexivity].
    + destruct (String.eqb_spec k' k0); [reflexivity | now apply IH].
Qed.

End DictFacts.

(** ** The importance weighter *)

Lemma raw_weights_cases : forall c : ComponentSet,
  exists b1 b2 b3 b4 b5 b6 b7 b8,
    Utils.raw_weights c = raw_of b1 b2 b3 b4 b5 b6 b7 b8.
Proof.
  intros c. unfold Utils.raw_weights. do 8 eexists. unfold raw_of.
  reflexivity.
Qed.

Lemma weights_check_all : forall b1 b2 b3 b4 b5 b6 b7 b8,
  weights_check (raw_of b1 b2 b3 b4 b5 b6 b7 b8) = true.
Proof.
  intros [] [] [] [] [] [] [] []; vm_compute; reflexivity.
Qed.


Lemma weights_eqb_eq : forall a b : Dict.t Z, weights_eqb a b = true -> a = b.
Proof.
  induction a as [|[k x] a IH]; intros [|[k' y] b]; simpl; try discriminate.
  - reflexivity.
  - rewrite !andb_true_iff. intros [[Hk Hx] Hab].
    apply String.eqb_eq in Hk. apply Z.eqb_eq in Hx. apply IH in Hab.
    now subst.
Qed.

(** C1, as amended: for every ComponentSet [calculate_semantic_weights]
    returns, without raising, a dict over the six component names whose
    values are non-negative integers, each the raw score times 100 over the
    raw total truncated to an integer (the float computation of the code
    agrees with exact integer arithmetic on every reachable raw score);
    when some raw score is positive the values sum to at least 96 and at
    most 100, and when none is they are all zero. *)
Theorem calculate_semantic_weights_normalized : forall c : ComponentSet,
  exists w : Dict.t Z,
    Utils.calculate_semantic_weights c = Ok w
    /\ Dict.keys w = component_names
    /\ w = normalized_exactly (Utils.raw_weights c)
    /\ Forall (fun v => 0 <= v) (Dict.values w)
    /\ (if existsb positive (Dict.values (Utils.raw_weights c))
        then 96 <= zsum (Dict.values w) <= 100
        else Forall (fun v => v = 0) (Dict.values w)).
Proof.
  intros c. unfold Utils.calculate_semantic_weights.
  destruct (raw_weights_cases c)
    as (b1 & b2 & b3 & b4 & b5 & b6 & b7 & b8 & ->).
  pose proof (weights_check_all b1 b2 b3 b4 b5 b6 b7 b8) as H.
  unfold weights_check in H.
  destruct (Utils.normalize (raw_of b1 b2 b3 b4 b5 b6 b7 b8)) as [w|e];
    [|discriminate H].
  rewrite !andb_true_iff in H. destruct H as [[[Heq Hkeys] Hpos] Hsum].
  exists w. split; [reflexivity|]. split.
  { destruct (list_eq_dec string_dec (Dict.keys w) component_names);
      [assumption | discriminate Hkeys]. }
  split; [now apply weights_eqb_eq|]. split.
  { apply Forall_forall. intros v Hv.
    rewrite forallb_forall in Hpos. apply Z.leb_le. now apply Hpos. }
  destruct (existsb positive (Dict.values (raw_of b1 b2 b3 b4 b5 b6 b7 b8))).
  - apply andb_true_iff in Hsum. destruct Hsum as [Hlo Hhi].
    apply Z.leb_le in Hlo. apply Z.leb_le in Hhi. now split.
  - apply Forall_forall. intros v Hv.
    rewrite forallb_forall in Hsum. symmetry. apply Z.eqb_eq. now apply Hsum.
Qed.

(** C1, as stated, fails: the prompt "a cat walking in the park" has the
    positive raw scores 40, 30 and 15, and its weights 47, 35 and 17 sum
    to 99. *)
Lemma semantic_weights_sum_99 :
  Utils.raw_weights walking_cat
  = [("subject", 40); ("action", 30); ("setting", 15);
     ("objects", 0); ("colors", 0); ("mood", 0)]
  /\ Utils.calculate_semantic_weights walking_cat
     = Ok [("subject", 47); ("action", 35); ("setting", 17);
           ("objects", 0); ("colors", 0); ("mood", 0)]
  /\ zsum [47; 35; 17; 0; 0; 0] <> 100.
Proof.
  split; [vm_compute; reflexivity|].
  split; [vm_compute; reflexivity|].
  vm_compute. discriminate.
Qed.

(** ** The assembler *)

Lemma fold_left_invariant :
  forall (A B : Type) (P : A -> Prop) (f : A -> B -> A) (l : list B) (a : A),
    P a -> (forall a b, In b l -> P a -> P (f a b)) -> P (fold_left f l a).
Proof.
  induction l as [|b l IH]; simpl; intros a Ha Hstep; [exact Ha|].
  apply IH.
  - apply Hstep; [now left | exact Ha].
  - intros a' b' Hb'. apply Hstep. now right.
Qed.

(** [order_by_importance] only ever copies entries of its first argument. *)
Lemma order_by_importance_keys :
  forall (components : Dict.t value) (w : Dict.t Z) (order : list string),
    incl (Dict.keys (Utils.order_by_importance components w order))
         (Dict.keys components).
Proof.
  intros components w order. unfold Utils.order_by_importance.
  apply fold_left_invariant
    with (P := fun d : Dict.t value => incl (Dict.keys d) (Dict.keys components)).
  - apply fold_left_invariant
      with (P := fun d : Dict.t value => incl (Dict.keys d) (Dict.keys components)).
    + intros x [].
    + intros d key _ Hd.
      destruct (Dict.get key components) as [v|] eqn:Hget; [|exact Hd].
      destruct (value_truthy v); [|exact Hd].
      intros x Hx. apply dict_set_keys_incl in Hx. destruct Hx as [<-|Hx].
      * now apply dict_get_key with (v := v).
      * now apply Hd.
  - intros d [k v] Hin Hd. simpl.
    destruct (negb (Dict.mem k d) && value_truthy v)%bool; [|exact Hd].
    intros x Hx. apply dict_set_keys_incl in Hx. destruct Hx as [<-|Hx].
    + change k with (fst (k, v)). now apply in_map.
    + now apply Hd.
Qed.

Lemma bind_ok : forall (A B : Type) (m : result A) (f : A -> result B) (b : B),
  bind m f = Ok b -> exists a, m = Ok a /\ f a = Ok b.
Proof.
  intros A B [a|e] f b H; simpl in H; [now exists a | discriminate H].
Qed.

(** The transformer returns the seven fragments, under these keys. *)
Lemma apply_category_transformation_keys :
  forall c rules maps params t,
    Transformer.apply_category_transformation c rules maps params = Ok t ->
    Dict.keys t = transformed_names.
Proof.
  intros c rules maps params t H.
  unfold Transformer.apply_category_transformation in H.
  apply bind_ok in H. destruct H as (subj & _ & H).
  apply bind_ok in H. destruct H as (act & _ & H).
  apply bind_ok in H. destruct H as (typo & _ & H).
  injection H as <-. reflexivity.
Qed.

Lemma apply_transformations_keys :
  forall g parsed category style_params t,
    Server.apply_transformations g parsed category style_params = Ok t ->
    Dict.keys t = transformed_names.
Proof.
  intros g parsed category style_params t H.
  unfold Server.apply_transformations in H.
  destruct (Dict.get category (CATEGORIES g)); [|discriminate H].
  now apply apply_category_transformation_keys in H.
Qed.

(** What [build_prompt_skeleton] returns when it returns *)
Lemma build_prompt_skeleton_ok :
  forall g transformed category weights sk,
    Server.build_prompt_skeleton g transformed category weights = Ok sk ->
    exists tpl,
      Dict.get category (TEMPLATES g) = Some tpl
      /\ sections sk
         = Utils.order_by_importance transformed weights (emphasis_order tpl)
      /\ emphasis sk
         = fold_left (fun e cw =>
                        Dict.set (fst cw) (Server.emphasis_of (snd cw)) e)
                     weights []
      /\ template sk = tpl
      /\ metadata sk
         = mkMetadata category (Server.token_estimate (sections sk)) true None.
Proof.
  intros g transformed category weights sk H.
  unfold Server.build_prompt_skeleton, Dict.item in H.
  destruct (Dict.get category (TEMPLATES g)) as [tpl|]; [|discriminate H].
  simpl in H. injection H as <-. exists tpl. simpl. repeat split.
Qed.

Lemma emphasis_keys : forall (weights : Dict.t Z),
  incl (Dict.keys
          (fold_left (fun e cw =>
                        Dict.set (fst cw) (Server.emphasis_of (snd cw)) e)
                     weights []))
       (Dict.keys weights).
Proof.
  intros weights.
  apply fold_left_invariant
    with (P := fun d : Dict.t Q => incl (Dict.keys d) (Dict.keys weights)).
  - intros x [].
  - intros d [k x] Hin Hd y Hy. simpl in Hy.
    apply dict_set_keys_incl in Hy. destruct Hy as [<-|Hy].
    + change k with (fst (k, x)). now apply in_map.
    + now apply Hd.
Qed.

(** An edit keeps the keys of the sections and leaves the emphasis alone. *)
Lemma refine_component_keys : forall sk name new_value,
  Dict.keys (sections (fst (Server.refine_component sk name new_value)))
  = Dict.keys (sections sk)
  /\ emphasis (fst (Server.refine_component sk name new_value)) = emphasis sk.
Proof.
  intros sk name new_value. unfold Server.refine_component.
  destruct (Dict.mem name (sections sk)) eqn:Hmem; simpl.
  - split; [now apply dict_set_keys_mem | reflexivity].
  - split; reflexivity.
Qed.

Lemma dict_set_keys_keep : forall (V : Type) (k k' : string) (v : V) (d : Dict.t V),
  In k' (Dict.keys d) -> In k' (Dict.keys (Dict.set k v d)).
Proof.
  induction d as [|[k0 v0] d IH]; simpl; intros H; [contradiction|].
  destruct (String.eqb_spec k k0) as [->|Hk]; simpl.
  - exact H.
  - destruct H as [H|H]; [now left | right; now apply IH].
Qed.

Lemma dict_set_keys_new : forall (V : Type) (k : string) (v : V) (d : Dict.t V),
  In k (Dict.keys (Dict.set k v d)).
Proof.
  intros V k v d. apply dict_get_key with (v := v). apply dict_get_set_same.
Qed.

(** Whatever the emphasis order, every non-empty component becomes a
    section. *)
Lemma order_by_importance_complete :
  forall (components : Dict.t value) (w : Dict.t Z) (order : list string)
         (k : string) (v : value),
    Dict.get k components = Some v -> value_truthy v = true ->
    In k (Dict.keys (Utils.order_by_importance components w order)).
Proof.
  intros components w order k v Hget Htruthy.
  apply dict_get_in in Hget. unfold Utils.order_by_importance.
  generalize (fold_left
                (fun ordered key =>
                   match Dict.get key components with
                   | Some v0 => if value_truthy v0
                                then Dict.set key v0 ordered else ordered
                   | None => ordered
                   end) order []).
  assert (Hmono : forall (l : list (string * value)) (d : Dict.t value),
             In k (Dict.keys d) ->
             In k (Dict.keys
                     (fold_left
                        (fun ordered kv =>
                           if (negb (Dict.mem (fst kv) ordered)
                               && value_truthy (snd kv))%bool
                           then Dict.set (fst kv) (snd kv) ordered
                           else ordered) l d))).
  { induction l as [|[k0 v0] l IH]; simpl; intros d Hd; [exact Hd|].
    apply IH. destruct (negb (Dict.mem k0 d) && value_truthy v0)%bool;
      [now apply dict_set_keys_keep | exact Hd]. }
  induction components as [|[k0 v0] components IH]; simpl; intros d;
    [contradiction|].
  destruct Hget as [Heq|Hin].
  - injection Heq as -> ->. apply Hmono. rewrite Htruthy, andb_true_r.
    destruct (Dict.mem k d) eqn:Hmem; simpl.
    + apply dict_mem_get in Hmem. destruct Hmem as (v' & Hv').
      now apply dict_get_key with (v := v').
    + apply dict_set_keys_new.
  - now apply IH.
Qed.

(** C2, as amended: for every skeleton [build_prompt_skeleton] returns,
    the keys of [sections] are keys of the transformed components it was
    given, so for the output of [apply_transformations] they are among its
    seven names (subject, action, setting, colors, effects, style_markers,
    typography); the keys of [emphasis] are among the keys of the semantic
    weights; and an edit by [refine_component] changes neither key set. *)
Theorem skeleton_keys_invariant :
  forall g transformed category weights sk,
    Server.build_prompt_skeleton g transformed category weights = Ok sk ->
    incl (Dict.keys (sections sk)) (Dict.keys transformed)
    /\ (forall parsed style_params,
          Server.apply_transformations g parsed category style_params
          = Ok transformed ->
          incl (Dict.keys (sections sk)) transformed_names)
    /\ incl (Dict.keys (emphasis sk)) (Dict.keys weights)
    /\ forall name new_value,
         Dict.keys (sections (fst (Server.refine_component sk name new_value)))
         = Dict.keys (sections sk)
         /\ emphasis (fst (Server.refine_component sk name new_value))
            = emphasis sk.
Proof.
  intros g transformed category weights sk Hsk.
  apply build_prompt_skeleton_ok in Hsk.
  destruct Hsk as (tpl & _ & Hsec & Hemp & _).
  assert (Hkeys : incl (Dict.keys (sections sk)) (Dict.keys transformed)).
  { rewrite Hsec. apply order_by_importance_keys. }
  split; [exact Hkeys|]. split; [|split].
  - intros parsed style_params Ht.
    apply apply_transformations_keys in Ht. now rewrite <- Ht.
  - rewrite Hemp. apply emphasis_keys.
  - intros name new_value. apply refine_component_keys.
Qed.

(** The invariant at the skeleton of "a red cat walking in the park" *)
Lemma skeleton_keys_invariant_witness :
  exists transformed sk,
    Server.apply_transformations OlogLoader.globals red_cat
                                 "mascot_theater" None = Ok transformed
    /\ Server.build_prompt_skeleton OlogLoader.globals transformed
                                    "mascot_theater" red_cat_weights = Ok sk
    /\ incl (Dict.keys (sections sk)) transformed_names
    /\ incl (Dict.keys (emphasis sk)) (Dict.keys red_cat_weights).
Proof.
  eexists. eexists.
  split; [vm_compute; reflexivity|].
  assert (Hsk : forall t sk,
             Server.apply_transformations OlogLoader.globals red_cat
                                          "mascot_theater" None = Ok t ->
             Server.build_prompt_skeleton OlogLoader.globals t
                                          "mascot_theater" red_cat_weights
             = Ok sk ->
             incl (Dict.keys (sections sk)) transformed_names
             /\ incl (Dict.keys (emphasis sk)) (Dict.keys red_cat_weights)).
  { intros t sk Ht Hb.
    destruct (skeleton_keys_invariant OlogLoader.globals t "mascot_theater"
                                      red_cat_weights sk Hb)
      as (_ & Hnames & Hemp & _).
    split; [exact (Hnames red_cat None Ht) | exact Hemp]. }
  split; [vm_compute; reflexivity|].
  eapply Hsk; vm_compute; reflexivity.
Defined.

(** C2, as stated, fails: the skeleton for "a red cat walking in the park"
    in the category mascot_theater has the section keys effects, typography
    and style_markers, none of them a component name of a ComponentSet. *)
Lemma sections_keys_beyond_component_names :
  Server.parse_prompt OlogLoader.globals "a red cat walking in the park"
  = Ok red_cat
  /\ exists transformed sk,
       Server.apply_transformations OlogLoader.globals red_cat
                                    "mascot_theater" None = Ok transformed
       /\ Server.build_prompt_skeleton OlogLoader.globals transformed
                                       "mascot_theater" red_cat_weights
          = Ok sk
       /\ Dict.keys (sections sk)
          = ["subject"; "action"; "effects"; "setting"; "colors";
             "typography"; "style_markers"]
       /\ ~ incl (Dict.keys (sections sk)) component_names.
Proof.
  split; [vm_compute; reflexivity|].
  eexists. eexists.
  split; [vm_compute; reflexivity|].
  split; [vm_compute; reflexivity|].
  split; [vm_compute; reflexivity|].
  intros Hincl.
  assert (Hin : In "effects" component_names).
  { apply Hincl. vm_compute. right. right. left. reflexivity. }
  unfold component_names in Hin. not_in_literal Hin.
Qed.

Lemma dict_get_none : forall (V : Type) (k : string) (d : Dict.t V),
  ~ In k (Dict.keys d) -> Dict.get k d = None.
Proof.
  induction d as [|[k' v] d IH]; simpl; intros H; [reflexivity|].
  destruct (String.eqb_spec k k') as [->|Hk].
  - exfalso. apply H. now left.
  - apply IH. intros Hin. apply H. now right.
Qed.

(** The loop over [semantic_weights.items()] gives every component the
    tier of its weight. *)
Lemma emphasis_loop_get :
  forall (component : string) (weights : Dict.t Z) (acc : Dict.t Q),
    Dict.wf weights ->
    Dict.get component
      (fold_left (fun e cw =>
                    Dict.set (fst cw) (Server.emphasis_of (snd cw)) e)
                 weights acc)
    = match Dict.get component weights with
      | Some weight => Some (Server.emphasis_of weight)
      | None => Dict.get component acc
      end.
Proof.
  unfold Dict.wf, Dict.keys. intros component.
  induction weights as [|[k x] weights IH]; simpl; intros acc Hwf;
    [reflexivity|].
  inversion Hwf as [|? ? Hnot Hwf']; subst.
  rewrite IH by assumption.
  destruct (String.eqb_spec component k) as [->|Hk].
  - rewrite (dict_get_none _ k weights Hnot). apply dict_get_set_same.
  - destruct (Dict.get component weights); [reflexivity|].
    now apply dict_get_set_other.
Qed.

Ltac solve_wf := unfold Dict.wf; simpl; solve_nodup.

(** C5, as amended: in a skeleton [build_prompt_skeleton] returns, a
    component gets the multiplier of its weight by the strict thresholds
    60, 40 and 20: above 60 it is 1.3, above 40 it is 1.15, above 20 it is
    1.0, else 0.85; so exactly 60 gives 1.15 (the tier above 40), 61 gives
    1.3, exactly 40 gives 1.0, 41 gives 1.15, exactly 20 gives 0.85 and 21
    gives 1.0. *)
Theorem emphasis_tier_boundaries :
  forall g transformed category weights sk component weight,
    Server.build_prompt_skeleton g transformed category weights = Ok sk ->
    Dict.wf weights ->
    Dict.get component weights = Some weight ->
    Dict.get component (emphasis sk) = Some (Server.emphasis_of weight)
    /\ (60 < weight -> Server.emphasis_of weight = 1.3%Q)
    /\ (40 < weight <= 60 -> Server.emphasis_of weight = 1.15%Q)
    /\ (20 < weight <= 40 -> Server.emphasis_of weight = 1.0%Q)
    /\ (weight <= 20 -> Server.emphasis_of weight = 0.85%Q)
    /\ Server.emphasis_of 60 = 1.15%Q
    /\ Server.emphasis_of 61 = 1.3%Q
    /\ Server.emphasis_of 40 = 1.0%Q
    /\ Server.emphasis_of 41 = 1.15%Q
    /\ Server.emphasis_of 20 = 0.85%Q
    /\ Server.emphasis_of 21 = 1.0%Q.
Proof.
  intros g transformed category weights sk component weight Hsk Hwf Hget.
  apply build_prompt_skeleton_ok in Hsk.
  destruct Hsk as (tpl & _ & _ & Hemp & _).
  split.
  { rewrite Hemp, emphasis_loop_get by assumption. now rewrite Hget. }
  unfold Server.emphasis_of.
  split; [|split; [|split; [|split]]].
  - intros Hw. destruct (Z.ltb_spec 60 weight); [reflexivity | lia].
  - intros Hw. destruct (Z.ltb_spec 60 weight); [lia|].
    destruct (Z.ltb_spec 40 weight); [reflexivity | lia].
  - intros Hw. destruct (Z.ltb_spec 60 weight); [lia|].
    destruct (Z.ltb_spec 40 weight); [lia|].
    destruct (Z.ltb_spec 20 weight); [reflexivity | lia].
  - intros Hw. destruct (Z.ltb_spec 60 weight); [lia|].
    destruct (Z.ltb_spec 40 weight); [lia|].
    destruct (Z.ltb_spec 20 weight); [lia | reflexivity].
  - repeat (split; [reflexivity|]). reflexivity.
Qed.

(** The tiers of the weights 60, 61, 40, 41, 20 and 21 in one skeleton *)
Lemma emphasis_tier_boundaries_witness :
  exists sk,
    Server.build_prompt_skeleton OlogLoader.globals [] "mascot_theater"
                                 boundary_weights = Ok sk
    /\ Dict.wf boundary_weights
    /\ Dict.get "subject" boundary_weights = Some 60
    /\ Dict.get "subject" (emphasis sk) = Some 1.15%Q
    /\ emphasis sk
       = [("subject", 1.15%Q); ("action", 1.3%Q); ("setting", 1.0%Q);
          ("objects", 1.15%Q); ("colors", 0.85%Q); ("mood", 1.0%Q)].
Proof.
  eexists.
  split; [vm_compute; reflexivity|].
  assert (Hwf : Dict.wf boundary_weights) by solve_wf.
  split; [exact Hwf|].
  split; [reflexivity|].
  split; [|vm_compute; reflexivity].
  exact (proj1 (emphasis_tier_boundaries OlogLoader.globals []
                  "mascot_theater" boundary_weights _ "subject" 60
                  eq_refl Hwf eq_refl)).
Defined.

(** C5, as stated, fails at the weight 60: it is above 40 and not above
    60, so the assembler gives it 1.15, which is not 1.0. *)
Lemma emphasis_of_60_is_not_1 :
  Server.emphasis_of 60 = 1.15%Q
  /\ ~ (Server.emphasis_of 60 == 1.0)%Q
  /\ exists sk,
       Server.build_prompt_skeleton OlogLoader.globals [] "mascot_theater"
                                    [("subject", 60)] = Ok sk
       /\ emphasis sk = [("subject", 1.15%Q)].
Proof.
  split; [reflexivity|].
  split; [vm_compute; discriminate|].
  eexists. split; vm_compute; reflexivity.
Qed.

(** C4: [refine_component] with a name that is not a key of the sections
    raises the unknown-component error and leaves the skeleton as it was;
    with a key of the sections it stores the new string under that key,
    keeps every other section and the key order, appends the name to the
    modification history and sets the token estimate to the floor of the
    summed character lengths of the section values over 4; the emphasis,
    the template and the negative prompt stay. *)
Theorem refine_component_spec :
  forall (sk : Skeleton) (name new_value : string),
    let after := fst (Server.refine_component sk name new_value) in
    let outcome := snd (Server.refine_component sk name new_value) in
    if Dict.mem name (sections sk)
    then outcome = Ok tt
         /\ Dict.get name (sections after) = Some (VStr new_value)
         /\ (forall k, k <> name ->
                       Dict.get k (sections after) = Dict.get k (sections sk))
         /\ Dict.keys (sections after) = Dict.keys (sections sk)
         /\ user_modifications (metadata after)
            = Some (history sk ++ [name])%list
         /\ estimated_tokens (metadata after)
            = total_chars (sections after) / 4
         /\ 4 * estimated_tokens (metadata after)
            <= total_chars (sections after)
            < 4 * estimated_tokens (metadata after) + 4
         /\ emphasis after = emphasis sk
         /\ template after = template sk
         /\ negative_prompt after = negative_prompt sk
         /\ meta_category (metadata after) = meta_category (metadata sk)
    else after = sk
         /\ outcome
            = Raise (ValueError
                       ("Unknown component: " ++ name ++ ". Available: "
                        ++ PyStr.repr_list (Dict.keys (sections sk)))).
Proof.
  intros sk name new_value. unfold Server.refine_component.
  destruct (Dict.mem name (sections sk)) eqn:Hmem;
    cbn [negb fst snd sections emphasis template negative_prompt metadata
         user_modifications estimated_tokens meta_category].
  - repeat split; try reflexivity.
    + apply dict_get_set_same.
    + intros k Hk. now apply dict_get_set_other.
    + now apply dict_set_keys_mem.
    + unfold Server.token_estimate.
      fold (total_chars (Dict.set name (VStr new_value) (sections sk))).
      Z.div_mod_to_equations. lia.
    + unfold Server.token_estimate.
      fold (total_chars (Dict.set name (VStr new_value) (sections sk))).
      Z.div_mod_to_equations. lia.
  - split; reflexivity.
Qed.

(** ** The action transformation *)

Lemma find_in : forall (A : Type) (f : A -> bool) (l : list A) (x : A),
  find f l = Some x -> In x l.
Proof.
  intros A f l x H. apply find_some in H. tauto.
Qed.

(** The word [first_word] finds belongs to the tier it is reported with. *)
Lemma first_word_in_tier :
  forall (table : Dict.t (list string)) (text tier w : string),
    Parser.first_word table text = Some (tier, w) ->
    exists ws, In (tier, ws) table /\ In w ws.
Proof.
  induction table as [|[t ws] table IH]; simpl; intros text tier w H;
    [discriminate H|].
  destruct (find (fun w0 => PyStr.contains w0 text) ws) as [w0|] eqn:Hf.
  - injection H as <- <-. exists ws. split; [now left|].
    now apply find_in in Hf.
  - destruct (IH _ _ _ H) as (ws' & Hin & Hw). exists ws'. split;
      [now right | exact Hw].
Qed.

(** A verb of the high-energy list is extracted with the tier 'high'. *)
Lemma extract_action_high : forall (prompt verb : string),
  action_verb (Parser.extract_action prompt) = Some verb ->
  In verb high_energy_verbs ->
  action_energy_level (Parser.extract_action prompt) = "high".
Proof.
  intros prompt verb Hverb Hhigh. unfold Parser.extract_action in *.
  destruct (Parser.first_word Parser.actions (PyStr.lower prompt))
    as [[tier w]|] eqn:Hfw; [|discriminate Hverb].
  cbn [action_verb action_energy_level] in *. injection Hverb as ->.
  apply first_word_in_tier in Hfw. destruct Hfw as (ws & Htier & Hw).
  unfold Parser.actions in Htier. simpl in Htier.
  destruct Htier as [Ht|[Ht|[Ht|[]]]]; injection Ht as <- <-.
  - reflexivity.
  - exfalso. vm_compute in Hhigh. simpl in Hw.
    repeat (destruct Hw as [Hw|Hw]; [subst verb; not_in_literal Hhigh|]).
    exact Hw.
  - exfalso. vm_compute in Hhigh. simpl in Hw.
    repeat (destruct Hw as [Hw|Hw]; [subst verb; not_in_literal Hhigh|]).
    exact Hw.
Qed.

(** With an action table keyed by the tier names of the catalog
    ('low_energy', 'medium_energy', 'high_energy'), the tier 'high' is not
    a key, and the action is rendered from the low-energy entry. *)
Lemma transform_action_high_falls_back :
  forall (a : Action) (rules : Rules) (maps : Maps) (params : Params)
         (verb : string) (low : ActionRule),
    action_verb a = Some verb -> verb <> "" ->
    action_energy_level a = "high" ->
    Dict.get "high" (action_rules rules) = None ->
    Dict.get "low_energy" (action_rules rules) = Some low ->
    exists rest,
      Transformer.transform_action a rules maps params
      = Ok (PyStr.join ", " ((verb ++ " with " ++ ar_treatment low) :: rest)).
Proof.
  intros a rules maps params verb low Hverb Hne Hhigh Hnokey Hlow.
  unfold Transformer.transform_action.
  rewrite Hverb, Hhigh. unfold truthy.
  destruct (String.eqb_spec verb "") as [->|_]; [contradiction|].
  unfold Dict.mem, Dict.item. rewrite Hnokey, Hlow.
  cbn [negb bind fmt app]. eexists. reflexivity.
Qed.

(** C3 fails on the code: "a person running fast" has the high-energy verb
    running, and mascot_theater defines a high-energy entry ("dynamic
    mid-action"); the extractor names the tier 'high', the table's key is
    'high_energy', and the action is rendered from the low-energy entry
    ("friendly gesture") with that entry's effects. *)
Lemma high_energy_verb_gets_low_energy_rule :
  action_verb (Parser.extract_action "a person running fast")
  = Some "running"
  /\ In "running" high_energy_verbs
  /\ action_energy_level (Parser.extract_action "a person running fast")
     = "high"
  /\ Dict.get "high_energy" (action_rules mascot_theater)
     = Some (mkActionRule "dynamic mid-action"
               ["mid-leap or jump"; "one foot always off ground";
                "arms spread wide"; "hair/clothing flowing"]
               ["speed lines"; "motion blur trail"; "dust clouds";
                "large starbursts"; "impact marks"])
  /\ Dict.mem "high" (action_rules mascot_theater) = false
  /\ Transformer.transform_action
       (Parser.extract_action "a person running fast") mascot_theater
       OlogLoader.get_transformation_maps no_params
     = Ok "running with friendly gesture, static pose, one hand waving or pointing, welcoming stance, with comically oversized fast, small sparkles, simple motion line".
Proof.
  split; [vm_compute; reflexivity|].
  split; [vm_compute; left; reflexivity|].
  split; [vm_compute; reflexivity|].
  split; [vm_compute; reflexivity|].
  split; vm_compute; reflexivity.
Qed.

(** ** The variant generator *)

(** Whether the transformer raises does not depend on the style
    parameters. *)
Lemma apply_category_transformation_any_params :
  forall c rules maps params params' t,
    Transformer.apply_category_transformation c rules maps params = Ok t ->
    exists t',
      Transformer.apply_category_transformation c rules maps params' = Ok t'.
Proof.
  intros c rules maps params params' t H.
  unfold Transformer.apply_category_transformation in *.
  apply bind_ok in H. destruct H as (subj & Hsubj & H).
  apply bind_ok in H. destruct H as (act & Hact & H).
  apply bind_ok in H. destruct H as (typo & Htypo & _).
  assert (Hs : Transformer.transform_subject (subject c) rules maps params'
               = Ok subj) by exact Hsubj.
  rewrite Hs. cbn [bind].
  assert (Ha : exists act',
             Transformer.transform_action (action c) rules maps params'
             = Ok act').
  { unfold Transformer.transform_action in *.
    destruct (negb (truthy (action_verb (action c))));
      [eexists; reflexivity|].
    destruct (Dict.item _ (action_rules rules)) as [rule|e];
      [eexists; reflexivity | discriminate Hact]. }
  destruct Ha as (act' & ->). cbn [bind].
  assert (Ht : exists typo',
             (if existsb
                   (String.eqb (Transformer.opt_default (rules_name rules)
                                                        "unknown"))
                   Transformer.typography_categories
              then Transformer.transform_typography
                     (subject c)
                     (Transformer.opt_default (rules_name rules) "unknown")
                     params'
              else Ok None) = Ok typo').
  { destruct (existsb _ Transformer.typography_categories);
      [|eexists; reflexivity].
    unfold Transformer.transform_typography in *.
    repeat match goal with
           | |- context [if String.eqb ?a ?b then _ else _] =>
               destruct (String.eqb a b)
           end;
      try (destruct (Transformer.upper_of _) as [up|e];
           [eexists; reflexivity | discriminate Htypo]).
    eexists; reflexivity. }
  destruct Ht as (typo' & ->). cbn [bind]. eexists. reflexivity.
Qed.

Lemma apply_transformations_any_params :
  forall g parsed category sp sp' t,
    Server.apply_transformations g parsed category sp = Ok t ->
    exists t', Server.apply_transformations g parsed category sp' = Ok t'.
Proof.
  intros g parsed category sp sp' t H. unfold Server.apply_transformations in *.
  destruct (Dict.get category (CATEGORIES g)); [|discriminate H].
  eapply apply_category_transformation_any_params. exact H.
Qed.

(** With a template for the category, the assembler returns. *)
Lemma build_prompt_skeleton_returns :
  forall g transformed category weights,
    Dict.mem category (TEMPLATES g) = true ->
    exists sk,
      Server.build_prompt_skeleton g transformed category weights = Ok sk.
Proof.
  intros g transformed category weights H.
  apply dict_mem_get in H. destruct H as (tpl & Htpl).
  unfold Server.build_prompt_skeleton, Dict.item. rewrite Htpl.
  eexists. reflexivity.
Qed.

(** One turn of the loop of [generate_variants] *)
Lemma variant_ok :
  forall g parsed category weights t0 i params,
    semantic_weights parsed = Some weights ->
    Dict.mem category (TEMPLATES g) = true ->
    Server.apply_transformations g parsed category None = Ok t0 ->
    exists t sk,
      Server.apply_transformations g parsed category (Some params) = Ok t
      /\ Server.build_prompt_skeleton g t category weights = Ok sk
      /\ Server.variant g parsed category i params
         = Ok (mkVariant ("Variant " ++ PyStr.of_int (i + 1) ++ " ("
                          ++ fmt (param_name params) ++ ")")
                         params sk).
Proof.
  intros g parsed category weights t0 i params Hw Htpl Ht0.
  destruct (apply_transformations_any_params _ _ _ _ (Some params) _ Ht0)
    as (t & Ht).
  destruct (build_prompt_skeleton_returns g t category weights Htpl)
    as (sk & Hsk).
  exists t, sk. split; [exact Ht|]. split; [exact Hsk|].
  unfold Server.variant. rewrite Ht, Hw. cbn [bind]. rewrite Hsk.
  reflexivity.
Qed.

(** A call with count 3 that returns has passed every step of its first
    variant: the transformation succeeded, the weights were there, and the
    category had a template. *)
Lemma generate_variants_3_needs :
  forall g parsed category vs,
    Server.generate_variants g parsed category 3 = Ok vs ->
    semantic_weights parsed <> None
    /\ Dict.mem category (TEMPLATES g) = true
    /\ exists t0, Server.apply_transformations g parsed category None = Ok t0.
Proof.
  intros g parsed category vs H.
  unfold Server.generate_variants in H.
  change ((3 <? 1) || (5 <? 3))%bool with false in H.
  change (firstn (Z.to_nat 3) Server.param_sets)
    with (firstn 3 Server.param_sets) in H.
  unfold Server.param_sets in H. cbn [firstn Server.variants_from] in H.
  apply bind_ok in H. destruct H as (v & Hv & _).
  unfold Server.variant in Hv.
  apply bind_ok in Hv. destruct Hv as (t & Ht & Hv).
  apply bind_ok in Hv. destruct Hv as (w & Hw & Hv).
  apply bind_ok in Hv. destruct Hv as (sk & Hsk & _).
  split.
  - intros E. rewrite E in Hw. discriminate Hw.
  - split.
    + unfold Server.build_prompt_skeleton in Hsk.
      apply bind_ok in Hsk. destruct Hsk as (tpl & Htpl & _).
      unfold Dict.item in Htpl. unfold Dict.mem.
      destruct (Dict.get category (TEMPLATES g)); [reflexivity|discriminate Htpl].
    + exact (apply_transformations_any_params _ _ _ _ None _ Ht).
Qed.




(** ** The extractor *)

Lemma filter_subseq : forall (A : Type) (f : A -> bool) (l : list A),
  subseq (filter f l) l.
Proof.
  induction l as [|x l IH]; simpl; [constructor|].
  destruct (f x); now constructor.
Qed.

Lemma filter_nil : forall (A : Type) (f : A -> bool) (l : list A),
  (forall x, In x l -> f x = false) -> filter f l = [].
Proof.
  induction l as [|x l IH]; simpl; intros H; [reflexivity|].
  rewrite (H x) by now left. apply IH. intros y Hy. apply H. now right.
Qed.

(** C8: [extract_colors] returns exactly the palette colors that occur in
    the lower-cased prompt (the prompt is some text, then the color, then
    some text), as a subsequence of the palette, hence in the order of the
    16-entry palette, whose names are distinct; "a blue bird on a red car"
    gives red before blue. *)
Theorem extract_colors_spec : forall prompt : string,
  (forall color,
      In color (Parser.extract_colors prompt)
      <-> In color Parser.palette
          /\ exists pre post, PyStr.lower prompt = pre ++ color ++ post)
  /\ subseq (Parser.extract_colors prompt) Parser.palette
  /\ NoDup Parser.palette
  /\ List.length Parser.palette = 16%nat
  /\ Parser.extract_colors "a blue bird on a red car" = ["red"; "blue"].
Proof.
  intros prompt. split; [|split; [|split; [|split]]].
  - intros color. unfold Parser.extract_colors.
    rewrite filter_In, contains_substring. reflexivity.
  - apply filter_subseq.
  - unfold Parser.palette. solve_nodup.
  - reflexivity.
  - vm_compute. reflexivity.
Qed.

(** C10: when no subject pattern matches, the extracted subject is the
    default record, of type 'abstract' and with the name [None]; and for
    rules with no subject rule for 'abstract', [transform_subject] returns
    the four-character string "None", which is not empty. *)
Theorem subjectless_prompt_renders_None :
  forall (prompt : string) (maps : Maps) (rules : Rules) (params : Params),
    Parser.first_match Parser.subjects prompt = None ->
    Dict.mem "abstract" (subject_rules rules) = false ->
    subject_name (Parser.extract_subject prompt maps) = None
    /\ subject_type (Parser.extract_subject prompt maps) = "abstract"
    /\ Transformer.transform_subject (Parser.extract_subject prompt maps)
                                     rules maps params = Ok "None"
    /\ "None" <> ""
    /\ String.length "None" = 4%nat.
Proof.
  intros prompt maps rules params Hnone Hrule.
  unfold Parser.extract_subject. rewrite Hnone.
  split; [reflexivity|]. split; [reflexivity|]. split.
  - unfold Transformer.transform_subject, Parser.default_subject.
    cbn [subject_type subject_name].
    unfold Dict.mem in Hrule.
    destruct (Dict.get "abstract" (subject_rules rules));
      [discriminate Hrule | reflexivity].
  - split; [discriminate | reflexivity].
Qed.

(** The empty prompt under the rules of mascot_theater *)
Lemma subjectless_prompt_renders_None_witness :
  Parser.first_match Parser.subjects "" = None
  /\ Dict.mem "abstract" (subject_rules mascot_theater) = false
  /\ Transformer.transform_subject
       (Parser.extract_subject "" OlogLoader.get_transformation_maps)
       mascot_theater OlogLoader.get_transformation_maps no_params
     = Ok "None".
Proof.
  assert (H1 : Parser.first_match Parser.subjects "" = None)
    by (vm_compute; reflexivity).
  assert (H2 : Dict.mem "abstract" (subject_rules mascot_theater) = false)
    by (vm_compute; reflexivity).
  split; [exact H1|]. split; [exact H2|].
  exact (proj1 (proj2 (proj2
           (subjectless_prompt_renders_None
              "" OlogLoader.get_transformation_maps mascot_theater no_params
              H1 H2)))).
Defined.

(** ** The template table at import *)

(** The first call of [get_templates] returns the empty dict: in a process
    initialized from it the assembler raises [KeyError] for every
    category. *)
Remark build_prompt_skeleton_at_import :
  forall transformed category weights,
    TEMPLATES OlogLoader.globals_at_import = []
    /\ snd (OlogLoader.get_templates None) = Some OlogLoader.template_map
    /\ Server.build_prompt_skeleton OlogLoader.globals_at_import
                                    transformed category weights
       = Raise (KeyError category).
Proof.
  intros transformed category weights. repeat split.
Qed.

(* ================================================================== *)
(** * Further properties *)

(** ** The presets of the variant generator *)

(** No preset has an energy multiplier above 1.0: the action is rendered
    as without style parameters. *)
Lemma preset_action_plain : forall p : Params,
  In p Server.param_sets ->
  forall a rules maps,
    Transformer.transform_action a rules maps p
    = Transformer.transform_action a rules maps no_params.
Proof.
  intros p Hp a rules maps. unfold Server.param_sets in Hp. simpl in Hp.
  destruct Hp as [<-|[<-|[<-|[<-|[<-|[]]]]]]; reflexivity.
Qed.

(** X1: under every preset of [generate_variants] the subject, action and
    setting fragments and the style markers are those of the
    transformation without style parameters; no preset reaches the
    "intensified" effects, whose test is a multiplier above 1.0. *)
Theorem presets_share_fragments :
  forall g parsed category p t tp,
    In p Server.param_sets ->
    Server.apply_transformations g parsed category None = Ok t ->
    Server.apply_transformations g parsed category (Some p) = Ok tp ->
    Dict.get "subject" tp = Dict.get "subject" t
    /\ Dict.get "action" tp = Dict.get "action" t
    /\ Dict.get "setting" tp = Dict.get "setting" t
    /\ Dict.get "style_markers" tp = Dict.get "style_markers" t.
Proof.
  intros g parsed category p t tp Hp Ht Htp.
  unfold Server.apply_transformations in *.
  destruct (Dict.get category (CATEGORIES g)) as [rules|]; [|discriminate Ht].
  unfold Transformer.apply_category_transformation in *.
  rewrite (preset_action_plain p Hp) in Htp.
  apply bind_ok in Ht. destruct Ht as (subj & Hsubj & Ht).
  apply bind_ok in Ht. destruct Ht as (act & Hact & Ht).
  apply bind_ok in Ht. destruct Ht as (typo & _ & Ht).
  apply bind_ok in Htp. destruct Htp as (subj' & Hsubj' & Htp).
  apply bind_ok in Htp. destruct Htp as (act' & Hact' & Htp).
  apply bind_ok in Htp. destruct Htp as (typo' & _ & Htp).
  assert (Hs : Transformer.transform_subject (subject parsed) rules
                 (TRANSFORMATION_MAPS g) no_params = Ok subj') by exact Hsubj'.
  rewrite Hsubj in Hs. injection Hs as <-.
  rewrite Hact in Hact'. injection Hact' as <-.
  injection Ht as <-. injection Htp as <-.
  repeat split.
Qed.

(** The presets on "a red cat walking in the park" *)
Lemma presets_share_fragments_witness :
  exists t tp,
    Server.apply_transformations OlogLoader.globals red_cat
                                 "mascot_theater" None = Ok t
    /\ Server.apply_transformations
         OlogLoader.globals red_cat "mascot_theater"
         (Some (mkParams (Some "Intense") (Some 1.0%Q) (Some "neon")
                         (Some 1.0%Q) None)) = Ok tp
    /\ Dict.get "action" tp = Dict.get "action" t.
Proof.
  eexists. eexists.
  split; [vm_compute; reflexivity|].
  split; [vm_compute; reflexivity|].
  eapply (presets_share_fragments OlogLoader.globals red_cat "mascot_theater"
            (mkParams (Some "Intense") (Some 1.0%Q) (Some "neon")
                      (Some 1.0%Q) None)).
  - right. right. left. reflexivity.
  - vm_compute. reflexivity.
  - vm_compute. reflexivity.
Defined.

(** ** The variant generator, for every count *)

(** What the assembler returns from a template *)
Lemma build_prompt_skeleton_with_template :
  forall g transformed category weights tpl,
    Dict.get category (TEMPLATES g) = Some tpl ->
    Server.build_prompt_skeleton g transformed category weights
    = Ok (mkSkeleton
            (Utils.order_by_importance transformed weights
                                       (emphasis_order tpl))
            (emphasis_loop weights) tpl
            (Utils.generate_negative_prompt category (CATEGORIES g))
            (mkMetadata category
               (Server.token_estimate
                  (Utils.order_by_importance transformed weights
                                             (emphasis_order tpl)))
               true None)).
Proof.
  intros g transformed category weights tpl H.
  unfold Server.build_prompt_skeleton, Dict.item. now rewrite H.
Qed.

Lemma variants_from_ok :
  forall g parsed category weights t0 tpl,
    semantic_weights parsed = Some weights ->
    Dict.get category (TEMPLATES g) = Some tpl ->
    Server.apply_transformations g parsed category None = Ok t0 ->
    forall ps i,
    exists vs,
      Server.variants_from g parsed category i ps = Ok vs
      /\ map style_params vs = ps
      /\ map variant_name vs = labels i ps
      /\ Forall (fun v =>
                   emphasis (skeleton v) = emphasis_loop weights
                   /\ negative_prompt (skeleton v)
                      = Utils.generate_negative_prompt category (CATEGORIES g)
                   /\ template (skeleton v) = tpl
                   /\ user_modifications (metadata (skeleton v)) = None)
                vs.
Proof.
  intros g parsed category weights t0 tpl Hw Htpl Ht0.
  induction ps as [|p ps IH]; intros i.
  - exists []. repeat split. constructor.
  - destruct (apply_transformations_any_params _ _ _ _ (Some p) _ Ht0)
      as (t & Ht).
    destruct (IH (i + 1)) as (vs & Hvs & Hps & Hnames & Hall).
    cbn [Server.variants_from]. unfold Server.variant.
    rewrite Ht, Hw. cbn [bind].
    rewrite (build_prompt_skeleton_with_template _ _ _ _ _ Htpl).
    cbn [bind]. rewrite Hvs. cbn [bind].
    eexists. split; [reflexivity|].
    cbn [map style_params variant_name labels]. rewrite Hps, Hnames.
    split; [reflexivity|]. split; [reflexivity|].
    constructor; [|exact Hall].
    cbn [skeleton emphasis negative_prompt template metadata
         user_modifications].
    repeat split.
Qed.

(** X2: for every count from 1 to 5, a parsed prompt that carries its
    weights, a category with a template and components the category
    transforms, [generate_variants] returns exactly [count] variants, made
    from the first [count] presets and named after them in order; all of
    them have the same emphasis, the same negative prompt and the
    category's template, and none has a modification history yet. *)
Theorem generate_variants_count :
  forall g parsed category weights t0 tpl count,
    1 <= count <= 5 ->
    semantic_weights parsed = Some weights ->
    Dict.get category (TEMPLATES g) = Some tpl ->
    Server.apply_transformations g parsed category None = Ok t0 ->
    exists vs,
      Server.generate_variants g parsed category count = Ok vs
      /\ Z.of_nat (List.length vs) = count
      /\ map style_params vs = firstn (Z.to_nat count) Server.param_sets
      /\ map variant_name vs = firstn (Z.to_nat count) variant_names
      /\ Forall (fun v =>
                   emphasis (skeleton v) = emphasis_loop weights
                   /\ negative_prompt (skeleton v)
                      = Utils.generate_negative_prompt category (CATEGORIES g)
                   /\ template (skeleton v) = tpl
                   /\ user_modifications (metadata (skeleton v)) = None)
                vs.
Proof.
  intros g parsed category weights t0 tpl count Hcount Hw Htpl Ht0.
  unfold Server.generate_variants.
  destruct (Z.ltb_spec count 1); [lia|].
  destruct (Z.ltb_spec 5 count); [lia|]. cbn [orb].
  destruct (variants_from_ok g parsed category weights t0 tpl Hw Htpl Ht0
              (firstn (Z.to_nat count) Server.param_sets) 0)
    as (vs & Hvs & Hps & Hnames & Hall).
  exists vs. split; [exact Hvs|].
  assert (Hc : count = 1 \/ count = 2 \/ count = 3 \/ count = 4 \/ count = 5)
    by lia.
  split.
  { rewrite <- (length_map style_params), Hps.
    destruct Hc as [->|[->|[->|[->| ->]]]]; reflexivity. }
  split; [exact Hps|]. split; [|exact Hall].
  rewrite Hnames.
  destruct Hc as [->|[->|[->|[->| ->]]]]; reflexivity.
Qed.

(** Five variants of "a red cat walking in the park" *)
Lemma generate_variants_count_witness :
  exists vs,
    Server.generate_variants OlogLoader.globals red_cat "mascot_theater" 5
    = Ok vs
    /\ Z.of_nat (List.length vs) = 5
    /\ map variant_name vs = variant_names.
Proof.
  destruct (generate_variants_count
              OlogLoader.globals red_cat "mascot_theater" red_cat_weights
              (match Server.apply_transformations
                       OlogLoader.globals red_cat "mascot_theater" None with
               | Ok t => t
               | Raise _ => []
               end)
              (mkTemplate
                 ["subject"; "action"; "effects"; "setting"; "colors";
                  "typography"; "style_markers"]
                 "Subject → Action → Setting → Colors → Effects → Typography → Style Markers")
              5)
    as (vs & Hvs & Hlen & _ & Hnames & _).
  - lia.
  - reflexivity.
  - reflexivity.
  - vm_compute. reflexivity.
  - exists vs. split; [exact Hvs|]. split; [exact Hlen | exact Hnames].
Defined.

(** ** Edits of a skeleton *)

Lemma refine_component_fst : forall sk name new_value,
  fst (Server.refine_component sk name new_value)
  = if Dict.mem name (sections sk)
    then mkSkeleton
           (Dict.set name (VStr new_value) (sections sk))
           (emphasis sk) (template sk) (negative_prompt sk)
           (mkMetadata (meta_category (metadata sk))
              (Server.token_estimate
                 (Dict.set name (VStr new_value) (sections sk)))
              (ready_for_synthesis (metadata sk))
              (Some (history sk ++ [name])%list))
    else sk.
Proof.
  intros sk name new_value. unfold Server.refine_component, history.
  destruct (Dict.mem name (sections sk)); reflexivity.
Qed.

(** X3: whatever sequence of [refine_component] calls, failed or not, a
    caller makes on a skeleton that [build_prompt_skeleton] returned, the
    skeleton keeps its section keys in their order, its emphasis, template,
    negative prompt and category; its token estimate is the one of its
    current sections; and its modification history names section keys
    only. *)
Theorem edited_skeleton_invariant :
  forall g transformed category weights sk0 sk,
    Server.build_prompt_skeleton g transformed category weights = Ok sk0 ->
    edited sk0 sk ->
    Dict.keys (sections sk) = Dict.keys (sections sk0)
    /\ emphasis sk = emphasis sk0
    /\ template sk = template sk0
    /\ negative_prompt sk = negative_prompt sk0
    /\ meta_category (metadata sk) = category
    /\ estimated_tokens (metadata sk) = Server.token_estimate (sections sk)
    /\ Forall (fun name => In name (Dict.keys (sections sk0))) (history sk).
Proof.
  intros g transformed category weights sk0 sk Hbuild Hedit.
  apply build_prompt_skeleton_ok in Hbuild.
  destruct Hbuild as (tpl & _ & _ & _ & _ & Hmeta).
  induction Hedit as [|sk name new_value Hedit IH].
  - rewrite Hmeta. unfold history. rewrite Hmeta.
    cbn [meta_category estimated_tokens user_modifications].
    repeat split. constructor.
  - destruct IH as (Hkeys & Hemp & Htpl & Hneg & Hcat & Htok & Hhist).
    rewrite refine_component_fst.
    destruct (Dict.mem name (sections sk)) eqn:Hmem.
    + cbn [sections emphasis template negative_prompt metadata meta_category
           estimated_tokens].
      split; [rewrite dict_set_keys_mem by exact Hmem; exact Hkeys|].
      repeat (split; [assumption || reflexivity|]).
      unfold history at 1. cbn [metadata user_modifications].
      apply Forall_app. split; [exact Hhist|].
      constructor; [|constructor].
      rewrite <- Hkeys. apply dict_mem_get in Hmem.
      destruct Hmem as (v & Hv). now apply dict_get_key with (v := v).
    + repeat (split; [assumption|]). exact Hhist.
Qed.

(** Two edits of the skeleton of "a red cat walking in the park", the
    second with an unknown name *)
Lemma edited_skeleton_invariant_witness :
  exists sk0 sk,
    Server.build_prompt_skeleton OlogLoader.globals
      [("subject", VStr "a cat"); ("colors", VStr "red")]
      "mascot_theater" red_cat_weights = Ok sk0
    /\ sk = fst (Server.refine_component
                   (fst (Server.refine_component sk0 "subject" "a dog"))
                   "mood" "calm")
    /\ edited sk0 sk
    /\ Dict.keys (sections sk) = ["subject"; "colors"]
    /\ history sk = ["subject"]
    /\ estimated_tokens (metadata sk) = Server.token_estimate (sections sk).
Proof.
  eexists. eexists.
  split; [vm_compute; reflexivity|].
  split; [reflexivity|].
  assert (Hed : forall sk0,
             edited sk0
               (fst (Server.refine_component
                       (fst (Server.refine_component sk0 "subject" "a dog"))
                       "mood" "calm"))).
  { intros sk0. apply edited_step. apply edited_step. apply edited_none. }
  split; [apply Hed|].
  split; [vm_compute; reflexivity|].
  split; [vm_compute; reflexivity|].
  refine (proj1 (proj2 (proj2 (proj2 (proj2 (proj2
            (edited_skeleton_invariant OlogLoader.globals
               [("subject", VStr "a cat"); ("colors", VStr "red")]
               "mascot_theater" red_cat_weights _ _ _ (Hed _)))))))).
  vm_compute. reflexivity.
Defined.

(** ** Two edits in a row *)

Lemma dict_set_set_same :
  forall (V : Type) (k : string) (v1 v2 : V) (d : Dict.t V),
    Dict.set k v2 (Dict.set k v1 d) = Dict.set k v2 d.
Proof.
  induction d as [|[k0 v0] d IH]; simpl.
  - now rewrite String.eqb_refl.
  - destruct (String.eqb_spec k k0) as [->|Hk]; simpl.
    + now rewrite String.eqb_refl.
    + destruct (String.eqb_spec k k0); [contradiction|]. now rewrite IH.
Qed.

Lemma dict_set_set_swap :
  forall (V : Type) (k1 k2 : string) (v1 v2 : V) (d : Dict.t V),
    k1 <> k2 -> Dict.mem k1 d = true -> Dict.mem k2 d = true ->
    Dict.set k2 v2 (Dict.set k1 v1 d) = Dict.set k1 v1 (Dict.set k2 v2 d).
Proof.
  unfold Dict.mem.
  induction d as [|[k0 v0] d IH]; simpl; intros Hne H1 H2; [discriminate H1|].
  destruct (String.eqb_spec k1 k0) as [->|Hk1];
    destruct (String.eqb_spec k2 k0) as [->|Hk2]; simpl.
  - contradiction.
  - destruct (String.eqb_spec k2 k0); [contradiction|].
    now rewrite String.eqb_refl.
  - rewrite String.eqb_refl.
    destruct (String.eqb_spec k1 k0); [contradiction | reflexivity].
  - destruct (String.eqb_spec k1 k0); [contradiction|].
    destruct (String.eqb_spec k2 k0); [contradiction|].
    now rewrite IH.
Qed.

Lemma dict_mem_set : forall (V : Type) (k k' : string) (v : V) (d : Dict.t V),
  Dict.mem k' d = true -> Dict.mem k' (Dict.set k v d) = true.
Proof.
  intros V k k' v d H. unfold Dict.mem.
  destruct (String.eqb_spec k' k) as [->|Hk].
  - now rewrite dict_get_set_same.
  - rewrite dict_get_set_other by exact Hk. exact H.
Qed.

(** X4: two successful edits compose.  A section that was edited can be
    edited again; of two edits of the same section the later value stays
    and both are in the history; edits of two different sections give the
    same sections in either order, and the history keeps the order of the
    calls. *)
Theorem refine_component_twice :
  forall sk n1 n2 v1 v2,
    Dict.mem n1 (sections sk) = true ->
    Dict.mem n2 (sections sk) = true ->
    let sk1 := fst (Server.refine_component sk n1 v1) in
    let sk12 := fst (Server.refine_component sk1 n2 v2) in
    let sk2 := fst (Server.refine_component sk n2 v2) in
    let sk21 := fst (Server.refine_component sk2 n1 v1) in
    snd (Server.refine_component sk1 n2 v2) = Ok tt
    /\ history sk12 = (history sk ++ [n1; n2])%list
    /\ history sk21 = (history sk ++ [n2; n1])%list
    /\ (n1 = n2 -> sections sk12 = sections sk2)
    /\ (n1 <> n2 -> sections sk12 = sections sk21)
    /\ Dict.get n2 (sections sk12) = Some (VStr v2)
    /\ estimated_tokens (metadata sk12) = Server.token_estimate (sections sk12).
Proof.
  intros sk n1 n2 v1 v2 H1 H2. cbv zeta.
  assert (H2' : Dict.mem n2 (Dict.set n1 (VStr v1) (sections sk)) = true)
    by now apply dict_mem_set.
  assert (H1' : Dict.mem n1 (Dict.set n2 (VStr v2) (sections sk)) = true)
    by now apply dict_mem_set.
  unfold Server.refine_component at 1.
  rewrite !refine_component_fst. rewrite H1, H2.
  cbn [sections negb]. rewrite H2', H1'.
  cbn [fst snd sections metadata estimated_tokens negb].
  split; [reflexivity|].
  unfold history. cbn [metadata user_modifications].
  fold (history sk).
  split; [now rewrite <- app_assoc|].
  split; [now rewrite <- app_assoc|].
  split; [intros ->; apply dict_set_set_same|].
  split; [intros Hne; symmetry; now apply dict_set_set_swap|].
  split; [apply dict_get_set_same | reflexivity].
Qed.

(** The subject and the colors of a small skeleton, edited in both orders *)
Lemma refine_component_twice_witness :
  let sk := mkSkeleton [("subject", VStr "a cat"); ("colors", VStr "red")]
                       [] (mkTemplate [] "") ""
                       (mkMetadata "mascot_theater" 2 true None) in
  Dict.mem "subject" (sections sk) = true
  /\ Dict.mem "colors" (sections sk) = true
  /\ history (fst (Server.refine_component
                     (fst (Server.refine_component sk "subject" "a dog"))
                     "colors" "blue"))
     = ["subject"; "colors"].
Proof.
  cbv zeta. split; [reflexivity|]. split; [reflexivity|].
  exact (proj1 (proj2
           (refine_component_twice
              (mkSkeleton [("subject", VStr "a cat"); ("colors", VStr "red")]
                          [] (mkTemplate [] "") ""
                          (mkMetadata "mascot_theater" 2 true None))
              "subject" "colors" "a dog" "blue" eq_refl eq_refl))).
Defined.

(** ** The process as initialized at import *)

(** X5: the first call of [get_templates] returns the empty dict and
    caches the template table, and every later call returns the cached
    table; in a process whose [TEMPLATES] is the result of that first call,
    [build_prompt_skeleton] raises [KeyError] for every category, and so
    does [generate_variants] for every valid count once the transformation
    has succeeded. *)
Theorem templates_empty_at_import :
  forall g parsed category weights t0 count transformed ws,
    TEMPLATES g = fst (OlogLoader.get_templates None) ->
    1 <= count <= 5 ->
    semantic_weights parsed = Some weights ->
    Server.apply_transformations g parsed category None = Ok t0 ->
    OlogLoader.get_templates None = ([], Some OlogLoader.template_map)
    /\ OlogLoader.get_templates (snd (OlogLoader.get_templates None))
       = (OlogLoader.template_map, Some OlogLoader.template_map)
    /\ Server.build_prompt_skeleton g transformed category ws
       = Raise (KeyError category)
    /\ Server.generate_variants g parsed category count
       = Raise (KeyError category).
Proof.
  intros g parsed category weights t0 count transformed ws
         Htpl Hcount Hw Ht0.
  split; [reflexivity|]. split; [reflexivity|].
  assert (Hbuild : forall t w,
             Server.build_prompt_skeleton g t category w
             = Raise (KeyError category)).
  { intros t w. unfold Server.build_prompt_skeleton, Dict.item.
    rewrite Htpl. reflexivity. }
  split; [apply Hbuild|].
  unfold Server.generate_variants.
  destruct (Z.ltb_spec count 1); [lia|].
  destruct (Z.ltb_spec 5 count); [lia|]. cbn [orb].
  assert (Hc : exists p ps,
             firstn (Z.to_nat count) Server.param_sets = p :: ps).
  { assert (Hn : Z.to_nat count = S (Z.to_nat (count - 1))) by lia.
    rewrite Hn. unfold Server.param_sets. cbn [firstn].
    eexists. eexists. reflexivity. }
  destruct Hc as (p & ps & ->).
  cbn [Server.variants_from]. unfold Server.variant.
  destruct (apply_transformations_any_params _ _ _ _ (Some p) _ Ht0)
    as (t & ->).
  rewrite Hw. cbn [bind]. rewrite Hbuild. reflexivity.
Qed.

(** "a red cat walking in the park" in the process as initialized *)
Lemma templates_empty_at_import_witness :
  TEMPLATES OlogLoader.globals_at_import = fst (OlogLoader.get_templates None)
  /\ semantic_weights red_cat = Some red_cat_weights
  /\ (exists t0,
        Server.apply_transformations OlogLoader.globals_at_import red_cat
                                     "mascot_theater" None = Ok t0)
  /\ Server.generate_variants OlogLoader.globals_at_import red_cat
                              "mascot_theater" 3
     = Raise (KeyError "mascot_theater").
Proof.
  split; [reflexivity|]. split; [reflexivity|].
  split; [eexists; vm_compute; reflexivity|].
  refine (proj2 (proj2 (proj2
            (templates_empty_at_import
               OlogLoader.globals_at_import red_cat "mascot_theater"
               red_cat_weights _ 3 [] [] eq_refl _ eq_refl _)))).
  - lia.
  - vm_compute. reflexivity.
Defined.

(** ** When the transformer raises *)

Lemma transform_subject_cases : forall s rules maps params,
  if (Dict.mem (subject_type s) (subject_rules rules)
      && is_none (subject_name s))%bool
  then Transformer.transform_subject s rules maps params
       = Raise join_type_error
  else exists fragment,
         Transformer.transform_subject s rules maps params = Ok fragment.
Proof.
  intros s rules maps params. unfold Transformer.transform_subject, Dict.mem.
  destruct (Dict.get (subject_type s) (subject_rules rules)) as [rule|];
    cbn [andb].
  - destruct (subject_name s) as [name|]; cbn [is_none].
    + eexists. reflexivity.
    + reflexivity.
  - eexists. reflexivity.
Qed.

Lemma transform_action_cases : forall a rules maps params,
  if (truthy (action_verb a)
      && negb (Dict.mem (action_energy_level a) (action_rules rules))
      && negb (Dict.mem "low_energy" (action_rules rules)))%bool
  then Transformer.transform_action a rules maps params
       = Raise (KeyError "low_energy")
  else exists fragment,
         Transformer.transform_action a rules maps params = Ok fragment.
Proof.
  intros a rules maps params. unfold Transformer.transform_action.
  destruct (truthy (action_verb a)); cbn [negb andb];
    [|eexists; reflexivity].
  destruct (Dict.mem (action_energy_level a) (action_rules rules)) eqn:Hmem;
    cbn [negb andb].
  - apply dict_mem_get in Hmem. destruct Hmem as (rule & Hrule).
    unfold Dict.item. rewrite Hrule. eexists. reflexivity.
  - unfold Dict.item, Dict.mem.
    destruct (Dict.get "low_energy" (action_rules rules)) as [rule|];
      cbn [negb].
    + eexists. reflexivity.
    + reflexivity.
Qed.

Lemma transform_typography_cases : forall s category params,
  existsb (String.eqb category) Transformer.typography_categories = true ->
  if (negb (truthy (subject_profession s)) && is_none (subject_name s))%bool
  then Transformer.transform_typography s category params = Raise no_upper
  else exists text,
         Transformer.transform_typography s category params = Ok (Some text).
Proof.
  intros s category params Hcat.
  assert (Hup : if (negb (truthy (subject_profession s))
                    && is_none (subject_name s))%bool
                then Transformer.upper_of
                       (if truthy (subject_profession s)
                        then subject_profession s else subject_name s)
                     = Raise no_upper
                else exists up,
                       Transformer.upper_of
                         (if truthy (subject_profession s)
                          then subject_profession s else subject_name s)
                       = Ok up).
  { destruct (truthy (subject_profession s)) eqn:Hprof; cbn [negb andb].
    - destruct (subject_profession s) as [prof|]; [|discriminate Hprof].
      eexists. reflexivity.
    - destruct (subject_name s) as [name|]; cbn [is_none].
      + eexists. reflexivity.
      + reflexivity. }
  unfold Transformer.transform_typography.
  unfold Transformer.typography_categories in Hcat. cbn [existsb] in Hcat.
  destruct (negb (truthy (subject_profession s)) && is_none (subject_name s))%bool.
  - rewrite Hup.
    destruct (String.eqb category "mascot_theater"); [reflexivity|].
    destruct (String.eqb category "kid_chaos"); [reflexivity|].
    destruct (String.eqb category "nostalgia_revival"); [reflexivity|].
    discriminate Hcat.
  - destruct Hup as (up & ->).
    destruct (String.eqb category "mascot_theater");
      [eexists; reflexivity|].
    destruct (String.eqb category "kid_chaos"); [eexists; reflexivity|].
    destruct (String.eqb category "nostalgia_revival");
      [eexists; reflexivity|].
    discriminate Hcat.
Qed.

(** The whole transformation, by its three ways to raise *)
Lemma apply_category_transformation_cases : forall c rules maps params,
  if subject_fails c rules
  then Transformer.apply_category_transformation c rules maps params
       = Raise join_type_error
  else if action_fails c rules
  then Transformer.apply_category_transformation c rules maps params
       = Raise (KeyError "low_energy")
  else if typography_fails c rules
  then Transformer.apply_category_transformation c rules maps params
       = Raise no_upper
  else exists subj act typo,
      Transformer.apply_category_transformation c rules maps params
      = Ok [("subject", VStr subj);
            ("action", VStr act);
            ("setting",
             VStr (Transformer.transform_setting (setting c) rules params));
            ("colors",
             VStr (Transformer.transform_colors (colors c) rules params));
            ("effects",
             VStr (Transformer.transform_effects
                     (Transformer.opt_default (rules_name rules) "unknown")
                     c params));
            ("style_markers", VList (mandatory_markers rules));
            ("typography", typo)]
      /\ Transformer.transform_subject (subject c) rules maps params = Ok subj
      /\ Transformer.transform_action (action c) rules maps params = Ok act.
Proof.
  intros c rules maps params.
  unfold Transformer.apply_category_transformation.
  unfold subject_fails, action_fails, typography_fails.
  pose proof (transform_subject_cases (subject c) rules maps params) as Hs.
  pose proof (transform_action_cases (action c) rules maps params) as Ha.
  destruct (Dict.mem (subject_type (subject c)) (subject_rules rules)
            && is_none (subject_name (subject c)))%bool.
  { now rewrite Hs. }
  destruct Hs as (subj & Hs). rewrite Hs. cbn [bind].
  destruct (truthy (action_verb (action c))
            && negb (Dict.mem (action_energy_level (action c))
                              (action_rules rules))
            && negb (Dict.mem "low_energy" (action_rules rules)))%bool.
  { now rewrite Ha. }
  destruct Ha as (act & Ha). rewrite Ha. cbn [bind].
  destruct (existsb
              (String.eqb (Transformer.opt_default (rules_name rules) "unknown"))
              Transformer.typography_categories) eqn:Hcat; cbn [andb].
  - pose proof (transform_typography_cases
                  (subject c)
                  (Transformer.opt_default (rules_name rules) "unknown")
                  params Hcat) as Ht.
    destruct (negb (truthy (subject_profession (subject c)))
              && is_none (subject_name (subject c)))%bool.
    + now rewrite Ht.
    + destruct Ht as (text & ->). cbn [bind].
      exists subj, act, (VStr text). repeat split.
  - cbn [bind]. exists subj, act, VNone. repeat split.
Qed.

(** X6: [apply_category_transformation] raises in exactly three
    situations, tested in this order: the rules have an entry for the
    subject's type and the subject has no name ([TypeError] from the join);
    there is a verb and the action table has neither the action's tier nor
    'low_energy' ([KeyError]); the category prints on-box text and the
    subject has neither a profession nor a name ([AttributeError] from
    [upper]).  In every other case it returns the seven fragments. *)
Theorem transformation_raises_exactly :
  forall c rules maps params,
    ((exists t,
         Transformer.apply_category_transformation c rules maps params = Ok t)
     <-> subject_fails c rules = false
         /\ action_fails c rules = false
         /\ typography_fails c rules = false)
    /\ (subject_fails c rules = true ->
        Transformer.apply_category_transformation c rules maps params
        = Raise join_type_error)
    /\ (subject_fails c rules = false -> action_fails c rules = true ->
        Transformer.apply_category_transformation c rules maps params
        = Raise (KeyError "low_energy"))
    /\ (subject_fails c rules = false -> action_fails c rules = false ->
        typography_fails c rules = true ->
        Transformer.apply_category_transformation c rules maps params
        = Raise no_upper).
Proof.
  intros c rules maps params.
  pose proof (apply_category_transformation_cases c rules maps params) as H.
  destruct (subject_fails c rules).
  { rewrite H. split; [split|].
    - intros (t & Ht). discriminate Ht.
    - intros (Hf & _). discriminate Hf.
    - split; [reflexivity|]. split; intros Hf; discriminate Hf. }
  destruct (action_fails c rules).
  { rewrite H. split; [split|].
    - intros (t & Ht). discriminate Ht.
    - intros (_ & Hf & _). discriminate Hf.
    - split; [intros Hf; discriminate Hf|]. split; [reflexivity|].
      intros _ Hf. discriminate Hf. }
  destruct (typography_fails c rules).
  { rewrite H. split; [split|].
    - intros (t & Ht). discriminate Ht.
    - intros (_ & _ & Hf). discriminate Hf.
    - split; [intros Hf; discriminate Hf|].
      split; [intros _ Hf; discriminate Hf | reflexivity]. }
  destruct H as (subj & act & typo & -> & _).
  split; [split|].
  - intros _. repeat split.
  - intros _. eexists. reflexivity.
  - split; [intros Hf; discriminate Hf|].
    split; [intros _ Hf; discriminate Hf | intros _ _ Hf; discriminate Hf].
Qed.

(** ** The catalog and the parser together *)

Lemma catalog_get : forall category,
  In category OlogLoader.category_names ->
  Dict.get category (CATEGORIES OlogLoader.globals)
  = Some (OlogLoader.build_category_structure category).
Proof.
  intros category H. unfold OlogLoader.category_names in H. simpl in H.
  destruct H as [<-|[<-|[<-|[<-|[<-|[<-|[<-|[]]]]]]]]; reflexivity.
Qed.

(** Every category the loader builds has the fallback entry 'low_energy'
    and no subject rule for 'abstract'. *)
Lemma built_category_facts : forall category,
  Dict.mem "low_energy"
           (action_rules (OlogLoader.build_category_structure category))
  = true
  /\ Dict.mem "abstract"
              (subject_rules (OlogLoader.build_category_structure category))
     = false
  /\ rules_name (OlogLoader.build_category_structure category)
     = Some category.
Proof.
  intros category. unfold OlogLoader.build_category_structure.
  cbn [action_rules subject_rules rules_name].
  unfold Dict.get_or, OlogLoader.action_map, OlogLoader.subject_rules_map.
  cbn [Dict.get].
  destruct (String.eqb category "mascot_theater");
    [repeat split|].
  destruct (String.eqb category "health_halo"); repeat split.
Qed.

(** X7: the catalog of the source applied to what the parser returns.
    For each of the seven categories: a prompt in which a subject is found
    is always transformed; a prompt without one is transformed by the four
    categories without on-box text, its subject fragment being "None", and
    makes the three categories with on-box text (mascot_theater, kid_chaos,
    nostalgia_revival) raise [AttributeError]. *)
Theorem catalog_transforms_parsed_prompts :
  forall prompt category style_params,
    In category OlogLoader.category_names ->
    match Parser.first_match Parser.subjects prompt with
    | Some _ =>
        exists t,
          Server.apply_transformations
            OlogLoader.globals
            (Parser.parse_prompt_components
               prompt (TRANSFORMATION_MAPS OlogLoader.globals))
            category style_params = Ok t
    | None =>
        if existsb (String.eqb category) Transformer.typography_categories
        then Server.apply_transformations
               OlogLoader.globals
               (Parser.parse_prompt_components
                  prompt (TRANSFORMATION_MAPS OlogLoader.globals))
               category style_params = Raise no_upper
        else exists t,
            Server.apply_transformations
              OlogLoader.globals
              (Parser.parse_prompt_components
                 prompt (TRANSFORMATION_MAPS OlogLoader.globals))
              category style_params = Ok t
            /\ Dict.get "subject" t = Some (VStr "None")
    end.
Proof.
  intros prompt category style_params Hcat.
  unfold Server.apply_transformations. rewrite (catalog_get _ Hcat).
  destruct (built_category_facts category) as (Hlow & Habs & Hname).
  set (rules := OlogLoader.build_category_structure category) in *.
  set (maps := TRANSFORMATION_MAPS OlogLoader.globals).
  set (params := match style_params with Some p => p | None => no_params end).
  set (c := Parser.parse_prompt_components prompt maps).
  assert (Hc : subject c = Parser.extract_subject prompt maps)
    by reflexivity.
  pose proof (apply_category_transformation_cases c rules maps params) as H.
  unfold subject_fails, action_fails, typography_fails in H.
  rewrite Hlow, Hname, Hc in H. cbn [negb Transformer.opt_default] in H.
  rewrite !andb_false_r in H.
  unfold Parser.extract_subject in H.
  destruct (Parser.first_match Parser.subjects prompt) as [[kind m]|].
  - cbn [subject_name is_none] in H. rewrite !andb_false_r in H.
    destruct H as (subj & act & typo & H & _). eexists. exact H.
  - unfold Parser.default_subject in H.
    cbn [subject_name subject_type subject_profession truthy is_none negb] in H.
    rewrite Habs in H. cbn [andb] in H. rewrite !andb_true_r in H.
    destruct (existsb (String.eqb category) Transformer.typography_categories).
    + exact H.
    + destruct H as (subj & act & typo & H & Hsubj & _).
      eexists. split; [exact H|].
      cbn [Dict.get String.eqb Ascii.eqb Bool.eqb].
      unfold Transformer.transform_subject in Hsubj.
      cbn [subject_type subject_name] in Hsubj.
      unfold Dict.mem in Habs.
      destruct (Dict.get "abstract" (subject_rules rules));
        [discriminate Habs|].
      injection Hsubj as <-. reflexivity.
Qed.

(** "hello world" has no subject: kid_chaos raises, health_halo returns. *)
Lemma catalog_transforms_parsed_prompts_witness :
  In "kid_chaos" OlogLoader.category_names
  /\ Server.apply_transformations
       OlogLoader.globals
       (Parser.parse_prompt_components
          "hello world" (TRANSFORMATION_MAPS OlogLoader.globals))
       "kid_chaos" None = Raise no_upper.
Proof.
  assert (H : In "kid_chaos" OlogLoader.category_names)
    by (vm_compute; tauto).
  split; [exact H|].
  exact (catalog_transforms_parsed_prompts "hello world" "kid_chaos" None H).
Defined.

(** ** The color, setting and negative fragments *)

Lemma join_two_more : forall (sep x y : string) (rest : list string),
  PyStr.join sep (x :: y :: rest)
  = x ++ sep ++ PyStr.join sep (y :: rest).
Proof. reflexivity. Qed.

Lemma append_assoc3 : forall a b c : string, (a ++ b) ++ c = a ++ b ++ c.
Proof.
  induction a as [|x a IH]; intros b c; simpl; [reflexivity|].
  now rewrite IH.
Qed.

Lemma append_empty : forall t : string, t ++ "" = t.
Proof.
  induction t as [|d t IH]; simpl; [reflexivity | now rewrite IH].
Qed.

Lemma join_second_item : forall (sep x y : string) (rest : list string),
  exists post, PyStr.join sep (x :: y :: rest) = x ++ sep ++ y ++ post.
Proof.
  intros sep x y rest. rewrite join_two_more. destruct rest as [|z rest].
  - exists "". cbn [PyStr.join String.concat]. now rewrite append_empty.
  - exists (sep ++ PyStr.join sep (z :: rest)). reflexivity.
Qed.

Lemma saturation_inside : forall a sat post : string,
  a ++ ", " ++ (sat ++ " saturation") ++ post
  = (a ++ ", " ++ sat) ++ " saturation" ++ post.
Proof.
  intros a sat post.
  rewrite (append_assoc3 sat " saturation" post).
  rewrite (append_assoc3 a (", " ++ sat) (" saturation" ++ post)).
  f_equal.
Qed.

Lemma colors_saturation : forall cs rules params,
  exists pre post,
    Transformer.transform_colors cs rules params
    = pre ++ " saturation" ++ post.
Proof.
  intros cs rules params. unfold Transformer.transform_colors.
  set (sat := match param_color_saturation params with
              | Some s => s
              | None => Transformer.opt_default
                          (cr_saturation (color_rules rules)) "medium"
              end).
  destruct cs as [|c cs].
  - set (d := Transformer.opt_default _ _).
    exists (d ++ ", " ++ sat), "".
    rewrite <- (saturation_inside d sat "").
    now rewrite append_empty.
  - match goal with
    | |- context [PyStr.join ", " (?l1 ++ ?l2 ++ ?l3)] =>
        generalize (l2 ++ l3)%list
    end.
    intros more. cbn [app].
    match goal with
    | |- context [PyStr.join ", " (?x :: ?y :: more)] =>
       set (first := x);
       destruct (join_second_item ", " first y more) as (post & Hpost)
    end.
    rewrite Hpost. exists (first ++ ", " ++ sat), post.
    apply saturation_inside.
Qed.

(** X8: the color fragment always states a saturation (so it is never
    empty); of the extracted colors only the first three are rendered; and
    with three or more of them the complementary accent the rules ask for
    is cut off with the rest. *)
Theorem transform_colors_palette :
  forall (colors : list string) (rules : Rules) (params : Params),
    (exists pre post,
        Transformer.transform_colors colors rules params
        = pre ++ " saturation" ++ post)
    /\ Transformer.transform_colors colors rules params <> ""
    /\ forall c1 c2 c3 rest,
         colors = c1 :: c2 :: c3 :: rest ->
         Transformer.transform_colors colors rules params
         = Transformer.transform_colors [c1; c2; c3] (without_accent rules)
                                        params.
Proof.
  intros colors rules params.
  pose proof (colors_saturation colors rules params) as Hsat.
  split; [exact Hsat|]. split.
  - destruct Hsat as (pre & post & ->). destruct pre; discriminate.
  - intros c1 c2 c3 rest ->.
    unfold Transformer.transform_colors, without_accent.
    cbn [color_rules cr_mappings cr_always_add cr_saturation cr_gradients
         cr_max_colors cr_default_palette].
    destruct (cr_always_add (color_rules rules)) as [a|]; [|reflexivity].
    destruct (String.eqb a "complementary accent color"); reflexivity.
Qed.

(** X9: when no setting pattern matches, the setting fragment starts with
    the word None, the rendering of the missing location, whatever the
    rules are: "None background" without a setting rule, "None" and the
    treatment with one. *)
Theorem settingless_prompt_renders_None :
  forall (prompt : string) (rules : Rules) (params : Params),
    Parser.first_match Parser.settings prompt = None ->
    (exists rest,
        Transformer.transform_setting (Parser.extract_setting prompt)
                                      rules params = "None " ++ rest)
    /\ (Dict.mem "abstract" (setting_rules rules) = false ->
        Transformer.transform_setting (Parser.extract_setting prompt)
                                      rules params = "None background").
Proof.
  intros prompt rules params Hnone.
  unfold Parser.extract_setting. rewrite Hnone.
  unfold Transformer.transform_setting, Parser.default_setting.
  cbn [setting_type setting_location setting_time fmt truthy].
  change (PyStr.contains "indoor" "abstract") with false.
  change (PyStr.contains "outdoor" "abstract") with false.
  cbn iota.
  assert (Hkey : (if Dict.mem "abstract" (setting_rules rules)
                  then "abstract" else "abstract") = "abstract")
    by (destruct (Dict.mem "abstract" (setting_rules rules)); reflexivity).
  rewrite Hkey. unfold Dict.mem.
  destruct (Dict.get "abstract" (setting_rules rules)) as [rule|].
  - split; [|discriminate].
    destruct (Transformer.nonempty_str (st_elements rule));
      destruct (Transformer.nonempty_str (st_background rule));
      cbn [app PyStr.join String.concat]; eexists; reflexivity.
  - split; [exists "background"; reflexivity | reflexivity].
Qed.

(** "hello world" names no setting. *)
Lemma settingless_prompt_renders_None_witness :
  Parser.first_match Parser.settings "hello world" = None
  /\ Transformer.transform_setting (Parser.extract_setting "hello world")
                                   mascot_theater no_params
     = "None radial_sunburst, with concentric circles or radiating lines, bright primary color".
Proof.
  assert (H : Parser.first_match Parser.settings "hello world" = None)
    by (vm_compute; reflexivity).
  split; [exact H|].
  destruct (proj1 (settingless_prompt_renders_None
                     "hello world" mascot_theater no_params H))
    as (rest & Hrest).
  vm_compute. reflexivity.
Defined.

(** ** The order of the sections *)

Lemma dict_mem_keys : forall (V : Type) (k : string) (d : Dict.t V),
  Dict.mem k d = existsb (String.eqb k) (Dict.keys d).
Proof.
  unfold Dict.mem. induction d as [|[k0 v0] d IH]; simpl; [reflexivity|].
  destruct (String.eqb k k0); [reflexivity | exact IH].
Qed.

Lemma dict_mem_false : forall (V : Type) (k : string) (d : Dict.t V),
  Dict.mem k d = false <-> ~ In k (Dict.keys d).
Proof.
  intros V k d. rewrite dict_mem_keys. split.
  - intros H Hin. assert (Ht : existsb (String.eqb k) (Dict.keys d) = true).
    { apply existsb_exists. exists k. split; [exact Hin|].
      apply String.eqb_refl. }
    congruence.
  - intros H. destruct (existsb (String.eqb k) (Dict.keys d)) eqn:E;
      [|reflexivity].
    apply existsb_exists in E. destruct E as (x & Hx & Heq).
    apply String.eqb_eq in Heq. subst x. contradiction.
Qed.

Lemma dict_set_keys_fresh :
  forall (V : Type) (k : string) (v : V) (d : Dict.t V),
    Dict.mem k d = false ->
    Dict.keys (Dict.set k v d) = (Dict.keys d ++ [k])%list.
Proof.
  unfold Dict.mem. induction d as [|[k0 v0] d IH]; simpl; intros H;
    [reflexivity|].
  destruct (String.eqb k k0); [discriminate H|].
  simpl. f_equal. now apply IH.
Qed.

Lemma dict_set_wf : forall (V : Type) (k : string) (v : V) (d : Dict.t V),
  Dict.wf d -> Dict.wf (Dict.set k v d).
Proof.
  intros V k v d Hwf. unfold Dict.wf in *.
  destruct (Dict.mem k d) eqn:Hmem.
  - now rewrite dict_set_keys_mem.
  - rewrite dict_set_keys_fresh by exact Hmem.
    apply dict_mem_false in Hmem.
    apply NoDup_app; [exact Hwf | repeat constructor; intros [] |].
    intros x Hx [<-|[]]. contradiction.
Qed.

Section Ordering.

Variable components : Dict.t value.

Let step1 (ordered : Dict.t value) (key : string) : Dict.t value :=
  match Dict.get key components with
  | Some v => if value_truthy v then Dict.set key v ordered else ordered
  | None => ordered
  end.

Let step2 (ordered : Dict.t value) (kv : string * value) : Dict.t value :=
  if (negb (Dict.mem (fst kv) ordered) && value_truthy (snd kv))%bool
  then Dict.set (fst kv) (snd kv) ordered
  else ordered.

(** The first loop appends the kept keys of the emphasis order. *)
Lemma first_loop_keys : forall (order : list string) (acc : Dict.t value),
  NoDup order ->
  (forall k, In k order -> Dict.mem k acc = false) ->
  Dict.keys (fold_left step1 order acc)
  = (Dict.keys acc ++ filter (kept components) order)%list.
Proof.
  induction order as [|key order IH]; intros acc Hnd Hfresh; simpl.
  - now rewrite app_nil_r.
  - inversion Hnd as [|? ? Hnot Hnd']; subst.
    unfold step1 at 2. unfold kept at 1.
    destruct (Dict.get key components) as [v|] eqn:Hget.
    + destruct (value_truthy v) eqn:Htruthy.
      * rewrite IH.
        -- rewrite dict_set_keys_fresh by (apply Hfresh; now left).
           now rewrite <- app_assoc.
        -- exact Hnd'.
        -- intros k Hk. unfold Dict.mem.
           rewrite dict_get_set_other by (intros ->; contradiction).
           apply Hfresh. now right.
      * apply IH; [exact Hnd'|]. intros k Hk. apply Hfresh. now right.
    + apply IH; [exact Hnd'|]. intros k Hk. apply Hfresh. now right.
Qed.

(** The second loop appends the non-empty entries that are not there yet,
    in insertion order. *)
Lemma second_loop_keys :
  forall (l : list (string * value)) (acc : Dict.t value),
    NoDup (map fst l) ->
    Dict.keys (fold_left step2 l acc)
    = (Dict.keys acc
       ++ map fst (filter (fun kv => negb (Dict.mem (fst kv) acc)
                                     && value_truthy (snd kv))%bool l))%list.
Proof.
  induction l as [|[k v] l IH]; intros acc Hnd; simpl.
  - now rewrite app_nil_r.
  - inversion Hnd as [|? ? Hnot Hnd']; subst.
    unfold step2 at 2. cbn [fst snd].
    destruct (negb (Dict.mem k acc) && value_truthy v)%bool eqn:Hcond.
    + rewrite IH by exact Hnd'.
      apply andb_true_iff in Hcond. destruct Hcond as [Hmem _].
      apply negb_true_iff in Hmem.
      rewrite dict_set_keys_fresh by exact Hmem.
      rewrite <- app_assoc. cbn [map app fst]. f_equal. f_equal. f_equal.
      apply filter_ext_in. intros [k' v'] Hin. cbn [fst snd].
      unfold Dict.mem. rewrite dict_get_set_other; [reflexivity|].
      intros ->. apply Hnot. change k with (fst (k, v')). now apply in_map.
    + apply IH. exact Hnd'.
Qed.

Lemma order_by_importance_folds :
  forall (w : Dict.t Z) (order : list string),
    Utils.order_by_importance components w order
    = fold_left step2 components (fold_left step1 order []).
Proof. reflexivity. Qed.

(** Every section is a non-empty component, with its value. *)
Lemma order_by_importance_sound :
  forall (w : Dict.t Z) (order : list string) (k : string) (v : value),
    Dict.wf components ->
    Dict.get k (Utils.order_by_importance components w order) = Some v ->
    Dict.get k components = Some v /\ value_truthy v = true.
Proof.
  intros w order k v Hwf. rewrite order_by_importance_folds.
  revert k v.
  apply fold_left_invariant
    with (P := fun d : Dict.t value =>
                 forall k v, Dict.get k d = Some v ->
                             Dict.get k components = Some v
                             /\ value_truthy v = true).
  - apply fold_left_invariant
      with (P := fun d : Dict.t value =>
                   forall k v, Dict.get k d = Some v ->
                               Dict.get k components = Some v
                               /\ value_truthy v = true).
    + intros k v H. discriminate H.
    + intros d key _ Hd k v. unfold step1.
      destruct (Dict.get key components) as [v0|] eqn:Hget; [|apply Hd].
      destruct (value_truthy v0) eqn:Ht; [|apply Hd].
      destruct (String.eqb_spec k key) as [->|Hk].
      * rewrite dict_get_set_same. intros H. injection H as <-. now split.
      * rewrite dict_get_set_other by exact Hk. apply Hd.
  - intros d [k0 v0] Hin Hd k v. unfold step2. cbn [fst snd].
    destruct (negb (Dict.mem k0 d) && value_truthy v0)%bool eqn:Hcond;
      [|apply Hd].
    apply andb_true_iff in Hcond. destruct Hcond as [_ Ht].
    destruct (String.eqb_spec k k0) as [->|Hk].
    + rewrite dict_get_set_same. intros H. injection H as <-.
      split; [now apply dict_in_get | exact Ht].
    + rewrite dict_get_set_other by exact Hk. apply Hd.
Qed.

Lemma order_by_importance_wf :
  forall (w : Dict.t Z) (order : list string),
    Dict.wf (Utils.order_by_importance components w order).
Proof.
  intros w order. rewrite order_by_importance_folds.
  apply fold_left_invariant with (P := fun d : Dict.t value => Dict.wf d).
  - apply fold_left_invariant with (P := fun d : Dict.t value => Dict.wf d).
    + constructor.
    + intros d key _ Hd. unfold step1.
      destruct (Dict.get key components) as [v|]; [|exact Hd].
      destruct (value_truthy v); [now apply dict_set_wf | exact Hd].
  - intros d kv _ Hd. unfold step2.
    destruct (negb (Dict.mem (fst kv) d) && value_truthy (snd kv))%bool;
      [now apply dict_set_wf | exact Hd].
Qed.

End Ordering.

(** X11: the sections [order_by_importance] returns, for a dict of
    components and an emphasis order without repetition.  The keys are
    first those of the emphasis order that have a non-empty component, in
    that order, then the other non-empty components in their insertion
    order; each section has the value of its component; empty and missing
    components give no section; no key is repeated. *)
Theorem order_by_importance_sections :
  forall (components : Dict.t value) (w : Dict.t Z) (order : list string),
    Dict.wf components ->
    NoDup order ->
    Dict.keys (Utils.order_by_importance components w order)
    = (filter (kept components) order
       ++ filter (fun k => kept components k
                           && negb (existsb (String.eqb k) order))%bool
                 (Dict.keys components))%list
    /\ (forall k,
           Dict.get k (Utils.order_by_importance components w order)
           = if kept components k then Dict.get k components else None)
    /\ Dict.wf (Utils.order_by_importance components w order).
Proof.
  intros components w order Hwf Hnd.
  split; [|split].
  - rewrite order_by_importance_folds.
    rewrite second_loop_keys by exact Hwf.
    rewrite first_loop_keys; [|exact Hnd | reflexivity].
    cbn [Dict.keys map app]. f_equal.
    unfold Dict.keys.
    assert (Hmap : forall (P : string -> bool) (l : list (string * value)),
               map fst (filter (fun kv => P (fst kv)) l)
               = filter P (map fst l)).
    { induction l as [|kv l IH]; simpl; [reflexivity|].
      destruct (P (fst kv)); simpl; now rewrite IH. }
    rewrite <- Hmap. f_equal.
    apply filter_ext_in. intros [k v] Hin. cbn [fst snd].
    assert (Hget : Dict.get k components = Some v)
      by now apply dict_in_get.
    unfold kept at 1. rewrite Hget.
    destruct (value_truthy v) eqn:Ht; [|now rewrite andb_false_r].
    rewrite andb_true_r. cbn [andb]. f_equal.
    rewrite dict_mem_keys.
    rewrite first_loop_keys; [|exact Hnd | reflexivity].
    cbn [Dict.keys map app].
    destruct (existsb (String.eqb k) order) eqn:E.
    + apply existsb_exists. apply existsb_exists in E.
      destruct E as (x & Hx & Heq). exists x. split; [|exact Heq].
      apply filter_In. split; [exact Hx|].
      apply String.eqb_eq in Heq. subst x. unfold kept. now rewrite Hget.
    + destruct (existsb (String.eqb k) (filter (kept components) order))
        eqn:E'; [|reflexivity].
      apply existsb_exists in E'. destruct E' as (x & Hx & Heq).
      apply filter_In in Hx. destruct Hx as [Hx _].
      assert (Ht' : existsb (String.eqb k) order = true)
        by (apply existsb_exists; now exists x).
      congruence.
  - intros k. unfold kept.
    destruct (Dict.get k components) as [v|] eqn:Hget.
    + destruct (value_truthy v) eqn:Ht.
      * pose proof (order_by_importance_complete components w order k v
                      Hget Ht) as Hin.
        destruct (Dict.get k (Utils.order_by_importance components w order))
          as [v'|] eqn:Hres.
        -- apply order_by_importance_sound in Hres; [|exact Hwf].
           destruct Hres as [Hres _]. congruence.
        -- exfalso. assert (Hm : Dict.mem k (Utils.order_by_importance
                                               components w order) = false)
             by (unfold Dict.mem; now rewrite Hres).
           apply dict_mem_false in Hm. contradiction.
      * destruct (Dict.get k (Utils.order_by_importance components w order))
          as [v'|] eqn:Hres; [|reflexivity].
        apply order_by_importance_sound in Hres; [|exact Hwf].
        destruct Hres as [Hres Ht']. congruence.
    + destruct (Dict.get k (Utils.order_by_importance components w order))
        as [v'|] eqn:Hres; [|reflexivity].
      apply order_by_importance_sound in Hres; [|exact Hwf].
      destruct Hres as [Hres _]. congruence.
  - apply order_by_importance_wf.
Qed.

(** Four components, two of them empty, under an order that names three *)
Lemma order_by_importance_sections_witness :
  Dict.wf [("subject", VStr "a cat"); ("action", VStr "");
           ("colors", VStr "red"); ("typography", VNone);
           ("effects", VStr "sparkles")]
  /\ NoDup ["colors"; "action"; "subject"]
  /\ Dict.keys
       (Utils.order_by_importance
          [("subject", VStr "a cat"); ("action", VStr "");
           ("colors", VStr "red"); ("typography", VNone);
           ("effects", VStr "sparkles")]
          [] ["colors"; "action"; "subject"])
     = ["colors"; "subject"; "effects"].
Proof.
  assert (H1 : Dict.wf [("subject", VStr "a cat"); ("action", VStr "");
                        ("colors", VStr "red"); ("typography", VNone);
                        ("effects", VStr "sparkles")]) by solve_wf.
  assert (H2 : NoDup ["colors"; "action"; "subject"]) by solve_nodup.
  split; [exact H1|]. split; [exact H2|].
  rewrite (proj1 (order_by_importance_sections _ [] _ H1 H2)).
  reflexivity.
Defined.

(** ** The action and the mood of a prompt *)

Lemma contains_trans : forall a b c : string,
  PyStr.contains a b = true -> PyStr.contains b c = true ->
  PyStr.contains a c = true.
Proof.
  intros a b c Hab Hbc.
  apply contains_substring in Hab. destruct Hab as (p & q & ->).
  apply contains_substring in Hbc. destruct Hbc as (pre & post & ->).
  apply contains_substring. exists (pre ++ p), (q ++ post).
  now rewrite !append_assoc3.
Qed.

(** [first_word] by its result: nothing of the table occurs in the text,
    or the word found occurs in it, stands in the reported tier, and no
    word of an earlier tier occurs. *)
Lemma first_word_spec :
  forall (table : Dict.t (list string)) (text : string),
    match Parser.first_word table text with
    | None =>
        forall tier ws w, In (tier, ws) table -> In w ws ->
                          PyStr.contains w text = false
    | Some (tier, w) =>
        PyStr.contains w text = true
        /\ exists before ws after,
             table = (before ++ (tier, ws) :: after)%list
             /\ In w ws
             /\ forall tier' ws' w', In (tier', ws') before -> In w' ws' ->
                                     PyStr.contains w' text = false
    end.
Proof.
  induction table as [|[t ws] table IH]; intros text; simpl.
  - intros tier ws w [].
  - destruct (find (fun w => PyStr.contains w text) ws) as [w|] eqn:Hf.
    + apply find_some in Hf. destruct Hf as [Hin Hc].
      split; [exact Hc|]. exists [], ws, table. split; [reflexivity|].
      split; [exact Hin|]. intros ? ? ? [].
    + specialize (IH text).
      destruct (Parser.first_word table text) as [[tier w]|].
      * destruct IH as (Hc & before & ws' & after & -> & Hin & Hnone).
        split; [exact Hc|].
        exists ((t, ws) :: before), ws', after.
        split; [reflexivity|]. split; [exact Hin|].
        intros tier' ws'' w' [Heq|Hb] Hw'.
        -- injection Heq as <- <-.
           apply (find_none _ _ Hf w' Hw').
        -- now apply (Hnone tier' ws'' w').
      * intros tier ws' w [Heq|Hin] Hw.
        -- injection Heq as <- <-. apply (find_none _ _ Hf w Hw).
        -- now apply (IH tier ws' w).
Qed.

(** X12: the action of a prompt.  Without any verb of the table in the
    lower-cased prompt it is the default action; otherwise the verb is a
    verb of the table that occurs there, the energy is 'high', 'medium' or
    'low' and never anything else, and the progressive flag is set; so the
    flag is set exactly when a verb was found.  A high-energy verb anywhere
    in the prompt makes the energy 'high', whatever other verbs come before
    it in the text. *)
Theorem extract_action_spec : forall prompt : string,
  (match action_verb (Parser.extract_action prompt) with
   | None =>
       Parser.extract_action prompt = Parser.default_action
       /\ forall tier ws w, In (tier, ws) Parser.actions -> In w ws ->
            PyStr.contains w (PyStr.lower prompt) = false
   | Some verb =>
       PyStr.contains verb (PyStr.lower prompt) = true
       /\ (exists tier ws, In (tier, ws) Parser.actions /\ In verb ws)
       /\ In (action_energy_level (Parser.extract_action prompt))
             ["high"; "medium"; "low"]
       /\ action_progressive (Parser.extract_action prompt) = true
   end)
  /\ (action_progressive (Parser.extract_action prompt)
      = negb (is_none (action_verb (Parser.extract_action prompt))))
  /\ (forall w, In w high_energy_verbs ->
        PyStr.contains w (PyStr.lower prompt) = true ->
        action_energy_level (Parser.extract_action prompt) = "high"
        /\ exists verb, action_verb (Parser.extract_action prompt) = Some verb
                        /\ In verb high_energy_verbs).
Proof.
  intros prompt.
  pose proof (first_word_spec Parser.actions (PyStr.lower prompt)) as Hspec.
  unfold Parser.extract_action.
  destruct (Parser.first_word Parser.actions (PyStr.lower prompt))
    as [[tier verb]|].
  - destruct Hspec as (Hc & before & ws & after & Htable & Hin & Hnone).
    cbn [action_verb action_energy_level action_progressive is_none negb].
    assert (Hcases :
              (before = [] /\ tier = "high_energy")
              \/ (exists hs, before = [("high_energy", hs)]
                             /\ hs = high_energy_verbs
                             /\ tier = "medium_energy")
              \/ (exists hs ms, before = [("high_energy", hs); ms]
                                /\ hs = high_energy_verbs
                                /\ tier = "low_energy")).
    { unfold Parser.actions in Htable.
      destruct before as [|b1 before].
      - left. injection Htable as <- _ _. now split.
      - injection Htable as <- Htable. right.
        destruct before as [|b2 before].
        + left. injection Htable as <- _ _. eexists. repeat split.
        + injection Htable as <- Htable. right.
          destruct before as [|b3 before].
          * injection Htable as <- _ _. eexists. eexists. repeat split.
          * injection Htable as _ Htable.
            destruct before; discriminate Htable. }
    assert (Hing : PyStr.contains "ing" verb = true).
    { assert (Hall : forall t vs v, In (t, vs) Parser.actions -> In v vs ->
                                    PyStr.contains "ing" v = true).
      { intros t vs v Ht Hv. unfold Parser.actions in Ht. simpl in Ht.
        destruct Ht as [Ht|[Ht|[Ht|[]]]]; injection Ht as <- <-;
          simpl in Hv;
          repeat (destruct Hv as [<-|Hv]; [reflexivity|]); contradiction. }
      apply (Hall tier ws). rewrite Htable. apply in_elt. exact Hin. }
    assert (Hprog : PyStr.contains "ing" (PyStr.lower prompt) = true)
      by (eapply contains_trans; eassumption).
    split; [|split].
    + split; [exact Hc|]. split.
      * exists tier, ws. split; [|exact Hin]. rewrite Htable. apply in_elt.
      * split; [|exact Hprog].
        destruct Hcases as [(_ & ->)|[(hs & _ & _ & ->)|(hs & ms & _ & _ & ->)]];
          vm_compute; tauto.
    + exact Hprog.
    + intros w Hw Hcw.
      destruct Hcases as [(-> & ->)|[(hs & -> & -> & ->)|(hs & ms & -> & -> & ->)]].
      * split; [reflexivity|]. exists verb. split; [reflexivity|].
        unfold Parser.actions in Htable. injection Htable as <- _.
        exact Hin.
      * rewrite (Hnone "high_energy" high_energy_verbs w) in Hcw;
          [discriminate Hcw | now left | exact Hw].
      * rewrite (Hnone "high_energy" high_energy_verbs w) in Hcw;
          [discriminate Hcw | now left | exact Hw].
  - cbn [action_verb action_progressive is_none negb Parser.default_action].
    split; [|split].
    + split; [reflexivity | exact Hspec].
    + reflexivity.
    + intros w Hw Hcw.
      rewrite (Hspec "high_energy" high_energy_verbs w) in Hcw;
        [discriminate Hcw | now left | exact Hw].
Qed.

(** X13: the mood of a prompt.  Without any emotion word of the table in
    the lower-cased prompt it is the default mood, of intensity 'medium'
    even when the prompt says "very"; otherwise the emotion is a word of
    the table that occurs there, the valence is the tier of that word, and
    the intensity is 'high' with "very" or "extremely", else 'low' with
    "slightly" or "a bit", else 'medium'.  A positive emotion word anywhere
    in the prompt makes the valence 'positive', whatever negative or
    neutral words the prompt has as well. *)
Theorem extract_mood_spec : forall prompt : string,
  (match mood_emotion (Parser.extract_mood prompt) with
   | None =>
       Parser.extract_mood prompt = Parser.default_mood
       /\ forall tier ws w, In (tier, ws) Parser.emotions -> In w ws ->
            PyStr.contains w (PyStr.lower prompt) = false
   | Some emotion =>
       PyStr.contains emotion (PyStr.lower prompt) = true
       /\ (exists ws,
              In (mood_valence (Parser.extract_mood prompt), ws)
                 Parser.emotions
              /\ In emotion ws)
       /\ mood_intensity (Parser.extract_mood prompt)
          = intensity_of (PyStr.lower prompt)
   end)
  /\ (forall w, In w positive_emotions ->
        PyStr.contains w (PyStr.lower prompt) = true ->
        mood_valence (Parser.extract_mood prompt) = "positive").
Proof.
  intros prompt.
  pose proof (first_word_spec Parser.emotions (PyStr.lower prompt)) as Hspec.
  unfold Parser.extract_mood.
  destruct (Parser.first_word Parser.emotions (PyStr.lower prompt))
    as [[valence emotion]|].
  - destruct Hspec as (Hc & before & ws & after & Htable & Hin & Hnone).
    cbn [mood_emotion mood_valence mood_intensity].
    split.
    + split; [exact Hc|]. split; [|reflexivity].
      exists ws. split; [|exact Hin]. rewrite Htable. apply in_elt.
    + intros w Hw Hcw.
      destruct before as [|[t1 ws1] before].
      * unfold Parser.emotions in Htable. now injection Htable as <- _ _.
      * unfold Parser.emotions in Htable. injection Htable as <- <- _.
        rewrite (Hnone "positive" positive_emotions w) in Hcw;
          [discriminate Hcw | now left | exact Hw].
  - cbn [mood_emotion mood_valence Parser.default_mood].
    split.
    + split; [reflexivity | exact Hspec].
    + intros w Hw Hcw.
      rewrite (Hspec "positive" positive_emotions w) in Hcw;
        [discriminate Hcw | now left | exact Hw].
Qed.

(** ** The matcher against what a pattern denotes *)

Lemma eat_passes : forall (lit bef aft bef' aft' : string),
  Re.eat lit bef aft = Some (bef', aft') ->
  exists t, aft = t ++ aft' /\ bef' = push t bef
            /\ PyStr.lower t = PyStr.lower lit.
Proof.
  induction lit as [|c lit IH]; intros bef aft bef' aft' H; simpl in H.
  - injection H as <- <-. exists "". repeat split.
  - destruct aft as [|d aft]; [discriminate H|].
    destruct (Ascii.eqb_spec (PyStr.lower_char c) (PyStr.lower_char d))
      as [Hcd|_]; [|discriminate H].
    apply IH in H. destruct H as (t & -> & -> & Hlow).
    exists (String d t). repeat split.
    unfold PyStr.lower in *. simpl. now rewrite Hlow, Hcd.
Qed.

Lemma many_passes :
  forall (R : Type) (p : ascii -> bool) (aft bef : string)
         (k : string -> string -> option R) (x : R),
    Re.many p bef aft k = Some x ->
    exists t rest, aft = t ++ rest /\ all_chars p t = true
                   /\ k (push t bef) rest = Some x.
Proof.
  induction aft as [|c aft IH]; intros bef k x H; simpl in H.
  - exists "", "". repeat split. exact H.
  - destruct (p c) eqn:Hp.
    + destruct (Re.many p (String c bef) aft k) as [y|] eqn:Hm.
      * injection H as ->. apply IH in Hm.
        destruct Hm as (t & rest & -> & Hall & Hk).
        exists (String c t), rest. repeat split; [|exact Hk].
        simpl. now rewrite Hp, Hall.
      * exists "", (String c aft). repeat split. exact H.
    + exists "", (String c aft). repeat split. exact H.
Qed.

Lemma many1_passes :
  forall (R : Type) (p : ascii -> bool) (aft bef : string)
         (k : string -> string -> option R) (x : R),
    Re.many1 p bef aft k = Some x ->
    exists t rest, aft = t ++ rest /\ t <> "" /\ all_chars p t = true
                   /\ k (push t bef) rest = Some x.
Proof.
  intros R p aft bef k x H. unfold Re.many1 in H.
  destruct aft as [|c aft]; [discriminate H|].
  destruct (p c) eqn:Hp; [|discriminate H].
  apply many_passes in H. destruct H as (t & rest & -> & Hall & Hk).
  exists (String c t), rest. repeat split; [discriminate | | exact Hk].
  simpl. now rewrite Hp, Hall.
Qed.

(** Whatever the matcher hands to its continuation is a state the pattern
    denotes. *)
Lemma run_denotes :
  forall (R : Type) (r : Re.t) (s : Re.state) (k : Re.state -> option R)
         (x : R),
    Re.run r s k = Some x ->
    exists s', denotes r s s' /\ k s' = Some x.
Proof.
  intros R r. induction r as [l| | | | | |a IHa b IHb|a IHa|n a IHa|a IHa b IHb];
    intros s k x H; cbn [Re.run] in H.
  - destruct (Re.eat l (Re.before s) (Re.after s)) as [[bef aft]|] eqn:He;
      [|discriminate H].
    apply eat_passes in He. destruct He as (t & Haft & Hbef & Hlow).
    eexists. split; [|exact H]. exists t. split; [|exact Hlow].
    repeat split; assumption.
  - apply many1_passes in H. destruct H as (t & rest & Haft & Hne & Hall & Hk).
    eexists. split; [|exact Hk]. exists t. repeat split; assumption.
  - apply many1_passes in H. destruct H as (t & rest & Haft & Hne & Hall & Hk).
    eexists. split; [|exact Hk]. exists t. repeat split; assumption.
  - apply many_passes in H. destruct H as (t & rest & Haft & Hall & Hk).
    eexists. split; [|exact Hk]. exists t. repeat split; assumption.
  - destruct (Re.at_boundary s) eqn:Hb; [|discriminate H].
    exists s. repeat split; assumption.
  - discriminate H.
  - destruct (Re.run a s k) as [y|] eqn:Ha.
    + injection H as ->. apply IHa in Ha. destruct Ha as (s' & Hd & Hk).
      exists s'. split; [now left | exact Hk].
    + apply IHb in H. destruct H as (s' & Hd & Hk).
      exists s'. split; [now right | exact Hk].
  - destruct (Re.run a s k) as [y|] eqn:Ha.
    + injection H as ->. apply IHa in Ha. destruct Ha as (s' & Hd & Hk).
      exists s'. split; [now left | exact Hk].
    + exists s. split; [now right | exact H].
  - apply IHa in H. destruct H as (s1 & Hd & Hk).
    eexists. split; [|exact Hk]. exists s1. split; [exact Hd | reflexivity].
  - apply IHa in H. destruct H as (s1 & Hd1 & Hk).
    apply IHb in Hk. destruct Hk as (s' & Hd2 & Hk).
    exists s'. split; [|exact Hk]. exists s1. now split.
Qed.

Lemma match_at_denotes : forall (r : Re.t) (bef aft : string) (m : Re.match_),
  Re.match_at r bef aft = Some m ->
  Re.m_from m = aft
  /\ denotes r (Re.mkState bef aft []) (Re.m_end m).
Proof.
  intros r bef aft m H. unfold Re.match_at in H.
  apply run_denotes in H. destruct H as (s' & Hd & Hk).
  injection Hk as <-. split; [reflexivity | exact Hd].
Qed.

(** A search finds a match at some position of the text. *)
Lemma search_from_position :
  forall (r : Re.t) (aft bef : string) (m : Re.match_),
    Re.search_from r bef aft = Some m ->
    exists pre aft',
      aft = pre ++ aft'
      /\ Re.match_at r (push pre bef) aft' = Some m.
Proof.
  induction aft as [|c aft IH]; intros bef m H; simpl in H.
  - destruct (Re.match_at r bef "") as [m'|] eqn:Hm; [|discriminate H].
    injection H as ->. exists "", "". split; [reflexivity | exact Hm].
  - destruct (Re.match_at r bef (String c aft)) as [m'|] eqn:Hm.
    + injection H as ->. exists "", (String c aft).
      split; [reflexivity | exact Hm].
    + apply IH in H. destruct H as (pre & aft' & -> & Hm').
      exists (String c pre), aft'. split; [reflexivity | exact Hm'].
Qed.

Lemma length_append : forall a b : string,
  String.length (a ++ b) = (String.length a + String.length b)%nat.
Proof.
  induction a as [|c a IH]; intros b; simpl; [reflexivity | now rewrite IH].
Qed.

Lemma substring_prefix : forall t rest : string,
  substring 0 (String.length t) (t ++ rest) = t.
Proof.
  induction t as [|c t IH]; intros rest; simpl.
  - now destruct rest.
  - now rewrite IH.
Qed.

Lemma consumed_append : forall t rest : string,
  Re.consumed (t ++ rest) rest = t.
Proof.
  intros t rest. unfold Re.consumed. rewrite length_append.
  replace (String.length t + String.length rest - String.length rest)%nat
    with (String.length t) by lia.
  apply substring_prefix.
Qed.

(** An alternation of words passes a text that is one of the words up to
    letter case. *)
Lemma alts_denotes : forall (ws : list string) (s s' : Re.state),
  denotes (Re.alts ws) s s' ->
  exists w t, In w ws /\ passes t s s' /\ PyStr.lower t = PyStr.lower w.
Proof.
  induction ws as [|w ws IH]; intros s s' H; simpl in H; [contradiction|].
  destruct H as [(t & Hp & Hlow)|H].
  - exists w, t. split; [now left | now split].
  - apply IH in H. destruct H as (w' & t & Hin & Hp & Hlow).
    exists w', t. split; [now right | now split].
Qed.

(** [\b(w1|...|wn)\b]: the match is one of the words up to letter case,
    and it is group 0 and group 1. *)
Lemma words_match : forall (ws : list string) (bef aft : string) (m : Re.match_),
  Re.match_at (Parser.words ws) bef aft = Some m ->
  exists w rest,
    In w ws
    /\ aft = Re.group0 m ++ rest
    /\ PyStr.lower (Re.group0 m) = PyStr.lower w
    /\ Re.group 1 m = Some (Re.group0 m).
Proof.
  intros ws bef aft m H. apply match_at_denotes in H.
  destruct H as (Hfrom & Hd). unfold Re.group0, Re.group. rewrite Hfrom.
  unfold Parser.words in Hd. cbn [denotes] in Hd.
  destruct Hd as (s1 & (-> & _) & s2 & (s3 & Hal & ->) & -> & _).
  apply alts_denotes in Hal.
  destruct Hal as (w & t & Hin & (Haft & _ & _) & Hlow).
  cbn [Re.after Re.groups] in *. rewrite Haft, consumed_append.
  exists w, (Re.after s3). repeat split; assumption.
Qed.

(** A search with a word pattern: the match is a word of the pattern up to
    letter case and stands in the text. *)
Lemma words_search : forall (ws : list string) (text : string) (m : Re.match_),
  Re.search (Parser.words ws) text = Some m ->
  exists w pre post,
    In w ws
    /\ text = pre ++ Re.group0 m ++ post
    /\ PyStr.lower (Re.group0 m) = PyStr.lower w.
Proof.
  intros ws text m H. unfold Re.search in H.
  apply search_from_position in H. destruct H as (pre & aft' & -> & Hm).
  apply words_match in Hm. destruct Hm as (w & rest & Hin & -> & Hlow & _).
  exists w, pre, rest. now repeat split.
Qed.

(** ** The subject of a prompt *)

Lemma first_match_found :
  forall (table : Dict.t Re.t) (prompt kind : string) (m : Re.match_),
    Parser.first_match table prompt = Some (kind, m) ->
    exists pattern,
      In (kind, pattern) table /\ Re.search pattern prompt = Some m.
Proof.
  induction table as [|[k p] table IH]; intros prompt kind m H; simpl in H;
    [discriminate H|].
  destruct (Re.search p prompt) as [m'|] eqn:Hs.
  - injection H as <- <-. exists p. split; [now left | exact Hs].
  - apply IH in H. destruct H as (pattern & Hin & Hp).
    exists pattern. split; [now right | exact Hp].
Qed.

Lemma subjects_vocabulary :
  Parser.subjects
  = map (fun kw => (fst kw, Parser.words (snd kw))) subject_vocabulary.
Proof. reflexivity. Qed.

Lemma vocabulary_lower : forall kind ws w,
  In (kind, ws) subject_vocabulary -> In w ws ->
  PyStr.lower w = w /\ w <> "".
Proof.
  intros kind ws w Hk Hw.
  assert (Hall : forallb
                   (fun kw =>
                      forallb (fun x => String.eqb (PyStr.lower x) x
                                        && negb (String.eqb x ""))%bool
                              (snd kw))
                   subject_vocabulary = true) by (vm_compute; reflexivity).
  rewrite forallb_forall in Hall. specialize (Hall _ Hk). cbn [snd] in Hall.
  rewrite forallb_forall in Hall. specialize (Hall _ Hw).
  apply andb_true_iff in Hall. destruct Hall as [Hl Hne].
  apply String.eqb_eq in Hl. apply negb_true_iff in Hne.
  apply String.eqb_neq in Hne. now split.
Qed.

(** The count word before the subject is one of the ten of the pattern. *)
Lemma count_pattern_group :
  forall (name prompt : string) (cm : Re.match_),
    Re.search (Parser.count_pattern name) prompt = Some cm ->
    exists w t,
      In w ["two"; "three"; "four"; "five"; "six";
            "2"; "3"; "4"; "5"; "6"]
      /\ Re.group 1 cm = Some t
      /\ PyStr.lower t = PyStr.lower w.
Proof.
  intros name prompt cm H. unfold Re.search in H.
  apply search_from_position in H. destruct H as (pre & aft & _ & H).
  apply match_at_denotes in H. destruct H as (_ & Hd).
  unfold Parser.count_pattern in Hd. cbn [denotes] in Hd.
  destruct Hd as (s1 & (-> & _) & s2 & (s3 & Hal & ->)
                  & s4 & (t1 & (_ & _ & Hg4) & _)
                  & (t2 & (_ & _ & Hg) & _)).
  apply alts_denotes in Hal.
  destruct Hal as (w & t & Hin & (Haft & _ & _) & Hlow).
  exists w, t. split; [exact Hin|]. split; [|exact Hlow].
  unfold Re.group. rewrite Hg, Hg4. cbn [Re.groups Re.after] in *.
  rewrite Haft, consumed_append. cbn [Re.lookup Nat.eqb]. reflexivity.
Qed.

Lemma extract_subject_facts :
  forall (prompt : string) (maps : Maps),
    match subject_name (Parser.extract_subject prompt maps) with
    | None =>
        Parser.extract_subject prompt maps
        = mkSubject "abstract" None [] None 0
    | Some name =>
        (exists ws,
            In (subject_type (Parser.extract_subject prompt maps), ws)
               subject_vocabulary
            /\ In (PyStr.lower name) ws)
        /\ name <> ""
        /\ (exists pre post, prompt = pre ++ name ++ post)
        /\ 1 <= subject_count (Parser.extract_subject prompt maps) <= 6
        /\ (List.length
              (subject_attributes (Parser.extract_subject prompt maps))
            <= 1)%nat
        /\ match subject_profession (Parser.extract_subject prompt maps) with
           | None => True
           | Some profession =>
               subject_type (Parser.extract_subject prompt maps) = "human"
               /\ profession = PyStr.lower name
               /\ Dict.mem profession (profession_to_icon_props maps) = true
           end
    end.
Proof.
  intros prompt maps. unfold Parser.extract_subject.
  destruct (Parser.first_match Parser.subjects prompt) as [[kind m]|] eqn:Hfm;
    [|reflexivity].
  cbn [subject_name subject_type subject_count subject_attributes
       subject_profession].
  apply first_match_found in Hfm. destruct Hfm as (pattern & Hin & Hs).
  rewrite subjects_vocabulary in Hin. apply in_map_iff in Hin.
  destruct Hin as ([kind' ws] & Heq & Hvoc). cbn [fst snd] in Heq.
  injection Heq as -> <-.
  apply words_search in Hs.
  destruct Hs as (w & pre & post & Hw & Htext & Hlow).
  destruct (vocabulary_lower _ _ _ Hvoc Hw) as (Hwl & Hwne).
  rewrite Hwl in Hlow.
  split; [exists ws; split; [exact Hvoc | now rewrite Hlow]|].
  split.
  { intros Hempty. rewrite Hempty in Hlow. apply Hwne. now rewrite <- Hlow. }
  split; [exists pre, post; exact Htext|].
  split.
  { destruct (Re.search (Parser.count_pattern (Re.group0 m)) prompt)
      as [cm|] eqn:Hcm; [|lia].
    apply count_pattern_group in Hcm.
    destruct Hcm as (cw & t & Hcw & -> & Hclow).
    cbn [fmt]. rewrite Hclow. simpl in Hcw.
    repeat (destruct Hcw as [<-|Hcw]; [vm_compute; split; discriminate|]).
    contradiction. }
  split.
  { destruct (Re.search (Parser.attr_pattern (Re.group0 m)) prompt)
      as [am|]; [|simpl; lia].
    destruct (Re.group 1 am); simpl; lia. }
  destruct (String.eqb_spec kind "human") as [->|Hk]; cbn [andb]; [|exact I].
  destruct (Dict.mem (PyStr.lower (Re.group0 m))
                     (profession_to_icon_props maps)) eqn:Hmem; [|exact I].
  repeat split. exact Hmem.
Qed.


(** ** The objects of a prompt *)

Lemma finditer_from_position :
  forall (r : Re.t) (aft : string) (skip : nat) (bef : string)
         (m : Re.match_),
    In m (Re.finditer_from r skip bef aft) ->
    exists pre aft',
      aft = pre ++ aft' /\ Re.match_at r (push pre bef) aft' = Some m.
Proof.
  induction aft as [|c aft IH]; intros skip bef m H.
  - destruct skip as [|n]; simpl in H; [|contradiction].
    destruct (Re.match_at r bef "") as [m'|] eqn:Hm; [|contradiction].
    destruct H as [<-|[]]. exists "", "". split; [reflexivity | exact Hm].
  - destruct skip as [|n]; simpl in H.
    + destruct (Re.match_at r bef (String c aft)) as [m'|] eqn:Hm.
      * destruct H as [<-|H].
        -- exists "", (String c aft). split; [reflexivity | exact Hm].
        -- apply IH in H. destruct H as (pre & aft' & -> & Hm').
           exists (String c pre), aft'. split; [reflexivity | exact Hm'].
      * apply IH in H. destruct H as (pre & aft' & -> & Hm').
        exists (String c pre), aft'. split; [reflexivity | exact Hm'].
    + apply IH in H. destruct H as (pre & aft' & -> & Hm').
      exists (String c pre), aft'. split; [reflexivity | exact Hm'].
Qed.

(** A match only moves forward in the text. *)
Lemma denotes_forward : forall (r : Re.t) (s s' : Re.state),
  denotes r s s' -> exists x, Re.after s = x ++ Re.after s'.
Proof.
  induction r as [l| | | | | |a IHa b IHb|a IHa|n a IHa|a IHa b IHb];
    intros s s' H; cbn [denotes] in H.
  - destruct H as (t & (Haft & _) & _). now exists t.
  - destruct H as (t & (Haft & _) & _). now exists t.
  - destruct H as (t & (Haft & _) & _). now exists t.
  - destruct H as (t & (Haft & _) & _). now exists t.
  - destruct H as (-> & _). now exists "".
  - contradiction.
  - destruct H as [H|H]; [now apply IHa | now apply IHb].
  - destruct H as [H| ->]; [now apply IHa | now exists ""].
  - destruct H as (s1 & H & ->). apply IHa in H. exact H.
  - destruct H as (s1 & H1 & H2). apply IHa in H1. apply IHb in H2.
    destruct H1 as (x1 & ->). destruct H2 as (x2 & ->).
    exists (x1 ++ x2). now rewrite append_assoc3.
Qed.

(** What the object pattern captures as group 3 *)
Lemma prop_pattern_group :
  forall (bef aft : string) (m : Re.match_),
    Re.match_at Parser.prop_pattern bef aft = Some m ->
    exists x t rest,
      aft = x ++ t ++ rest
      /\ Re.group 3 m = Some t
      /\ t <> "" /\ all_chars Re.is_word t = true.
Proof.
  intros bef aft m H. apply match_at_denotes in H. destruct H as (_ & Hd).
  unfold Parser.prop_pattern in Hd. cbn [denotes] in Hd.
  destruct Hd as (s1 & (-> & _) & s2 & Hg1 & s3 & Hsp & s4 & Hopt
                  & s5 & Hs0 & s6 & (s7 & Hw & Hs6) & Hend & _).
  assert (Hf1 : exists x, aft = x ++ Re.after s2).
  { destruct Hg1 as (s1' & Hal & ->).
    apply (denotes_forward (Re.alts _)) in Hal. exact Hal. }
  assert (Hf2 : exists x, Re.after s2 = x ++ Re.after s3).
  { destruct Hsp as (t & (Ha & _) & _). now exists t. }
  assert (Hf3 : exists x, Re.after s3 = x ++ Re.after s4).
  { destruct Hopt as [(s3' & Hal & ->)| ->]; [|now exists ""].
    apply (denotes_forward (Re.alts _)) in Hal. exact Hal. }
  assert (Hf4 : exists x, Re.after s4 = x ++ Re.after s5).
  { destruct Hs0 as (t & (Ha & _) & _). now exists t. }
  destruct Hw as (t & (Haft & _ & _) & Hne & Hall).
  destruct Hf1 as (x1 & Hx1). destruct Hf2 as (x2 & Hx2).
  destruct Hf3 as (x3 & Hx3). destruct Hf4 as (x4 & Hx4).
  exists (x1 ++ x2 ++ x3 ++ x4), t, (Re.after s7).
  split.
  { cbn [Re.after] in Hx1. rewrite Hx1, Hx2, Hx3, Hx4, Haft.
    now rewrite !append_assoc3. }
  split; [|now split].
  unfold Re.group. rewrite Hend, Hs6.
  cbn [Re.groups Re.lookup Nat.eqb Re.after].
  now rewrite Haft, consumed_append.
Qed.

(** X15: every object [extract_objects] returns is a non-empty run of
    word characters (letters, digits, underscore) and a piece of the
    prompt, in the prompt's letter case: never an empty string, never two
    words, never the string None. *)
Theorem extract_objects_words :
  forall (prompt object : string),
    In object (Parser.extract_objects prompt) ->
    object <> ""
    /\ all_chars Re.is_word object = true
    /\ exists pre post, prompt = pre ++ object ++ post.
Proof.
  intros prompt object H. unfold Parser.extract_objects in H.
  apply in_map_iff in H. destruct H as (m & <- & Hm).
  unfold Re.finditer in Hm. apply finditer_from_position in Hm.
  destruct Hm as (pre & aft & -> & Hm).
  apply prop_pattern_group in Hm.
  destruct Hm as (x & t & rest & -> & -> & Hne & Hall).
  cbn [fmt]. split; [exact Hne|]. split; [exact Hall|].
  exists (pre ++ x), rest. now rewrite !append_assoc3.
Qed.

(** The objects of "a chef with a hat near the lake" *)
Lemma extract_objects_words_witness :
  Parser.extract_objects "a chef with a hat near the lake" = ["hat"; "lake"]
  /\ In "hat" (Parser.extract_objects "a chef with a hat near the lake")
  /\ all_chars Re.is_word "hat" = true.
Proof.
  assert (H : In "hat"
                 (Parser.extract_objects "a chef with a hat near the lake"))
    by (vm_compute; left; reflexivity).
  split; [vm_compute; reflexivity|]. split; [exact H|].
  exact (proj1 (proj2 (extract_objects_words _ _ H))).
Defined.

(** ** The setting of a prompt *)

Lemma settings_vocabulary :
  Parser.settings
  = map (fun kw => (fst kw, Parser.words (snd kw))) setting_vocabulary.
Proof. reflexivity. Qed.

Lemma setting_vocabulary_lower : forall kind ws w,
  In (kind, ws) setting_vocabulary -> In w ws ->
  PyStr.lower w = w /\ w <> "".
Proof.
  intros kind ws w Hk Hw.
  assert (Hall : forallb
                   (fun kw =>
                      forallb (fun x => String.eqb (PyStr.lower x) x
                                        && negb (String.eqb x ""))%bool
                              (snd kw))
                   setting_vocabulary = true) by (vm_compute; reflexivity).
  rewrite forallb_forall in Hall. specialize (Hall _ Hk). cbn [snd] in Hall.
  rewrite forallb_forall in Hall. specialize (Hall _ Hw).
  apply andb_true_iff in Hall. destruct Hall as [Hl Hne].
  apply String.eqb_eq in Hl. apply negb_true_iff in Hne.
  apply String.eqb_neq in Hne. now split.
Qed.

Lemma extract_setting_facts : forall prompt : string,
  match setting_location (Parser.extract_setting prompt) with
  | None =>
      Parser.extract_setting prompt = mkSetting "abstract" None [] None
  | Some location =>
      (exists ws,
          In (setting_type (Parser.extract_setting prompt), ws)
             setting_vocabulary
          /\ In (PyStr.lower location) ws)
      /\ location <> ""
      /\ (exists pre post, prompt = pre ++ location ++ post)
      /\ subseq (setting_attributes (Parser.extract_setting prompt))
                Parser.atmosphere_words
      /\ (forall a,
             In a (setting_attributes (Parser.extract_setting prompt))
             <-> In a Parser.atmosphere_words
                 /\ PyStr.contains a (PyStr.lower prompt) = true)
      /\ match setting_time (Parser.extract_setting prompt) with
         | None => True
         | Some time =>
             In (PyStr.lower time) time_words
             /\ exists pre post, prompt = pre ++ time ++ post
         end
  end.
Proof.
  intros prompt. unfold Parser.extract_setting.
  destruct (Parser.first_match Parser.settings prompt) as [[kind m]|] eqn:Hfm;
    [|reflexivity].
  cbn [setting_location setting_type setting_attributes setting_time].
  apply first_match_found in Hfm. destruct Hfm as (pattern & Hin & Hs).
  rewrite settings_vocabulary in Hin. apply in_map_iff in Hin.
  destruct Hin as ([kind' ws] & Heq & Hvoc). cbn [fst snd] in Heq.
  injection Heq as -> <-.
  apply words_search in Hs.
  destruct Hs as (w & pre & post & Hw & Htext & Hlow).
  destruct (setting_vocabulary_lower _ _ _ Hvoc Hw) as (Hwl & Hwne).
  rewrite Hwl in Hlow.
  split; [exists ws; split; [exact Hvoc | now rewrite Hlow]|].
  split.
  { intros Hempty. rewrite Hempty in Hlow. apply Hwne. now rewrite <- Hlow. }
  split; [exists pre, post; exact Htext|].
  split; [apply filter_subseq|].
  split; [intros a; rewrite filter_In; reflexivity|].
  destruct (Re.search Parser.time_pattern prompt) as [tm|] eqn:Htm;
    cbn [option_map]; [|exact I].
  unfold Parser.time_pattern in Htm. apply words_search in Htm.
  destruct Htm as (tw & tpre & tpost & Htw & Httext & Htlow).
  split; [|exists tpre, tpost; exact Httext].
  rewrite Htlow. fold time_words in Htw. unfold time_words in *.
  simpl in Htw.
  repeat (destruct Htw as [<-|Htw]; [vm_compute; tauto|]). contradiction.
Qed.


(** ** The scores of a parsed prompt *)

Lemma calculate_semantic_weights_returns : forall c : ComponentSet,
  Utils.calculate_semantic_weights c
  = Ok (normalized_exactly (Utils.raw_weights c)).
Proof.
  intros c. unfold Utils.calculate_semantic_weights.
  destruct (raw_weights_cases c)
    as (b1 & b2 & b3 & b4 & b5 & b6 & b7 & b8 & ->).
  pose proof (weights_check_all b1 b2 b3 b4 b5 b6 b7 b8) as H.
  unfold weights_check in H.
  destruct (Utils.normalize (raw_of b1 b2 b3 b4 b5 b6 b7 b8)) as [w|e];
    [|discriminate H].
  rewrite !andb_true_iff in H. destruct H as [[[Heq _] _] _].
  apply weights_eqb_eq in Heq. now rewrite Heq.
Qed.

Lemma table_words_nonempty :
  forall (table : Dict.t (list string)) (text tier w : string),
    forallb (fun kw => forallb (fun x => negb (String.eqb x "")) (snd kw))
            table = true ->
    Parser.first_word table text = Some (tier, w) ->
    w <> "".
Proof.
  intros table text tier w Hall H.
  apply first_word_in_tier in H. destruct H as (ws & Hin & Hw).
  rewrite forallb_forall in Hall. specialize (Hall _ Hin). cbn [snd] in Hall.
  rewrite forallb_forall in Hall. specialize (Hall _ Hw).
  apply negb_true_iff in Hall. now apply String.eqb_neq in Hall.
Qed.

Lemma truthy_some : forall s : string, s <> "" -> truthy (Some s) = true.
Proof.
  intros s H. unfold truthy. apply negb_true_iff. now apply String.eqb_neq.
Qed.

(** X17: the raw scores of what the parser returns, and the weights
    [parse_prompt] attaches.  The subject scores 50 with a known
    profession and 40 without (the bonus for two attributes is out of
    reach, the parser giving at most one); the action scores 40 for a
    high-energy verb and 30 for any other; the setting scores 25 for a
    specific indoor location and 15 for any other; objects score 10, a mood
    5, and colors nothing, however many the prompt names; a component that
    was not found scores 0.  [parse_prompt] never raises and returns the
    six components with these scores normalized. *)
Theorem parse_prompt_scores :
  forall (g : Globals) (prompt : string),
    let c := Parser.parse_prompt_components prompt (TRANSFORMATION_MAPS g) in
    let raw := [("subject", subject_score (subject c));
                ("action", action_score (action c));
                ("setting", setting_score (setting c));
                ("objects", objects_score (objects c));
                ("colors", 0);
                ("mood", mood_score (mood c))] in
    Utils.raw_weights c = raw
    /\ Server.parse_prompt g prompt
       = Ok (mkComponents (subject c) (action c) (setting c) (objects c)
                          (colors c) (mood c)
                          (Some (normalized_exactly raw))).
Proof.
  intros g prompt. cbv zeta.
  set (maps := TRANSFORMATION_MAPS g).
  assert (Hraw :
            Utils.raw_weights (Parser.parse_prompt_components prompt maps)
            = [("subject",
                subject_score (Parser.extract_subject prompt maps));
               ("action", action_score (Parser.extract_action prompt));
               ("setting", setting_score (Parser.extract_setting prompt));
               ("objects", objects_score (Parser.extract_objects prompt));
               ("colors", 0);
               ("mood", mood_score (Parser.extract_mood prompt))]).
  { unfold Utils.raw_weights, Parser.parse_prompt_components.
    cbn [subject action setting objects colors mood].
    unfold subject_score, action_score, setting_score, objects_score,
      mood_score.
    (* the subject *)
    pose proof (extract_subject_facts prompt maps) as Hs.
    assert (Hs1 : truthy (subject_name (Parser.extract_subject prompt maps))
                  = negb (is_none (subject_name
                                     (Parser.extract_subject prompt maps)))
                  /\ (Nat.ltb 1 (List.length
                                   (subject_attributes
                                      (Parser.extract_subject prompt maps)))
                      || truthy (subject_profession
                                   (Parser.extract_subject prompt maps)))%bool
                     = negb (is_none (subject_profession
                                        (Parser.extract_subject prompt maps)))
                  /\ (is_none (subject_name
                                 (Parser.extract_subject prompt maps)) = true
                      -> is_none (subject_profession
                                    (Parser.extract_subject prompt maps))
                         = true)).
    { destruct (subject_name (Parser.extract_subject prompt maps))
        as [name|].
      - destruct Hs as ((ws & Hvoc & Hw) & Hne & _ & _ & Hlen & Hprof).
        split; [now apply truthy_some|]. split; [|discriminate].
        assert (Hl : Nat.ltb 1 (List.length
                                  (subject_attributes
                                     (Parser.extract_subject prompt maps)))
                     = false) by (apply Nat.ltb_ge; exact Hlen).
        rewrite Hl. cbn [orb].
        destruct (subject_profession (Parser.extract_subject prompt maps))
          as [p|]; [|reflexivity].
        destruct Hprof as (_ & -> & _). cbn [is_none negb].
        apply truthy_some.
        destruct (vocabulary_lower _ _ _ Hvoc Hw) as (_ & Hne'). exact Hne'.
      - rewrite Hs. cbn. repeat split. }
    destruct Hs1 as (-> & -> & Hsd).
    (* the action *)
    assert (Ha1 : truthy (action_verb (Parser.extract_action prompt))
                  = negb (is_none (action_verb (Parser.extract_action prompt)))
                  /\ Utils.high_or_extreme
                       (action_energy_level (Parser.extract_action prompt))
                     = String.eqb
                         (action_energy_level (Parser.extract_action prompt))
                         "high"
                  /\ (is_none (action_verb (Parser.extract_action prompt))
                      = true ->
                      String.eqb
                        (action_energy_level (Parser.extract_action prompt))
                        "high" = false)).
    { unfold Parser.extract_action.
      destruct (Parser.first_word Parser.actions (PyStr.lower prompt))
        as [[tier verb]|] eqn:Hfw.
      - cbn [action_verb action_energy_level is_none negb].
        split.
        { apply truthy_some.
          apply (table_words_nonempty Parser.actions _ _ _ eq_refl Hfw). }
        split; [|discriminate].
        apply first_word_in_tier in Hfw. destruct Hfw as (ws & Hin & _).
        unfold Parser.actions in Hin. simpl in Hin.
        destruct Hin as [Ht|[Ht|[Ht|[]]]]; injection Ht as <- _;
          reflexivity.
      - repeat split. }
    destruct Ha1 as (-> & -> & Had).
    (* the setting *)
    pose proof (extract_setting_facts prompt) as Ht.
    assert (Ht1 : truthy (setting_location (Parser.extract_setting prompt))
                  = negb (is_none (setting_location
                                     (Parser.extract_setting prompt)))
                  /\ PyStr.endswith
                       (setting_type (Parser.extract_setting prompt))
                       "_specific"
                     = String.eqb
                         (setting_type (Parser.extract_setting prompt))
                         "indoor_specific"
                  /\ (is_none (setting_location
                                 (Parser.extract_setting prompt)) = true ->
                      String.eqb
                        (setting_type (Parser.extract_setting prompt))
                        "indoor_specific" = false)).
    { destruct (setting_location (Parser.extract_setting prompt))
        as [location|].
      - destruct Ht as ((ws & Hvoc & _) & Hne & _).
        split; [now apply truthy_some|]. split; [|discriminate].
        unfold setting_vocabulary in Hvoc. simpl in Hvoc.
        destruct Hvoc as [Hk|[Hk|[Hk|[Hk|[Hk|[]]]]]];
          injection Hk as <- _; reflexivity.
      - rewrite Ht. repeat split. }
    destruct Ht1 as (-> & -> & Htd).
    (* the mood *)
    assert (Hm1 : truthy (mood_emotion (Parser.extract_mood prompt))
                  = negb (is_none (mood_emotion
                                     (Parser.extract_mood prompt)))).
    { unfold Parser.extract_mood.
      destruct (Parser.first_word Parser.emotions (PyStr.lower prompt))
        as [[valence emotion]|] eqn:Hfw; [|reflexivity].
      cbn [mood_emotion is_none negb]. apply truthy_some.
      apply (table_words_nonempty Parser.emotions _ _ _ eq_refl Hfw). }
    rewrite Hm1.
    destruct (subject_name (Parser.extract_subject prompt maps)) as [n|];
      destruct (subject_profession (Parser.extract_subject prompt maps))
        as [p|];
      try (specialize (Hsd eq_refl); discriminate Hsd);
      destruct (action_verb (Parser.extract_action prompt)) as [v|];
      destruct (String.eqb
                  (action_energy_level (Parser.extract_action prompt))
                  "high");
      try (specialize (Had eq_refl); discriminate Had);
      destruct (setting_location (Parser.extract_setting prompt)) as [l|];
      destruct (String.eqb
                  (setting_type (Parser.extract_setting prompt))
                  "indoor_specific");
      try (specialize (Htd eq_refl); discriminate Htd);
      destruct (Parser.extract_objects prompt) as [|o os];
      destruct (mood_emotion (Parser.extract_mood prompt)) as [e|];
      reflexivity. }
  split; [exact Hraw|].
  unfold Server.parse_prompt. fold maps.
  rewrite calculate_semantic_weights_returns, Hraw. reflexivity.
Qed.

(* ================================================================== *)
(** * The category suggestion *)

Lemma dict_set_fresh : forall (V : Type) (k : string) (v : V) (d : Dict.t V),
  ~ In k (Dict.keys d) -> Dict.set k v d = (d ++ [(k, v)])%list.
Proof.
  induction d as [|[k0 v0] d IH]; simpl; intros H; [reflexivity|].
  destruct (String.eqb_spec k k0) as [->|Hk].
  - exfalso. apply H. now left.
  - f_equal. apply IH. intros Hin. apply H. now right.
Qed.

(** Filling a dict from the items of a dict gives one entry per item, in
    the order of the items. *)
Lemma dict_fill : forall (V W : Type) (f : string * V -> W)
                         (l : Dict.t V) (acc : Dict.t W),
  NoDup (Dict.keys acc ++ Dict.keys l) ->
  fold_left (fun s cr => Dict.set (fst cr) (f cr) s) l acc
  = (acc ++ map (fun cr => (fst cr, f cr)) l)%list.
Proof.
  induction l as [|[k v] l IH]; simpl; intros acc Hnd.
  - now rewrite app_nil_r.
  - rewrite dict_set_fresh.
    + rewrite IH.
      * now rewrite <- app_assoc.
      * unfold Dict.keys in *. rewrite map_app. simpl.
        rewrite <- app_assoc. exact Hnd.
    + apply NoDup_remove_2 in Hnd. intros Hin. apply Hnd.
      apply in_or_app. now left.
Qed.

Section Ranking.

Variable A : Type.
Variable score : A -> Z.

Lemma insert_ranked_perm : forall (x : A) (l : list A),
  Permutation (Tools.insert_ranked score x l) (x :: l).
Proof.
  induction l as [|y r IH]; simpl; [apply Permutation_refl|].
  destruct (score x <? score y).
  - eapply perm_trans; [|apply perm_swap].
    now apply perm_skip.
  - apply Permutation_refl.
Qed.

Lemma sort_ranked_perm : forall l : list A,
  Permutation (Tools.sort_ranked score l) l.
Proof.
  induction l as [|x l IH]; simpl; [constructor|].
  eapply perm_trans; [apply insert_ranked_perm|].
  now apply perm_skip.
Qed.

Lemma insert_ranked_sorted : forall (x : A) (l : list A),
  StronglySorted (fun a b => score b <= score a) l ->
  StronglySorted (fun a b => score b <= score a)
                        (Tools.insert_ranked score x l).
Proof.
  induction l as [|y r IH]; simpl; intros Hs.
  - constructor; constructor.
  - inversion Hs as [|? ? Hr Hall]; subst.
    destruct (Z.ltb_spec (score x) (score y)) as [Hlt|Hge].
    + constructor; [now apply IH|].
      rewrite Forall_forall. intros z Hz.
      apply (Permutation_in _ (insert_ranked_perm x r)) in Hz.
      destruct Hz as [<-|Hz]; [lia|].
      rewrite Forall_forall in Hall. now apply Hall.
    + constructor; [exact Hs|].
      constructor; [exact Hge|].
      rewrite Forall_forall in *. intros z Hz.
      specialize (Hall z Hz). lia.
Qed.

Lemma sort_ranked_sorted : forall l : list A,
  StronglySorted (fun a b => score b <= score a)
                        (Tools.sort_ranked score l).
Proof.
  induction l as [|x l IH]; simpl; [constructor|].
  now apply insert_ranked_sorted.
Qed.

(** The head of the ranking is the first entry of the highest score. *)
Lemma sort_ranked_head : forall (l : list A) (x : A) (rest : list A),
  Tools.sort_ranked score l = x :: rest ->
  exists before after,
    l = (before ++ x :: after)%list
    /\ (forall y, In y before -> score y < score x)
    /\ (forall y, In y after -> score y <= score x).
Proof.
  induction l as [|a l IH]; simpl; intros x rest H; [discriminate|].
  destruct (Tools.sort_ranked score l) as [|y r] eqn:Hsort.
  - simpl in H. injection H as <- <-.
    assert (Hl : l = []).
    { apply Permutation_nil.
      rewrite <- Hsort. apply sort_ranked_perm. }
    subst l. exists [], []. repeat split; intros z [].
  - destruct (IH y r eq_refl) as [before [after [Hl [Hb Ha]]]].
    simpl in H.
    destruct (Z.ltb_spec (score a) (score y)) as [Hlt|Hge].
    + injection H as <- <-.
      exists (a :: before), after. repeat split.
      * simpl. now rewrite Hl.
      * intros z [<-|Hz]; [exact Hlt | now apply Hb].
      * exact Ha.
    + injection H as <- <-.
      exists [], l. repeat split.
      * intros z [].
      * intros z Hz. rewrite Hl in Hz. apply in_app_or in Hz.
        destruct Hz as [Hz|[<-|Hz]].
        -- specialize (Hb z Hz). lia.
        -- exact Hge.
        -- specialize (Ha z Hz). lia.
Qed.

Lemma sorted_app : forall (l1 l2 : list A),
  StronglySorted (fun a b => score b <= score a) (l1 ++ l2) ->
  forall x y, In x l1 -> In y l2 -> score y <= score x.
Proof.
  induction l1 as [|a l1 IH]; simpl; intros l2 Hs x y Hx Hy; [easy|].
  inversion Hs as [|? ? Hr Hall]; subst.
  destruct Hx as [<-|Hx].
  - rewrite Forall_forall in Hall. apply Hall. apply in_or_app. now right.
  - now apply (IH l2 Hr).
Qed.

End Ranking.

Lemma scored_keys : forall (categories : Dict.t Profile) (c : ComponentSet),
  map fst (map (fun cr => (fst cr,
                           Tools.score_category (fst cr) (snd cr) c))
               categories)
  = Dict.keys categories.
Proof.
  intros categories c. unfold Dict.keys. rewrite map_map. reflexivity.
Qed.

Lemma scored_entry :
  forall (categories : Dict.t Profile) (c : ComponentSet)
         (e : string * (Z * list string)),
    Dict.wf categories ->
    In e (map (fun cr => (fst cr,
                          Tools.score_category (fst cr) (snd cr) c))
              categories) ->
    exists rules,
      Dict.get (fst e) categories = Some rules
      /\ snd e = Tools.score_category (fst e) rules c
      /\ category_score categories c (fst e) = fst (snd e).
Proof.
  intros categories c e Hwf Hin. apply in_map_iff in Hin.
  destruct Hin as [[k rules] [<- Hin]]. simpl.
  pose proof (dict_in_get _ categories k rules Hwf Hin) as Hget.
  exists rules. unfold category_score. rewrite Hget. now repeat split.
Qed.

(** What [suggest_category] returns, in terms of the ranking *)
Lemma suggest_category_ranked :
  forall (categories : Dict.t Profile) (c : ComponentSet) (sug : Suggestion),
    Dict.wf categories ->
    Tools.suggest_category categories c = inl sug ->
    exists (first : string * (Z * list string)) rest,
      Tools.sort_ranked
        (fun entry : string * (Z * list string) => fst (snd entry))
        (map (fun cr => (fst cr, Tools.score_category (fst cr) (snd cr) c))
             categories)
      = first :: rest
      /\ primary_suggestion sug = fst first
      /\ alternatives sug = map fst (firstn 2 rest)
      /\ suggestion_scores sug
         = map (fun k => (k, category_score categories c k))
               (Dict.keys categories)
      /\ reasoning sug
         = match snd (snd first) with
           | [] => "General compatibility"
           | _ => PyStr.join "; " (snd (snd first))
           end.
Proof.
  intros categories c sug Hwf H. unfold Tools.suggest_category in H.
  rewrite (dict_fill _ _
             (fun cr => Tools.score_category (fst cr) (snd cr) c)) in H
    by exact Hwf.
  cbn [app] in H.
  destruct (Tools.sort_ranked _ _) as [|[primary [s reasons]] rest] eqn:Hs;
    [discriminate|].
  injection H as <-. exists (primary, (s, reasons)), rest.
  cbn [primary_suggestion alternatives suggestion_scores reasoning fst snd].
  repeat split.
  unfold Dict.keys. rewrite !map_map.
  apply map_ext_in. intros [k rules] Hin. cbn [fst snd].
  unfold category_score.
  now rewrite (dict_in_get _ categories k rules Hwf Hin).
Qed.

(** X18: the primary suggestion is the first category, in the order of the
    catalog, that has the highest score; the reported scores are those of
    all the categories, in the order of the catalog. *)
Theorem suggest_category_primary :
  forall (categories : Dict.t Profile) (c : ComponentSet) (sug : Suggestion),
    Dict.wf categories ->
    Tools.suggest_category categories c = inl sug ->
    exists before after,
      Dict.keys categories
      = (before ++ primary_suggestion sug :: after)%list
      /\ (forall k, In k before ->
            category_score categories c k
            < category_score categories c (primary_suggestion sug))
      /\ (forall k, In k after ->
            category_score categories c k
            <= category_score categories c (primary_suggestion sug))
      /\ suggestion_scores sug
         = map (fun k => (k, category_score categories c k))
               (Dict.keys categories).
Proof.
  intros categories c sug Hwf H.
  destruct (suggest_category_ranked _ _ _ Hwf H)
    as [first [rest [Hs [Hp [_ [Hsc _]]]]]].
  destruct (sort_ranked_head _ _ _ _ _ Hs)
    as [before [after [Hl [Hb Ha]]]].
  assert (Hscore : forall e,
             In e (before ++ first :: after)%list ->
             category_score categories c (fst e) = fst (snd e)).
  { intros e He. rewrite <- Hl in He.
    destruct (scored_entry _ _ _ Hwf He) as [r [_ [_ Hr]]]. exact Hr. }
  exists (map fst before), (map fst after). repeat split.
  - rewrite <- (scored_keys categories c), Hl, map_app, Hp. reflexivity.
  - intros k Hk. apply in_map_iff in Hk. destruct Hk as [e [<- He]].
    rewrite Hp, !Hscore.
    + now apply Hb.
    + apply in_or_app. right. now left.
    + apply in_or_app. now left.
  - intros k Hk. apply in_map_iff in Hk. destruct Hk as [e [<- He]].
    rewrite Hp, !Hscore.
    + now apply Ha.
    + apply in_or_app. right. now left.
    + apply in_or_app. right. now right.
  - exact Hsc.
Qed.

Lemma suggest_category_primary_witness :
  exists before after,
    Dict.keys catalog_profiles
    = (before ++ primary_suggestion calm_suggestion :: after)%list
    /\ (forall k, In k before ->
          category_score catalog_profiles calm_person k
          < category_score catalog_profiles calm_person
                           (primary_suggestion calm_suggestion))
    /\ (forall k, In k after ->
          category_score catalog_profiles calm_person k
          <= category_score catalog_profiles calm_person
                            (primary_suggestion calm_suggestion))
    /\ suggestion_scores calm_suggestion
       = map (fun k => (k, category_score catalog_profiles calm_person k))
             (Dict.keys catalog_profiles).
Proof.
  apply (suggest_category_primary catalog_profiles calm_person
                                  calm_suggestion).
  - unfold Dict.wf. vm_compute. solve_nodup.
  - vm_compute. reflexivity.
Defined.

Lemma firstn_map : forall (A B : Type) (f : A -> B) (n : nat) (l : list A),
  firstn n (map f l) = map f (firstn n l).
Proof.
  induction n as [|n IH]; intros [|x l]; simpl; try reflexivity.
  now rewrite IH.
Qed.

Lemma firstn_in : forall (A : Type) (n : nat) (l : list A) (x : A),
  In x (firstn n l) -> In x l.
Proof.
  intros A n l x H. rewrite <- (firstn_skipn n l). apply in_or_app.
  now left.
Qed.

(** X19: the alternatives are the next two categories of the ranking (all
    the others when the catalog has fewer than three): different from the
    primary suggestion and from one another, in descending order of score,
    and no category left out scores more than one of them. *)
Theorem suggest_category_alternatives :
  forall (categories : Dict.t Profile) (c : ComponentSet) (sug : Suggestion),
    Dict.wf categories ->
    Tools.suggest_category categories c = inl sug ->
    List.length (alternatives sug)
    = Nat.min 2 (List.length categories - 1)
    /\ NoDup (primary_suggestion sug :: alternatives sug)
    /\ incl (primary_suggestion sug :: alternatives sug)
            (Dict.keys categories)
    /\ (forall a, In a (alternatives sug) ->
          category_score categories c a
          <= category_score categories c (primary_suggestion sug))
    /\ (forall a b, alternatives sug = [a; b] ->
          category_score categories c b <= category_score categories c a)
    /\ (forall a k,
          In a (alternatives sug) ->
          In k (Dict.keys categories) ->
          ~ In k (primary_suggestion sug :: alternatives sug) ->
          category_score categories c k <= category_score categories c a).
Proof.
  intros categories c sug Hwf H.
  destruct (suggest_category_ranked _ _ _ Hwf H)
    as [first [rest [Hs [Hp [Ha _]]]]].
  set (score := fun entry : string * (Z * list string) => fst (snd entry))
    in *.
  set (scored := map (fun cr => (fst cr,
                                 Tools.score_category (fst cr) (snd cr) c))
                     categories) in *.
  pose proof (sort_ranked_perm _ score scored) as Hperm.
  pose proof (sort_ranked_sorted _ score scored) as Hsorted.
  rewrite Hs in Hperm, Hsorted.
  assert (Hkeys : Permutation (fst first :: map fst rest)
                              (Dict.keys categories)).
  { rewrite <- (scored_keys categories c).
    change (Permutation (map fst (first :: rest)) (map fst scored)).
    now apply Permutation_map. }
  assert (Hnd : NoDup (fst first :: map fst rest)).
  { apply (Permutation_NoDup (Permutation_sym Hkeys)). exact Hwf. }
  assert (Hscore : forall e, In e (first :: rest) ->
                             category_score categories c (fst e) = score e).
  { intros e He. apply (Permutation_in _ Hperm) in He.
    destruct (scored_entry _ _ _ Hwf He) as [r [_ [_ Hr]]]. exact Hr. }
  assert (Hsplit : rest = (firstn 2 rest ++ skipn 2 rest)%list)
    by (symmetry; apply firstn_skipn).
  inversion Hsorted as [|? ? Hrest Hall]; subst.
  rewrite Forall_forall in Hall.
  assert (Hfirst2 : forall e, In e (firstn 2 rest) -> In e rest).
  { intros e He. rewrite Hsplit. apply in_or_app. now left. }
  rewrite Hp, Ha. repeat split.
  - rewrite length_map, length_firstn.
    apply Permutation_length in Hperm. unfold scored in Hperm.
    rewrite length_map in Hperm. simpl in Hperm. rewrite <- Hperm. lia.
  - rewrite <- firstn_map. constructor.
    + intros Hin. apply firstn_in in Hin.
      inversion Hnd; subst. contradiction.
    + inversion Hnd as [|? ? _ Hnd']; subst.
      rewrite <- (firstn_skipn 2 (map fst rest)) in Hnd'.
      now apply NoDup_app_remove_r in Hnd'.
  - intros k [<-|Hk].
    + apply (Permutation_in _ Hkeys). now left.
    + apply (Permutation_in _ Hkeys). right.
      apply in_map_iff in Hk. destruct Hk as [e [<- He]].
      apply in_map. now apply Hfirst2.
  - intros a Hin. apply in_map_iff in Hin. destruct Hin as [e [<- He]].
    rewrite !Hscore.
    + apply Hall. now apply Hfirst2.
    + now left.
    + right. now apply Hfirst2.
  - intros a b Hab.
    destruct rest as [|e1 [|e2 rest']]; try discriminate Hab.
    simpl in Hab. injection Hab as <- <-.
    rewrite !Hscore.
    + inversion Hrest as [|? ? _ Hall1]; subst.
      rewrite Forall_forall in Hall1. apply Hall1. now left.
    + right. now left.
    + right. right. now left.
  - intros a k Hin Hk Hnot.
    apply in_map_iff in Hin. destruct Hin as [e [<- He]].
    apply (Permutation_in _ (Permutation_sym Hkeys)) in Hk.
    destruct Hk as [<-|Hk]; [exfalso; apply Hnot; now left|].
    apply in_map_iff in Hk. destruct Hk as [e' [<- He']].
    rewrite !Hscore.
    + rewrite Hsplit in He', Hrest. apply in_app_or in He'.
      destruct He' as [He'|He'].
      * exfalso. apply Hnot. right. now apply in_map.
      * now apply (sorted_app _ score _ _ Hrest).
    + right. now apply Hfirst2.
    + now right.
Qed.

Lemma suggest_category_alternatives_witness :
  List.length (alternatives calm_suggestion)
  = Nat.min 2 (List.length catalog_profiles - 1)
  /\ NoDup (primary_suggestion calm_suggestion
            :: alternatives calm_suggestion)
  /\ incl (primary_suggestion calm_suggestion
           :: alternatives calm_suggestion)
          (Dict.keys catalog_profiles)
  /\ (forall a, In a (alternatives calm_suggestion) ->
        category_score catalog_profiles calm_person a
        <= category_score catalog_profiles calm_person
                          (primary_suggestion calm_suggestion))
  /\ (forall a b, alternatives calm_suggestion = [a; b] ->
        category_score catalog_profiles calm_person b
        <= category_score catalog_profiles calm_person a)
  /\ (forall a k,
        In a (alternatives calm_suggestion) ->
        In k (Dict.keys catalog_profiles) ->
        ~ In k (primary_suggestion calm_suggestion
                :: alternatives calm_suggestion) ->
        category_score catalog_profiles calm_person k
        <= category_score catalog_profiles calm_person a).
Proof.
  apply (suggest_category_alternatives catalog_profiles calm_person
                                       calm_suggestion).
  - unfold Dict.wf. vm_compute. solve_nodup.
  - vm_compute. reflexivity.
Defined.

(** X20: the suggestion fails on an empty catalog only, with the
    [IndexError] of [ranked[0]]; on any other catalog it returns. *)
Theorem suggest_category_raises :
  forall (categories : Dict.t Profile) (c : ComponentSet),
    (categories = [] ->
     Tools.suggest_category categories c
     = inr (IndexError "list index out of range"))
    /\ (categories <> [] ->
        exists sug, Tools.suggest_category categories c = inl sug).
Proof.
  intros categories c. split.
  - intros ->. reflexivity.
  - intros Hne. unfold Tools.suggest_category.
    match goal with
    | |- context [Tools.sort_ranked _ ?d] => set (scores := d)
    end.
    assert (Hscores : scores <> []).
    { subst scores.
      assert (Hgen : forall (l : Dict.t Profile)
                            (acc : Dict.t (Z * list string)),
                 l <> [] \/ acc <> [] ->
                 fold_left
                   (fun scores cr =>
                      Dict.set (fst cr)
                               (Tools.score_category (fst cr) (snd cr) c)
                               scores) l acc <> []).
      { induction l as [|[k r] l IH]; simpl; intros acc H.
        - destruct H as [H|H]; [now contradiction H | exact H].
        - apply IH. right. destruct acc as [|[k0 v0] acc]; simpl;
            [discriminate|].
          destruct (String.eqb k k0); discriminate. }
      apply Hgen. now left. }
    pose proof (sort_ranked_perm _
                  (fun entry : string * (Z * list string) =>
                     fst (snd entry)) scores) as Hperm.
    destruct (Tools.sort_ranked _ scores) as [|[primary [s reasons]] rest].
    + apply Permutation_nil in Hperm. contradiction.
    + eexists. reflexivity.
Qed.

(** One category's score: the keyword hits and at most seven points more,
    each of which comes with a reason. *)
Lemma score_category_cases :
  forall (category : string) (rules : Profile) (c : ComponentSet),
    let hits := Tools.keyword_hits (trigger_keywords rules)
                                   (PyStr.lower (Tools.repr_components c)) in
    let sr := Tools.score_category category rules c in
    0 <= hits <= Z.of_nat (List.length (trigger_keywords rules))
    /\ hits <= fst sr <= hits + 7
    /\ (snd sr = [] <-> fst sr = hits)
    /\ (snd sr <> [] ->
        PyStr.join "; " (snd sr) <> "General compatibility").
Proof.
  intros category rules c hits sr.
  assert (Hhits : 0 <= hits <= Z.of_nat (List.length (trigger_keywords rules))).
  { subst hits. unfold Tools.keyword_hits. split; [lia|].
    apply Nat2Z.inj_le. apply filter_length_le. }
  split; [exact Hhits|].
  subst sr. unfold Tools.score_category. cbv zeta. fold hits.
  destruct (Tools.mem_str _ (ideal_subjects rules));
    destruct (Tools.mood_matches _ _);
    destruct (Tools.energy_reason _ _) as [r|] eqn:He;
    cbn [fst snd app];
    (split; [lia|]);
    (split; [split; intros H; try discriminate H; try lia; reflexivity|]);
    intros _; unfold PyStr.join; cbn [String.concat append];
    try discriminate.
  - unfold Tools.energy_reason in He.
    destruct (_ && _)%bool in He; [injection He as <-; discriminate|].
    destruct (_ && _)%bool in He; [injection He as <-; discriminate|].
    discriminate He.
Qed.

(** X21: the reasoning is [General compatibility] exactly when the score
    of the primary suggestion is made of keyword hits alone; the reasons
    account for at most seven points of a score. *)
Theorem suggest_category_reasoning :
  forall (categories : Dict.t Profile) (c : ComponentSet) (sug : Suggestion),
    Dict.wf categories ->
    Tools.suggest_category categories c = inl sug ->
    category_hits categories c (primary_suggestion sug)
    <= category_score categories c (primary_suggestion sug)
    <= category_hits categories c (primary_suggestion sug) + 7
    /\ (reasoning sug = "General compatibility"
        <-> category_score categories c (primary_suggestion sug)
            = category_hits categories c (primary_suggestion sug)).
Proof.
  intros categories c sug Hwf H.
  destruct (suggest_category_ranked _ _ _ Hwf H)
    as [first [rest [Hs [Hp [_ [_ Hr]]]]]].
  assert (Hin : In first
                   (map (fun cr => (fst cr,
                                    Tools.score_category (fst cr) (snd cr) c))
                        categories)).
  { eapply Permutation_in; [apply sort_ranked_perm|].
    rewrite Hs. now left. }
  destruct (scored_entry _ _ _ Hwf Hin) as [rules [Hget [Hsnd Hscore]]].
  destruct (score_category_cases (fst first) rules c)
    as [_ [Hb [Hnil Hjoin]]].
  rewrite <- Hsnd in Hb, Hnil, Hjoin.
  rewrite Hp, Hscore. unfold category_hits. rewrite Hget. split.
  - exact Hb.
  - rewrite Hr, <- Hnil.
    destruct (snd (snd first)) as [|r0 rs] eqn:Hreasons.
    + split; reflexivity.
    + split; [|discriminate].
      intros Heq. exfalso. now apply Hjoin.
Qed.

Lemma suggest_category_reasoning_witness :
  category_hits catalog_profiles calm_person
                (primary_suggestion calm_suggestion)
  <= category_score catalog_profiles calm_person
                    (primary_suggestion calm_suggestion)
  <= category_hits catalog_profiles calm_person
                   (primary_suggestion calm_suggestion) + 7
  /\ (reasoning calm_suggestion = "General compatibility"
      <-> category_score catalog_profiles calm_person
                         (primary_suggestion calm_suggestion)
          = category_hits catalog_profiles calm_person
                          (primary_suggestion calm_suggestion)).
Proof.
  apply (suggest_category_reasoning catalog_profiles calm_person
                                    calm_suggestion).
  - unfold Dict.wf. vm_compute. solve_nodup.
  - vm_compute. reflexivity.
Defined.

(** ** Keywords are looked up in the rendered components *)

Lemma lower_append : forall a b : string,
  PyStr.lower (a ++ b) = PyStr.lower a ++ PyStr.lower b.
Proof.
  unfold PyStr.lower. induction a as [|x a IH]; intros b; simpl;
    [reflexivity|]. now rewrite IH.
Qed.

Lemma lower_contains : forall a b : string,
  PyStr.contains a b = true ->
  PyStr.contains (PyStr.lower a) (PyStr.lower b) = true.
Proof.
  intros a b H. apply contains_substring in H.
  destruct H as (pre & post & ->). apply contains_substring.
  exists (PyStr.lower pre), (PyStr.lower post).
  now rewrite !lower_append.
Qed.

Lemma contains_refl : forall a : string, PyStr.contains a a = true.
Proof.
  intros a. apply contains_substring. exists "", "". simpl.
  now rewrite append_empty.
Qed.

Lemma contains_join : forall (sep x : string) (parts : list string),
  In x parts -> PyStr.contains x (PyStr.join sep parts) = true.
Proof.
  unfold PyStr.join. induction parts as [|y parts IH]; simpl; [easy|].
  intros [->|Hin].
  - apply contains_substring. destruct parts as [|z parts].
    + exists "", "". simpl. now rewrite append_empty.
    + exists "", (sep ++ String.concat sep (z :: parts)). reflexivity.
  - specialize (IH Hin). destruct parts as [|z parts]; [easy|].
    apply contains_substring in IH. destruct IH as (pre & post & Heq).
    apply contains_substring. exists (y ++ sep ++ pre), post.
    rewrite Heq. now rewrite !append_assoc3.
Qed.

(** A rendered dict holds the rendering of each of its items. *)
Lemma repr_dict_item : forall (k v : string) (items : list (string * string)),
  In (k, v) items ->
  PyStr.contains v (Tools.repr_dict items) = true.
Proof.
  intros k v items Hin. unfold Tools.repr_dict.
  apply contains_trans with (b := PyStr.repr k ++ ": " ++ v).
  - apply contains_substring. exists (PyStr.repr k ++ ": "), "".
    now rewrite append_empty, append_assoc3.
  - apply contains_trans
      with (b := PyStr.join ", "
                   (map (fun kv => PyStr.repr (fst kv) ++ ": " ++ snd kv)
                        items)).
    + apply contains_join.
      apply (in_map (fun kv => PyStr.repr (fst kv) ++ ": " ++ snd kv)
                    items (k, v) Hin).
    + apply contains_substring. exists "{", "}". reflexivity.
Qed.

Lemma keyword_hits_found : forall (keywords : list string) (k text : string),
  In k keywords -> PyStr.contains k text = true ->
  1 <= Tools.keyword_hits keywords text.
Proof.
  intros keywords k text Hin Hc. unfold Tools.keyword_hits.
  assert (Hf : In k (filter (fun k => PyStr.contains k text) keywords))
    by (apply filter_In; now split).
  destruct (filter _ keywords); [easy|]. cbn [List.length]. lia.
Qed.

(** X22: the keywords are looked up in the text of the whole component
    dict, so the setting type [outdoor_natural] by itself is a hit of
    the keyword [natural], whatever the prompt said. *)
Theorem outdoor_setting_hits_natural :
  forall (categories : Dict.t Profile) (c : ComponentSet)
         (k : string) (rules : Profile),
    setting_type (setting c) = "outdoor_natural" ->
    Dict.get k categories = Some rules ->
    In "natural" (trigger_keywords rules) ->
    PyStr.contains "natural" (PyStr.lower (Tools.repr_components c)) = true
    /\ 1 <= category_hits categories c k <= category_score categories c k.
Proof.
  intros categories c k rules Hst Hget Hin.
  assert (Hc : PyStr.contains "natural"
                 (PyStr.lower (Tools.repr_components c)) = true).
  { apply contains_trans with (b := PyStr.lower (PyStr.repr "outdoor_natural")).
    - vm_compute. reflexivity.
    - apply lower_contains.
      apply contains_trans with (b := Tools.repr_setting (setting c)).
      + unfold Tools.repr_setting. rewrite Hst.
        apply (repr_dict_item "type"). now left.
      + unfold Tools.repr_components.
        apply (repr_dict_item "setting"). apply in_or_app. left.
        simpl. tauto. }
  split; [exact Hc|].
  unfold category_hits, category_score. rewrite Hget.
  destruct (score_category_cases k rules c) as [_ [Hb _]].
  split; [|apply Hb].
  now apply keyword_hits_found with (k := "natural").
Qed.

Lemma outdoor_setting_hits_natural_witness :
  PyStr.contains "natural" (PyStr.lower (Tools.repr_components calm_person))
  = true
  /\ 1 <= category_hits catalog_profiles calm_person "health_halo"
       <= category_score catalog_profiles calm_person "health_halo".
Proof.
  apply (outdoor_setting_hits_natural
           catalog_profiles calm_person "health_halo"
           (mkProfile ["human"; "animal"; "object"]
              ["calm"; "peaceful"; "focused"; "authentic"; "mindful"]
              ["natural"; "organic"; "healthy"; "authentic"; "minimal";
               "wellness"])).
  - vm_compute. reflexivity.
  - vm_compute. reflexivity.
  - simpl. tauto.
Defined.

(* ================================================================== *)
(** * The effects of a category *)

Lemma join_prefix : forall (sep : string) (l r : list string),
  prefix (PyStr.join sep l) (PyStr.join sep (l ++ r)) = true.
Proof.
  unfold PyStr.join. intros sep l r. apply prefix_append.
  induction l as [|x l IH].
  - simpl. now exists (String.concat sep r).
  - destruct l as [|y l].
    + destruct r as [|z r]; simpl.
      * exists "". now rewrite append_empty.
      * now exists (sep ++ String.concat sep (z :: r)).
    + destruct IH as [t Ht].
      change (String.concat sep ((x :: y :: l) ++ r))
        with (x ++ sep ++ String.concat sep ((y :: l) ++ r)).
      change (String.concat sep (x :: y :: l))
        with (x ++ sep ++ String.concat sep (y :: l)).
      rewrite Ht. exists t. now rewrite !append_assoc3.
Qed.

Lemma firstn_le_prefix : forall (A : Type) (n m : nat) (l : list A),
  (n <= m)%nat -> exists r, firstn m l = (firstn n l ++ r)%list.
Proof.
  intros A n m l Hnm. exists (skipn n (firstn m l)).
  rewrite <- (firstn_skipn n (firstn m l)) at 1.
  rewrite firstn_firstn. now rewrite Nat.min_l.
Qed.

Lemma Qltb_lt : forall x y : Q, Qltb x y = true <-> (x < y)%Q.
Proof.
  intros x y. unfold Qltb. rewrite negb_true_iff.
  destruct (Qle_bool y x) eqn:H.
  - apply Qle_bool_iff in H. split; [discriminate|]. intros Hlt. lra.
  - split; [|reflexivity]. intros _.
    destruct (Qlt_le_dec x y) as [Hlt|Hle]; [exact Hlt|].
    apply Qle_bool_iff in Hle. congruence.
Qed.

Lemma Qltb_cases : forall x y : Q,
  (Qltb x y = true /\ (x < y)%Q) \/ (Qltb x y = false /\ (y <= x)%Q).
Proof.
  intros x y. destruct (Qltb x y) eqn:H.
  - left. split; [reflexivity|]. now apply Qltb_lt.
  - right. split; [reflexivity|].
    destruct (Qlt_le_dec x y) as [Hlt|Hle]; [|exact Hle].
    apply Qltb_lt in Hlt. congruence.
Qed.

(** X23: the effects only grow with the composition density.  The
    fragment is the comma-joined first two effects of the category below
    0.5, the first three from 0.5 to 0.8, and all of them above 0.8, so
    the fragment of a lower density starts the fragment of a higher one;
    the parsed components play no part, and a category without effects
    gives the empty fragment. *)
Theorem transform_effects_monotone :
  forall (category : string) (c1 c2 : ComponentSet) (p1 p2 : Params),
    (density_of p1 <= density_of p2)%Q ->
    prefix (Transformer.transform_effects category c1 p1)
           (Transformer.transform_effects category c2 p2) = true
    /\ ((density_of p1 < 0.5)%Q ->
        Transformer.transform_effects category c1 p1
        = PyStr.join ", "
            (firstn 2 (Dict.get_or category [] Transformer.effects_map)))
    /\ ((0.5 <= density_of p1 <= 0.8)%Q ->
        Transformer.transform_effects category c1 p1
        = PyStr.join ", "
            (firstn 3 (Dict.get_or category [] Transformer.effects_map)))
    /\ ((0.8 < density_of p1)%Q ->
        Transformer.transform_effects category c1 p1
        = PyStr.join ", " (Dict.get_or category [] Transformer.effects_map))
    /\ (Dict.get category Transformer.effects_map = None ->
        Transformer.transform_effects category c1 p1 = "").
Proof.
  intros category c1 c2 p1 p2 Hle.
  unfold Transformer.transform_effects.
  fold (density_of p1). fold (density_of p2).
  set (effects := Dict.get_or category [] Transformer.effects_map).
  set (d1 := density_of p1) in *. set (d2 := density_of p2) in *.
  cbv zeta.
  assert (Hcount : forall d : Q,
             (if Qltb d 0.5 then firstn 2 effects
              else if Qltb 0.8 d then effects else firstn 3 effects)
             = firstn (if Qltb d 0.5 then 2
                       else if Qltb 0.8 d
                            then Nat.max 3 (List.length effects)
                            else 3)%nat effects).
  { intros d. destruct (Qltb d 0.5); [reflexivity|].
    destruct (Qltb 0.8 d); [|reflexivity].
    symmetry. apply firstn_all2. lia. }
  split; [|split; [|split; [|split]]].
  - rewrite !Hcount.
    match goal with
    | |- prefix (PyStr.join _ (firstn ?n _)) (PyStr.join _ (firstn ?m _)) = _
      => destruct (firstn_le_prefix _ n m effects) as [r ->];
         [|apply join_prefix]
    end.
    destruct (Qltb_cases d1 0.5) as [[E1 H1]|[E1 H1]];
      destruct (Qltb_cases d2 0.5) as [[E2 H2]|[E2 H2]];
      destruct (Qltb_cases 0.8 d1) as [[E3 H3]|[E3 H3]];
      destruct (Qltb_cases 0.8 d2) as [[E4 H4]|[E4 H4]];
      rewrite ?E1, ?E2, ?E3, ?E4;
      solve [lia | exfalso; lra].
  - intros H. destruct (Qltb_cases d1 0.5) as [[E1 H1]|[E1 H1]];
      rewrite E1; [reflexivity | exfalso; lra].
  - intros H. destruct (Qltb_cases d1 0.5) as [[E1 H1]|[E1 H1]];
      rewrite E1; [exfalso; lra|].
    destruct (Qltb_cases 0.8 d1) as [[E3 H3]|[E3 H3]];
      rewrite E3; [exfalso; lra | reflexivity].
  - intros H. destruct (Qltb_cases d1 0.5) as [[E1 H1]|[E1 H1]];
      rewrite E1; [exfalso; lra|].
    destruct (Qltb_cases 0.8 d1) as [[E3 H3]|[E3 H3]];
      rewrite E3; [reflexivity | exfalso; lra].
  - intros Hnone. subst effects. unfold Dict.get_or. rewrite Hnone.
    destruct (Qltb d1 0.5); [reflexivity|].
    destruct (Qltb 0.8 d1); reflexivity.
Qed.

(** The Subtle preset against the Intense one, in kid_chaos, which has
    five effects *)
Lemma transform_effects_monotone_witness :
  prefix (Transformer.transform_effects "kid_chaos" red_cat subtle)
         (Transformer.transform_effects "kid_chaos" calm_person intense)
  = true
  /\ ((density_of subtle < 0.5)%Q ->
      Transformer.transform_effects "kid_chaos" red_cat subtle
      = PyStr.join ", "
          (firstn 2 (Dict.get_or "kid_chaos" [] Transformer.effects_map)))
  /\ ((0.5 <= density_of subtle <= 0.8)%Q ->
      Transformer.transform_effects "kid_chaos" red_cat subtle
      = PyStr.join ", "
          (firstn 3 (Dict.get_or "kid_chaos" [] Transformer.effects_map)))
  /\ ((0.8 < density_of subtle)%Q ->
      Transformer.transform_effects "kid_chaos" red_cat subtle
      = PyStr.join ", " (Dict.get_or "kid_chaos" [] Transformer.effects_map))
  /\ (Dict.get "kid_chaos" Transformer.effects_map = None ->
      Transformer.transform_effects "kid_chaos" red_cat subtle = "").
Proof.
  apply (transform_effects_monotone "kid_chaos" red_cat calm_person
                                    subtle intense).
  vm_compute. discriminate.
Defined.

(* ================================================================== *)
(** * The matcher finds every match *)

Lemma eat_complete : forall (lit t bef aft : string),
  PyStr.lower t = PyStr.lower lit ->
  Re.eat lit bef (t ++ aft) = Some (push t bef, aft).
Proof.
  unfold PyStr.lower.
  induction lit as [|c lit IH]; intros [|d t] bef aft H; simpl in *;
    try discriminate; [reflexivity|].
  injection H as Hc Ht. rewrite Hc, Ascii.eqb_refl. now apply IH.
Qed.

Lemma many_complete :
  forall (R : Type) (p : ascii -> bool) (t bef aft : string)
         (k : string -> string -> option R),
    all_chars p t = true ->
    k (push t bef) aft <> None ->
    Re.many p bef (t ++ aft) k <> None.
Proof.
  induction t as [|c t IH]; intros bef aft k Hall Hk; simpl in *.
  - destruct aft as [|d aft]; simpl; [exact Hk|].
    destruct (p d); [|exact Hk].
    destruct (Re.many p (String d bef) aft k); [discriminate | exact Hk].
  - apply andb_true_iff in Hall. destruct Hall as [Hc Hall]. rewrite Hc.
    specialize (IH (String c bef) aft k Hall Hk).
    destruct (Re.many p (String c bef) (t ++ aft) k);
      [discriminate | contradiction].
Qed.

Lemma many1_complete :
  forall (R : Type) (p : ascii -> bool) (t bef aft : string)
         (k : string -> string -> option R),
    t <> "" ->
    all_chars p t = true ->
    k (push t bef) aft <> None ->
    Re.many1 p bef (t ++ aft) k <> None.
Proof.
  intros R p [|c t] bef aft k Hne Hall Hk; [contradiction|].
  simpl in *. apply andb_true_iff in Hall. destruct Hall as [Hc Hall].
  rewrite Hc. now apply many_complete.
Qed.

Lemma passes_state : forall (t : string) (s s' : Re.state),
  passes t s s' ->
  s' = Re.mkState (push t (Re.before s)) (Re.after s') (Re.groups s).
Proof.
  intros t s [b a g] (_ & Hb & Hg). simpl in *. now subst.
Qed.

(** Completeness of the backtracking matcher: whenever the pattern
    denotes a way from [s] to [s'] and the rest of the match goes through
    from [s'], the matcher returns a match (this one or an earlier one in
    its order of trial). *)
Lemma run_complete :
  forall (R : Type) (r : Re.t) (s s' : Re.state) (k : Re.state -> option R),
    denotes r s s' -> k s' <> None -> Re.run r s k <> None.
Proof.
  intros R r.
  induction r as [l| | | | | |a IHa b IHb|a IHa|n a IHa|a IHa b IHb];
    intros s s' k Hd Hk; cbn [Re.run denotes] in *.
  - destruct Hd as (t & Hp & Hl).
    pose proof (passes_state _ _ _ Hp) as Hs'. destruct Hp as (Ha & _ & _).
    rewrite Ha, (eat_complete l t _ _ Hl). now rewrite <- Hs'.
  - destruct Hd as (t & Hp & Hne & Hall).
    pose proof (passes_state _ _ _ Hp) as Hs'. destruct Hp as (Ha & _ & _).
    rewrite Ha. apply many1_complete; [exact Hne | exact Hall|].
    now rewrite <- Hs'.
  - destruct Hd as (t & Hp & Hne & Hall).
    pose proof (passes_state _ _ _ Hp) as Hs'. destruct Hp as (Ha & _ & _).
    rewrite Ha. apply many1_complete; [exact Hne | exact Hall|].
    now rewrite <- Hs'.
  - destruct Hd as (t & Hp & Hall).
    pose proof (passes_state _ _ _ Hp) as Hs'. destruct Hp as (Ha & _ & _).
    rewrite Ha. apply many_complete; [exact Hall|].
    now rewrite <- Hs'.
  - destruct Hd as (-> & Hb). now rewrite Hb.
  - contradiction.
  - destruct (Re.run a s k) eqn:Ha; [discriminate|].
    destruct Hd as [Hd|Hd].
    + exfalso. now apply (IHa s s' k Hd Hk).
    + now apply (IHb s s' k).
  - destruct (Re.run a s k) eqn:Ha; [discriminate|].
    destruct Hd as [Hd| ->]; [|exact Hk].
    exfalso. now apply (IHa s s' k Hd Hk).
  - destruct Hd as (s1 & Hd & ->). now apply (IHa s s1).
  - destruct Hd as (s1 & Ha & Hb).
    apply (IHa s s1); [exact Ha|]. now apply (IHb s1 s').
Qed.

Lemma match_at_complete : forall (r : Re.t) (bef aft : string) (s' : Re.state),
  denotes r (Re.mkState bef aft []) s' -> Re.match_at r bef aft <> None.
Proof.
  intros r bef aft s' Hd. unfold Re.match_at.
  now apply (run_complete _ r _ s').
Qed.

Lemma search_from_complete :
  forall (r : Re.t) (pre bef post : string) (s' : Re.state),
    denotes r (Re.mkState (push pre bef) post []) s' ->
    Re.search_from r bef (pre ++ post) <> None.
Proof.
  intros r. induction pre as [|c pre IH]; intros bef post s' Hd; simpl in *.
  - pose proof (match_at_complete _ _ _ _ Hd) as Hm.
    destruct post; simpl; destruct (Re.match_at r bef _);
      try discriminate; contradiction.
  - destruct (Re.match_at r bef (String c (pre ++ post)));
      [discriminate|]. now apply (IH (String c bef) post s').
Qed.

(** [re.search] finds a match exactly when the pattern matches somewhere
    in the text. *)
Lemma search_matches : forall (r : Re.t) (text : string),
  Re.search r text = None <-> ~ matches r text.
Proof.
  intros r text. unfold Re.search, matches. split.
  - intros Hnone (pre & post & s' & -> & Hd).
    now apply (search_from_complete r pre "" post s').
  - intros Hno. destruct (Re.search_from r "" text) as [m|] eqn:Hs;
      [|reflexivity].
    exfalso. apply Hno. apply search_from_position in Hs.
    destruct Hs as (pre & aft' & -> & Hm).
    apply match_at_denotes in Hm. destruct Hm as (_ & Hd).
    now exists pre, aft', (Re.m_end m).
Qed.

(** The loop over a table of patterns finds nothing exactly when no
    pattern of the table matches. *)
Lemma first_match_none : forall (table : Dict.t Re.t) (prompt : string),
  Parser.first_match table prompt = None
  <-> forall kind pattern,
        In (kind, pattern) table -> ~ matches pattern prompt.
Proof.
  induction table as [|[k p] table IH]; intros prompt; simpl.
  - split; [intros _ kind pattern [] | reflexivity].
  - destruct (Re.search p prompt) as [m|] eqn:Hs.
    + split; [discriminate|]. intros H. exfalso.
      assert (Hn : Re.search p prompt = None)
        by (apply search_matches; apply (H k p); now left).
      congruence.
    + rewrite IH. apply search_matches in Hs. split.
      * intros H kind pattern [Heq|Hin];
          [now injection Heq as <- <- | now apply (H kind)].
      * intros H kind pattern Hin. apply (H kind). now right.
Qed.

Lemma finditer_nil : forall (r : Re.t) (aft bef : string),
  Re.finditer_from r O bef aft = [] <-> Re.search_from r bef aft = None.
Proof.
  intros r. induction aft as [|c aft IH]; intros bef; simpl.
  - destruct (Re.match_at r bef ""); split; try discriminate; reflexivity.
  - destruct (Re.match_at r bef (String c aft)); [split; discriminate|].
    apply IH.
Qed.

Lemma occurs_contains : forall w text : string,
  PyStr.contains w text = false <-> ~ occurs w text.
Proof.
  intros w text. unfold occurs. rewrite <- contains_substring.
  destruct (PyStr.contains w text); split; intros H;
    try discriminate H; try reflexivity.
  - exfalso. now apply H.
  - intros H'. discriminate H'.
Qed.

Lemma first_word_none : forall (table : Dict.t (list string)) (text : string),
  Parser.first_word table text = None
  <-> forall tier ws w, In (tier, ws) table -> In w ws -> ~ occurs w text.
Proof.
  intros table text. pose proof (first_word_spec table text) as Hspec.
  destruct (Parser.first_word table text) as [[tier w]|] eqn:Hfw.
  - split; [discriminate|]. intros H. exfalso.
    destruct Hspec as (Hc & before & ws & after & -> & Hw & _).
    apply (H tier ws w); [apply in_or_app; right; now left | exact Hw|].
    now apply contains_substring.
  - split; [|reflexivity]. intros _ tier ws w Hin Hw.
    apply occurs_contains. now apply (Hspec tier ws w).
Qed.

(** ** The parser never raises *)

Lemma is_word_lower_char : forall c : ascii,
  Re.is_word (PyStr.lower_char c) = Re.is_word c.
Proof.
  intros [[] [] [] [] [] [] [] []]; vm_compute; reflexivity.
Qed.

Lemma all_word_lower : forall t : string,
  all_chars Re.is_word (PyStr.lower t) = all_chars Re.is_word t.
Proof.
  unfold PyStr.lower. induction t as [|c t IH]; simpl; [reflexivity|].
  now rewrite is_word_lower_char, IH.
Qed.

Lemma spliced_word : forall t : string,
  all_chars Re.is_word t = true -> Fallible.spliced t = Ok (Re.Lit t).
Proof.
  intros t H. unfold Fallible.spliced. now rewrite H.
Qed.

(** The subject name the patterns find is a plain word: it can be
    spliced into a pattern. *)
Lemma subject_name_word :
  forall (prompt kind : string) (m : Re.match_),
    Parser.first_match Parser.subjects prompt = Some (kind, m) ->
    all_chars Re.is_word (Re.group0 m) = true.
Proof.
  intros prompt kind m Hfm.
  apply first_match_found in Hfm. destruct Hfm as (pattern & Hin & Hs).
  rewrite subjects_vocabulary in Hin. apply in_map_iff in Hin.
  destruct Hin as ([kind' ws] & Heq & Hvoc). cbn [fst snd] in Heq.
  injection Heq as -> <-.
  apply words_search in Hs. destruct Hs as (w & _ & _ & Hw & _ & Hlow).
  assert (Hall : forallb
                   (fun kw => forallb (all_chars Re.is_word) (snd kw))
                   subject_vocabulary = true) by (vm_compute; reflexivity).
  rewrite forallb_forall in Hall. specialize (Hall _ Hvoc). cbn [snd] in Hall.
  rewrite forallb_forall in Hall. specialize (Hall _ Hw).
  now rewrite <- all_word_lower, Hlow, all_word_lower.
Qed.

Lemma verb_word : forall (text tier verb : string),
  Parser.first_word Parser.actions text = Some (tier, verb) ->
  all_chars Re.is_word verb = true.
Proof.
  intros text tier verb H.
  apply first_word_in_tier in H. destruct H as (ws & Hin & Hw).
  assert (Hall : forallb
                   (fun kw => forallb (all_chars Re.is_word) (snd kw))
                   Parser.actions = true) by (vm_compute; reflexivity).
  rewrite forallb_forall in Hall. specialize (Hall _ Hin). cbn [snd] in Hall.
  rewrite forallb_forall in Hall. now apply Hall.
Qed.

Lemma extract_subject_returns : forall (prompt : string) (maps : Maps),
  Fallible.extract_subject prompt maps
  = Ok (Parser.extract_subject prompt maps).
Proof.
  intros prompt maps.
  unfold Fallible.extract_subject, Parser.extract_subject.
  destruct (Parser.first_match Parser.subjects prompt) as [[kind m]|] eqn:Hfm;
    [|reflexivity].
  pose proof (subject_name_word _ _ _ Hfm) as Hword.
  unfold Fallible.attr_pattern, Fallible.count_pattern.
  rewrite (spliced_word _ Hword). cbn [bind].
  fold (Parser.attr_pattern (Re.group0 m)).
  fold (Parser.count_pattern (Re.group0 m)).
  destruct (Re.search (Parser.count_pattern (Re.group0 m)) prompt)
    as [cm|] eqn:Hcm; [|reflexivity].
  destruct (count_pattern_group _ _ _ Hcm) as (w & t & _ & Hg & _).
  rewrite Hg. cbn [Fallible.lower_of bind fmt].
  unfold Fallible.int_of.
  destruct (PyStr.isdigit (PyStr.lower t)); reflexivity.
Qed.

Lemma extract_action_returns : forall prompt : string,
  Fallible.extract_action prompt = Ok (Parser.extract_action prompt).
Proof.
  intros prompt. unfold Fallible.extract_action, Parser.extract_action.
  cbv zeta.
  destruct (Parser.first_word Parser.actions (PyStr.lower prompt))
    as [[tier verb]|] eqn:Hfw; [|reflexivity].
  unfold Fallible.obj_pattern. rewrite (spliced_word _ (verb_word _ _ _ Hfw)).
  reflexivity.
Qed.

Lemma parse_prompt_components_returns :
  forall (prompt : string) (maps : Maps),
    Fallible.parse_prompt_components prompt maps
    = Ok (Parser.parse_prompt_components prompt maps).
Proof.
  intros prompt maps. unfold Fallible.parse_prompt_components.
  now rewrite extract_subject_returns, extract_action_returns.
Qed.

(** C7: [parse_prompt_components] never raises: with the compilation of
    the spliced patterns, [lower] on a group and [int] as operations that
    can raise, it returns for every prompt and every table, and what it
    returns is the record of the six components (the weights are not part
    of it yet).  Each component is its default record exactly when
    nothing matches: the subject is the default (type 'abstract', no
    name, count 0) exactly when no subject pattern matches anywhere in
    the prompt, the setting likewise; the action and the mood are their
    defaults exactly when no word of their table occurs in the
    lower-cased prompt; there are no objects exactly when the object
    pattern matches nowhere, and no colors exactly when no color of the
    palette occurs.  The empty prompt gives the six defaults. *)
Theorem parse_prompt_components_total :
  forall (prompt : string) (maps : Maps),
    let c := Parser.parse_prompt_components prompt maps in
    Fallible.parse_prompt_components prompt maps = Ok c
    /\ semantic_weights c = None
    /\ (subject c = mkSubject "abstract" None [] None 0
        <-> forall kind pattern,
              In (kind, pattern) Parser.subjects -> ~ matches pattern prompt)
    /\ (action c = mkAction None "low" None None false
        <-> forall tier ws w,
              In (tier, ws) Parser.actions -> In w ws ->
              ~ occurs w (PyStr.lower prompt))
    /\ (setting c = mkSetting "abstract" None [] None
        <-> forall kind pattern,
              In (kind, pattern) Parser.settings -> ~ matches pattern prompt)
    /\ (objects c = [] <-> ~ matches Parser.prop_pattern prompt)
    /\ (colors c = []
        <-> forall color,
              In color Parser.palette -> ~ occurs color (PyStr.lower prompt))
    /\ (mood c = mkMood None "neutral" "medium"
        <-> forall tier ws w,
              In (tier, ws) Parser.emotions -> In w ws ->
              ~ occurs w (PyStr.lower prompt))
    /\ Parser.parse_prompt_components "" maps = default_components.
Proof.
  intros prompt maps c. subst c.
  split; [apply parse_prompt_components_returns|].
  split; [reflexivity|].
  unfold Parser.parse_prompt_components.
  cbn [subject action setting objects colors mood].
  split; [|split; [|split; [|split; [|split; [|split]]]]].
  - rewrite <- first_match_none. unfold Parser.extract_subject.
    destruct (Parser.first_match Parser.subjects prompt) as [[kind m]|];
      split; try discriminate; reflexivity.
  - rewrite <- first_word_none. unfold Parser.extract_action.
    destruct (Parser.first_word Parser.actions (PyStr.lower prompt))
      as [[tier w]|]; split; try discriminate; reflexivity.
  - rewrite <- first_match_none. unfold Parser.extract_setting.
    destruct (Parser.first_match Parser.settings prompt) as [[kind m]|];
      split; try discriminate; reflexivity.
  - rewrite <- search_matches. unfold Parser.extract_objects, Re.finditer,
      Re.search.
    rewrite <- finditer_nil.
    destruct (Re.finditer_from Parser.prop_pattern 0 "" prompt);
      split; try discriminate; reflexivity.
  - unfold Parser.extract_colors. split.
    + intros Hnil color Hin. apply occurs_contains.
      destruct (PyStr.contains color (PyStr.lower prompt)) eqn:Hc;
        [|reflexivity].
      assert (Hf : In color
                      (filter (fun color =>
                                 PyStr.contains color (PyStr.lower prompt))
                              Parser.palette))
        by (apply filter_In; now split).
      rewrite Hnil in Hf. contradiction.
    + intros H. apply filter_nil. intros color Hin.
      apply occurs_contains. now apply H.
  - rewrite <- first_word_none. unfold Parser.extract_mood.
    destruct (Parser.first_word Parser.emotions (PyStr.lower prompt))
      as [[tier w]|]; split; try discriminate; reflexivity.
  - vm_compute. reflexivity.
Qed.

(* ================================================================== *)
(** * The process: what a tool call leaves behind *)

Lemma sub_heap_refl : forall h, Process.sub_heap h h.
Proof. intros h l o H. exact H. Qed.

Lemma sub_heap_trans : forall h1 h2 h3,
  Process.sub_heap h1 h2 -> Process.sub_heap h2 h3 -> Process.sub_heap h1 h3.
Proof. intros h1 h2 h3 H12 H23 l o H. now apply H23, H12. Qed.

Lemma sub_heap_app : forall h new, Process.sub_heap h (h ++ new).
Proof.
  intros h new l o H. rewrite nth_error_app1; [exact H|].
  apply nth_error_Some. congruence.
Qed.

Section Mono.

Variables h h' : list Process.pyobj.
Hypothesis Hsub : Process.sub_heap h h'.

Lemma lookup_mono : forall v o,
  Process.lookup h v = Some o -> Process.lookup h' v = Some o.
Proof.
  intros [s|n|x|b| |l] o H; simpl in *; try discriminate. now apply Hsub.
Qed.

Lemma dict_at_mono : forall v d,
  Process.dict_at h v = Some d -> Process.dict_at h' v = Some d.
Proof.
  unfold Process.dict_at. intros v d H.
  destruct (Process.lookup h v) as [[e|l]|] eqn:E; try discriminate.
  now rewrite (lookup_mono _ _ E).
Qed.

Lemma list_at_mono : forall v l,
  Process.list_at h v = Some l -> Process.list_at h' v = Some l.
Proof.
  unfold Process.list_at. intros v l H.
  destruct (Process.lookup h v) as [[e|l0]|] eqn:E; try discriminate.
  now rewrite (lookup_mono _ _ E).
Qed.

Lemma strs_at_mono : forall v l,
  Process.strs_at h v = Some l -> Process.strs_at h' v = Some l.
Proof.
  unfold Process.strs_at. intros v l H.
  destruct (Process.list_at h v) eqn:E; [|discriminate].
  now rewrite (list_at_mono _ _ E).
Qed.

Lemma table_at_mono :
  forall (A : Type) (f f' : Process.pyval -> option A),
    (forall v x, f v = Some x -> f' v = Some x) ->
    forall v d,
      Process.table_at f h v = Some d -> Process.table_at f' h' v = Some d.
Proof.
  unfold Process.table_at. intros A f f' Hf v d H.
  destruct (Process.dict_at h v) as [e|] eqn:E; [|discriminate].
  rewrite (dict_at_mono _ _ E). clear E. revert d H.
  unfold Process.read_entries.
  induction e as [|[k x] e IH]; intros d H; simpl in *; [exact H|].
  destruct (f x) as [y|] eqn:Ey; [|discriminate].
  rewrite (Hf _ _ Ey).
  destruct (Process.all_some _) as [ys|] eqn:Eys; [|discriminate].
  now rewrite (IH _ eq_refl).
Qed.

Lemma strs_or_nil_mono : forall d k l,
  Process.strs_or_nil h d k = Some l -> Process.strs_or_nil h' d k = Some l.
Proof.
  unfold Process.strs_or_nil. intros d k l H.
  destruct (Dict.get k d); [now apply strs_at_mono | exact H].
Qed.

Lemma table_or_nil_mono :
  forall (A : Type) (f f' : Process.pyval -> option A),
    (forall v x, f v = Some x -> f' v = Some x) ->
    forall d k tbl,
      Process.table_or_nil f h d k = Some tbl ->
      Process.table_or_nil f' h' d k = Some tbl.
Proof.
  unfold Process.table_or_nil. intros A f f' Hf d k tbl H.
  destruct (Dict.get k d); [now apply (table_at_mono A f f' Hf) | exact H].
Qed.

(** One step of a reader: the reading that succeeded on [h] succeeds on
    [h'] with the same result. *)
Ltac reads :=
  repeat match goal with
  | H : match ?e with Some _ => _ | None => None end = Some _ |- _ =>
      let E := fresh "E" in
      destruct e eqn:E; [|discriminate H];
      first [ rewrite (dict_at_mono _ _ E)
            | rewrite (strs_at_mono _ _ E)
            | rewrite (strs_or_nil_mono _ _ _ E)
            | idtac ]
  end.

Lemma read_subject_rule_mono : forall v r,
  Process.read_subject_rule h v = Some r ->
  Process.read_subject_rule h' v = Some r.
Proof.
  unfold Process.read_subject_rule. intros v r H. reads. exact H.
Qed.

Lemma read_action_rule_mono : forall v r,
  Process.read_action_rule h v = Some r ->
  Process.read_action_rule h' v = Some r.
Proof.
  unfold Process.read_action_rule. intros v r H. reads. exact H.
Qed.

Lemma read_setting_rule_mono : forall v r,
  Process.read_setting_rule h v = Some r ->
  Process.read_setting_rule h' v = Some r.
Proof.
  unfold Process.read_setting_rule. intros v r H. reads. exact H.
Qed.

Lemma read_color_rules_mono : forall d r,
  Process.read_color_rules h d = Some r ->
  Process.read_color_rules h' d = Some r.
Proof.
  unfold Process.read_color_rules. intros d r H.
  destruct (Dict.get "color_rules" d) as [v|]; [|exact H].
  destruct (Process.dict_at h v) as [e|] eqn:E; [|discriminate].
  rewrite (dict_at_mono _ _ E).
  destruct (Process.table_or_nil Process.as_str h e "mappings")
    as [m|] eqn:Em; [|discriminate].
  rewrite (table_or_nil_mono _ _ _ (fun v x H => H) _ _ _ Em).
  exact H.
Qed.

Lemma read_rules_mono : forall v r,
  Process.read_rules h v = Some r -> Process.read_rules h' v = Some r.
Proof.
  unfold Process.read_rules. intros v r H.
  destruct (Process.dict_at h v) as [d|] eqn:E; [|discriminate].
  rewrite (dict_at_mono _ _ E).
  destruct (Process.str_opt d "name") as [name|]; [|discriminate].
  destruct (Process.table_or_nil (Process.read_subject_rule h) h d _)
    as [sr|] eqn:Es; [|discriminate].
  rewrite (table_or_nil_mono _ _ _ read_subject_rule_mono _ _ _ Es).
  destruct (Process.table_or_nil (Process.read_action_rule h) h d _)
    as [ar|] eqn:Ea; [|discriminate].
  rewrite (table_or_nil_mono _ _ _ read_action_rule_mono _ _ _ Ea).
  destruct (Process.table_or_nil (Process.read_setting_rule h) h d _)
    as [st|] eqn:Et; [|discriminate].
  rewrite (table_or_nil_mono _ _ _ read_setting_rule_mono _ _ _ Et).
  destruct (Process.read_color_rules h d) as [cr|] eqn:Ec; [|discriminate].
  rewrite (read_color_rules_mono _ _ Ec).
  reads. exact H.
Qed.

Lemma read_maps_mono : forall v m,
  Process.read_maps h v = Some m -> Process.read_maps h' v = Some m.
Proof.
  unfold Process.read_maps. intros v m H.
  destruct (Process.dict_at h v) as [d|] eqn:E; [|discriminate].
  rewrite (dict_at_mono _ _ E).
  repeat match goal with
  | H : match Process.table_or_nil Process.as_str h d ?k with _ => _ end
        = Some _ |- _ =>
      let Em := fresh "Em" in
      destruct (Process.table_or_nil Process.as_str h d k) eqn:Em;
        [|discriminate H];
      rewrite (table_or_nil_mono _ _ _ (fun v x H => H) _ _ _ Em)
  end.
  exact H.
Qed.

Lemma read_template_mono : forall v x,
  Process.read_template h v = Some x -> Process.read_template h' v = Some x.
Proof.
  unfold Process.read_template. intros v x H.
  destruct (Process.dict_at h v) as [d|] eqn:E; [|discriminate].
  rewrite (dict_at_mono _ _ E).
  destruct (Dict.get "emphasis_order" d) as [l|]; [|discriminate].
  reads. exact H.
Qed.

Lemma read_value_mono : forall v x,
  Process.read_value h v = Some x -> Process.read_value h' v = Some x.
Proof.
  intros [s|n|q|b| |l] x H; simpl in *; try exact H.
  fold (Process.strs_at h (Process.RefV l)) in H.
  destruct (Process.strs_at h (Process.RefV l)) eqn:E; [|discriminate].
  fold (Process.strs_at h' (Process.RefV l)).
  now rewrite (strs_at_mono _ _ E).
Qed.

Lemma read_components_mono : forall v d,
  Process.read_components h v = Some d ->
  Process.read_components h' v = Some d.
Proof.
  unfold Process.read_components. intros v d.
  apply table_at_mono. exact read_value_mono.
Qed.

Lemma read_metadata_mono : forall v m,
  Process.read_metadata h v = Some m -> Process.read_metadata h' v = Some m.
Proof.
  unfold Process.read_metadata. intros v m H.
  destruct (Process.dict_at h v) as [d|] eqn:E; [|discriminate].
  rewrite (dict_at_mono _ _ E).
  destruct (Dict.get "user_modifications" d) as [l|]; [|exact H].
  destruct (Process.strs_at h l) as [x|] eqn:El.
  - rewrite (strs_at_mono _ _ El). exact H.
  - exfalso.
    repeat match type of H with
           | match ?e with _ => _ end = Some _ =>
               destruct e; try discriminate H
           end.
Qed.

Lemma read_skeleton_mono : forall v sk,
  Process.read_skeleton h v = Some sk -> Process.read_skeleton h' v = Some sk.
Proof.
  unfold Process.read_skeleton. intros v sk H.
  destruct (Process.dict_at h v) as [d|] eqn:E; [|discriminate].
  rewrite (dict_at_mono _ _ E).
  destruct (Dict.get "sections" d) as [s|]; [|discriminate].
  destruct (Process.read_components h s) as [sec|] eqn:Es; [|discriminate].
  rewrite (read_components_mono _ _ Es).
  destruct (Dict.get "emphasis" d) as [e|]; [|discriminate].
  destruct (Process.table_at Process.as_num h e) as [em|] eqn:Ee;
    [|discriminate].
  rewrite (table_at_mono _ _ _ (fun v x H => H) _ _ Ee).
  destruct (Dict.get "template" d) as [x|]; [|discriminate].
  destruct (Process.read_template h x) as [tpl|] eqn:Et; [|discriminate].
  rewrite (read_template_mono _ _ Et).
  destruct (Dict.get "negative_prompt" d) as [n|]; [|discriminate].
  destruct (Dict.get "metadata" d) as [m|]; [|destruct n; discriminate].
  destruct n; try discriminate.
  destruct (Process.read_metadata h m) as [md|] eqn:Em; [|discriminate].
  rewrite (read_metadata_mono _ _ Em). exact H.
Qed.

End Mono.

Lemma read_globals_mono : forall (p p' : Process.t) (g : Globals),
  Process.sub_heap (Process.heap p) (Process.heap p') ->
  Process.categories_name p' = Process.categories_name p ->
  Process.maps_name p' = Process.maps_name p ->
  Process.templates_name p' = Process.templates_name p ->
  Process.read_globals p = Some g -> Process.read_globals p' = Some g.
Proof.
  unfold Process.read_globals. intros p p' g Hsub -> -> -> H.
  destruct (Process.table_at _ (Process.heap p) (Process.categories_name p))
    as [c|] eqn:Ec; [|discriminate].
  rewrite (table_at_mono _ _ Hsub _ _ _ (read_rules_mono _ _ Hsub) _ _ Ec).
  destruct (Process.read_maps (Process.heap p) (Process.maps_name p))
    as [m|] eqn:Em; [|discriminate].
  rewrite (read_maps_mono _ _ Hsub _ _ Em).
  destruct (Process.table_at _ (Process.heap p) (Process.templates_name p))
    as [t|] eqn:Et; [|discriminate].
  rewrite (table_at_mono _ _ Hsub _ _ _ (read_template_mono _ _ Hsub) _ _ Et).
  exact H.
Qed.

(** ** Reading the entries of a dict *)

Lemma read_entries_entrywise :
  forall (A : Type) (f : Process.pyval -> option A)
         (d : Dict.t Process.pyval) (tbl : Dict.t A),
    Process.read_entries f d = Some tbl
    <-> Process.entrywise (fun v x => f v = Some x) d tbl.
Proof.
  unfold Process.read_entries, Process.entrywise.
  induction d as [|[k v] d IH]; intros tbl; simpl.
  - split.
    + intros H. injection H as <-. constructor.
    + intros H. inversion H. reflexivity.
  - split.
    + intros H. destruct (f v) as [x|] eqn:Ex; [|discriminate].
      destruct (Process.all_some _) as [xs|] eqn:Exs; [|discriminate].
      injection H as <-. constructor; [now split | now apply IH].
    + intros H. inversion H as [|? [k' x] ? tbl' [Hk Hx] Hrest]; subst.
      cbn [fst snd] in *. subst k'. rewrite Hx.
      apply IH in Hrest. now rewrite Hrest.
Qed.

Section Entrywise.

Variables A B : Type.
Variable R : A -> B -> Prop.

Lemma entrywise_get : forall (a : Dict.t A) (b : Dict.t B) (k : string),
  Process.entrywise R a b ->
  match Dict.get k a with
  | Some x => exists y, Dict.get k b = Some y /\ R x y
  | None => Dict.get k b = None
  end.
Proof.
  intros a b k H. induction H as [|[ka x] [kb y] a b [Hk Hxy] H IH];
    simpl; [reflexivity|].
  cbn [fst snd] in *. subst kb.
  destruct (String.eqb k ka); [now exists y | exact IH].
Qed.

Lemma entrywise_mem : forall (a : Dict.t A) (b : Dict.t B) (k : string),
  Process.entrywise R a b -> Dict.mem k a = Dict.mem k b.
Proof.
  intros a b k H. unfold Dict.mem.
  pose proof (entrywise_get a b k H) as Hg.
  destruct (Dict.get k a); [destruct Hg as (y & -> & _) | rewrite Hg];
    reflexivity.
Qed.

Lemma entrywise_set :
  forall (a : Dict.t A) (b : Dict.t B) (k : string) (x : A) (y : B),
    Process.entrywise R a b -> R x y ->
    Process.entrywise R (Dict.set k x a) (Dict.set k y b).
Proof.
  intros a b k x y H Hxy.
  induction H as [|[ka x0] [kb y0] a b [Hk H0] H IH]; simpl.
  - constructor; [now split | constructor].
  - cbn [fst snd] in *. subst kb. destruct (String.eqb k ka).
    + constructor; [now split | exact H].
    + constructor; [now split | exact IH].
Qed.

Lemma entrywise_values :
  forall (a : Dict.t A) (b : Dict.t B),
    Process.entrywise R a b -> Forall2 R (Dict.values a) (Dict.values b).
Proof.
  intros a b H. induction H as [|? ? ? ? [_ Hxy] H IH]; simpl;
    constructor; assumption.
Qed.

End Entrywise.

Lemma entrywise_weaken :
  forall (A B : Type) (R R' : A -> B -> Prop) (a : Dict.t A) (b : Dict.t B),
    (forall x y, R x y -> R' x y) ->
    Process.entrywise R a b -> Process.entrywise R' a b.
Proof.
  intros A B R R' a b HR H.
  induction H as [|? ? ? ? [Hk Hxy] H IH]; constructor;
    [split; [exact Hk | now apply HR] | exact IH].
Qed.

(** ** The programs, step by step *)

Lemma grows_refl : forall p, Process.grows p p.
Proof.
  intros p. split; [exists []; now rewrite app_nil_r | now repeat split].
Qed.

Lemma grows_trans : forall p1 p2 p3,
  Process.grows p1 p2 -> Process.grows p2 p3 -> Process.grows p1 p3.
Proof.
  intros p1 p2 p3 ([n1 H1] & Hc1 & Hm1 & Ht1) ([n2 H2] & Hc2 & Hm2 & Ht2).
  split; [|repeat split; congruence].
  exists (n1 ++ n2)%list. now rewrite H2, H1, app_assoc.
Qed.

Lemma grows_sub_heap : forall p p',
  Process.grows p p' -> Process.sub_heap (Process.heap p) (Process.heap p').
Proof.
  intros p p' ([new ->] & _). apply sub_heap_app.
Qed.

Lemma grows_read_globals : forall p p' g,
  Process.grows p p' ->
  Process.read_globals p = Some g -> Process.read_globals p' = Some g.
Proof.
  intros p p' g Hg. pose proof (grows_sub_heap _ _ Hg) as Hsub.
  destruct Hg as (_ & Hc & Hm & Ht). now apply read_globals_mono.
Qed.

Lemma alloc_run : forall (o : Process.pyobj) (p : Process.t),
  exists p',
    Process.alloc o p = (p', Ok (Process.RefV (List.length (Process.heap p))))
    /\ Process.grows p p'
    /\ Process.heap p' = (Process.heap p ++ [o])%list.
Proof.
  intros o p. eexists. split; [reflexivity|].
  split; [|reflexivity].
  split; [now exists [o] | now repeat split].
Qed.

Lemma lookup_new : forall (h : list Process.pyobj) (o : Process.pyobj)
                          (rest : list Process.pyobj),
  Process.lookup (h ++ o :: rest) (Process.RefV (List.length h)) = Some o.
Proof.
  intros h o rest. simpl. rewrite nth_error_app2 by lia.
  now rewrite Nat.sub_diag.
Qed.

Lemma lookup_fresh : forall (h : list Process.pyobj),
  Process.lookup h (Process.RefV (List.length h)) = None.
Proof.
  intros h. simpl. apply nth_error_None. lia.
Qed.

Lemma mbind_reading :
  forall (A B : Type) (f : list Process.pyobj -> option A)
         (k : A -> Process.M B) (p : Process.t) (a : A),
    f (Process.heap p) = Some a ->
    Process.mbind (Process.reading f) k p = k a p.
Proof.
  intros A B f k p a H. unfold Process.mbind, Process.reading.
  now rewrite H.
Qed.

Lemma read_globals_tables : forall (p : Process.t) (g : Globals),
  Process.read_globals p = Some g ->
  (exists cats,
      Process.dict_at (Process.heap p) (Process.categories_name p) = Some cats
      /\ Process.entrywise
           (fun v r => Process.read_rules (Process.heap p) v = Some r)
           cats (CATEGORIES g))
  /\ Process.read_maps (Process.heap p) (Process.maps_name p)
     = Some (TRANSFORMATION_MAPS g)
  /\ (exists tpls,
        Process.dict_at (Process.heap p) (Process.templates_name p)
        = Some tpls
        /\ Process.entrywise
             (fun v x => Process.read_template (Process.heap p) v = Some x)
             tpls (TEMPLATES g)).
Proof.
  unfold Process.read_globals, Process.table_at. intros p g H.
  destruct (Process.dict_at (Process.heap p) (Process.categories_name p))
    as [cats|]; [|discriminate].
  destruct (Process.read_entries _ cats) as [c|] eqn:Ec; [|discriminate].
  destruct (Process.read_maps _ _) as [m|]; [|discriminate].
  destruct (Process.dict_at (Process.heap p) (Process.templates_name p))
    as [tpls|]; [|discriminate].
  destruct (Process.read_entries _ tpls) as [t|] eqn:Et; [|discriminate].
  injection H as <-. cbn [CATEGORIES TRANSFORMATION_MAPS TEMPLATES].
  split.
  { exists cats. split; [reflexivity | now apply read_entries_entrywise]. }
  split; [reflexivity|].
  exists tpls. split; [reflexivity | now apply read_entries_entrywise].
Qed.

Lemma read_rules_lists : forall (h : list Process.pyobj) (v : Process.pyval)
                                (r : Rules),
  Process.read_rules h v = Some r ->
  exists d,
    Process.dict_at h v = Some d
    /\ Process.strs_or_nil h d "mandatory_markers"
       = Some (mandatory_markers r)
    /\ Process.strs_or_nil h d "negative_prompts"
       = Some (negative_prompts r).
Proof.
  unfold Process.read_rules. intros h v r H.
  destruct (Process.dict_at h v) as [d|]; [|discriminate].
  exists d. split; [reflexivity|].
  repeat match type of H with
         | match ?e with _ => _ end = Some _ =>
             destruct e; try discriminate H
         end.
  injection H as <-. now split.
Qed.

Lemma read_value_list : forall (h : list Process.pyobj) (v : Process.pyval)
                               (l : list string),
  Process.strs_at h v = Some l -> Process.read_value h v = Some (VList l).
Proof.
  intros h v l H.
  assert (Hv : exists n, v = Process.RefV n).
  { unfold Process.strs_at, Process.list_at in H.
    destruct v; simpl in H; try discriminate. now eexists. }
  destruct Hv as [n ->]. simpl.
  fold (Process.strs_at h (Process.RefV n)). now rewrite H.
Qed.

(** What [apply_category_transformation] does on the heap, against what
    it returns as a function: the same exception, raised after at most
    one new object; or a new dict that reads as the returned value. *)
Lemma apply_category_transformation_run :
  forall (p : Process.t) (c : ComponentSet) (rv mv : Process.pyval)
         (params : Params) (rules : Rules) (maps : Maps),
    Process.read_rules (Process.heap p) rv = Some rules ->
    Process.read_maps (Process.heap p) mv = Some maps ->
    exists p',
      Process.grows p p'
      /\ match Transformer.apply_category_transformation c rules maps
                                                         params with
         | Ok t =>
             exists v,
               Process.apply_category_transformation c rv mv params p
               = (p', Ok v)
               /\ Process.read_components (Process.heap p') v = Some t
               /\ Process.lookup (Process.heap p) v = None
         | Raise e =>
             Process.apply_category_transformation c rv mv params p
             = (p', Raise e)
         end.
Proof.
  intros p c rv mv params rules maps Hr Hm.
  destruct (read_rules_lists _ _ _ Hr) as (d & Hd & Hmk & _).
  unfold Process.apply_category_transformation,
    Transformer.apply_category_transformation.
  rewrite (mbind_reading _ _ _ _ p _ Hr).
  rewrite (mbind_reading _ _ _ _ p _ Hm).
  rewrite (mbind_reading _ _ _ _ p _ Hd).
  destruct (Transformer.transform_subject _ _ _ _) as [subj|e];
    [|exists p; split; [apply grows_refl | reflexivity]].
  destruct (Transformer.transform_action _ _ _ _) as [act|e];
    [|exists p; split; [apply grows_refl | reflexivity]].
  cbn [bind]. unfold Process.mbind at 1 2. cbn [Process.lift].
  set (typo := if existsb _ Transformer.typography_categories
               then _ else Ok None).
  unfold Process.strs_or_nil in Hmk.
  destruct (Dict.get "mandatory_markers" d) as [l|] eqn:Hl.
  - (* the list of the rules, shared *)
    unfold Process.mbind at 1. cbn [Process.ret].
    destruct typo as [ty|e];
      [|exists p; split; [apply grows_refl | reflexivity]].
    cbn [bind]. unfold Process.mbind, Process.lift, Process.alloc.
    eexists. split; [|eexists; split; [reflexivity|]].
    + split; [eexists; reflexivity | now repeat split].
    + cbn [Process.heap]. split; [|apply lookup_fresh].
      unfold Process.read_components, Process.table_at, Process.dict_at.
      rewrite (lookup_new (Process.heap p) _ []).
      apply read_entries_entrywise.
      repeat constructor; cbn [fst snd]; try reflexivity.
      * apply read_value_list.
        apply (strs_at_mono _ _ (sub_heap_app _ _) _ _ Hmk).
      * destruct ty; reflexivity.
  - (* no such key: a new empty list *)
    injection Hmk as Hmk.
    unfold Process.mbind at 1. cbn [Process.alloc].
    destruct typo as [ty|e].
    2:{ eexists. split; [|unfold Process.mbind, Process.lift; reflexivity].
        split; [eexists; reflexivity | now repeat split]. }
    cbn [bind]. unfold Process.mbind, Process.lift, Process.alloc.
    cbn [Process.heap Process.categories_name Process.maps_name
         Process.templates_name].
    eexists. split; [|eexists; split; [reflexivity|]].
    + split; [|now repeat split]. cbn [Process.heap].
      rewrite <- app_assoc. eexists. reflexivity.
    + cbn [Process.heap]. split.
      * unfold Process.read_components, Process.table_at, Process.dict_at.
        rewrite (lookup_new (Process.heap p ++ [Process.ListO []]) _ []).
        apply read_entries_entrywise.
        repeat constructor; cbn [fst snd]; try reflexivity.
        -- rewrite <- Hmk. apply read_value_list.
           unfold Process.strs_at, Process.list_at.
           rewrite <- app_assoc. cbn [app].
           now rewrite (lookup_new (Process.heap p)).
        -- destruct ty; reflexivity.
      * simpl. apply nth_error_None. rewrite length_app. simpl. lia.
Qed.

(** [apply_transformations] on the heap, against the function *)
Lemma apply_transformations_run :
  forall (p : Process.t) (g : Globals) (parsed : ComponentSet)
         (category : string) (style_params : option Params),
    Process.read_globals p = Some g ->
    exists p',
      Process.grows p p'
      /\ match Server.apply_transformations g parsed category
                                            style_params with
         | Ok t =>
             exists v,
               Process.apply_transformations parsed category style_params p
               = (p', Ok v)
               /\ Process.read_components (Process.heap p') v = Some t
               /\ Process.lookup (Process.heap p) v = None
         | Raise e =>
             Process.apply_transformations parsed category style_params p
             = (p', Raise e)
         end.
Proof.
  intros p g parsed category style_params Hg.
  destruct (read_globals_tables _ _ Hg) as ((cats & Hc & Hcats) & Hm & _).
  unfold Process.apply_transformations, Server.apply_transformations.
  rewrite (mbind_reading _ _ _ _ p _ Hc).
  pose proof (entrywise_get _ _ _ _ _ category Hcats) as Hget.
  destruct (Dict.get category cats) as [rv|].
  - destruct Hget as (rules & -> & Hr).
    now apply apply_category_transformation_run
      with (maps := TRANSFORMATION_MAPS g).
  - rewrite Hget. exists p. split; [apply grows_refl | reflexivity].
Qed.

Lemma lookup_added :
  forall (h new : list Process.pyobj) (k : nat) (o : Process.pyobj) (n : nat),
    nth_error new k = Some o ->
    n = (List.length h + k)%nat ->
    Process.lookup (h ++ new) (Process.RefV n) = Some o.
Proof.
  intros h new k o n Hk ->. simpl. rewrite nth_error_app2 by lia.
  now replace (List.length h + k - List.length h)%nat with k by lia.
Qed.

Section Ordering_on_the_heap.

Variable h : list Process.pyobj.

Lemma entries_with_truth :
  forall (d : Dict.t Process.pyval) (t : Dict.t value),
    Process.entrywise (Process.reads_as h) d t ->
    exists entries,
      Process.read_entries
        (fun v => match Process.truthy_at h v with
                  | Some b => Some (v, b)
                  | None => None
                  end) d = Some entries
      /\ Process.entrywise (Process.entry_of h) entries t.
Proof.
  intros d t H. unfold Process.read_entries.
  induction H as [|[k v] [k' x] d t [Hk Hv] H IH].
  - exists []. split; [reflexivity | constructor].
  - destruct IH as (entries & He & Hrel). cbn [fst snd] in *. subst k'.
    cbn [map Process.all_some fst snd]. rewrite He.
    unfold Process.truthy_at. unfold Process.reads_as in Hv. rewrite Hv.
    exists ((k, (v, value_truthy x)) :: entries).
    split; [reflexivity|]. constructor; [|exact Hrel].
    split; [reflexivity | now split].
Qed.

Lemma first_loop_on_heap :
  forall (entries : Dict.t (Process.pyval * bool)) (t : Dict.t value)
         (order : list string) (a : Dict.t Process.pyval) (b : Dict.t value),
    Process.entrywise (Process.entry_of h) entries t ->
    Process.entrywise (Process.reads_as h) a b ->
    Process.entrywise (Process.reads_as h)
      (fold_left
         (fun ordered key =>
            match Dict.get key entries with
            | Some (v, true) => Dict.set key v ordered
            | _ => ordered
            end) order a)
      (fold_left
         (fun ordered key =>
            match Dict.get key t with
            | Some v => if value_truthy v then Dict.set key v ordered
                        else ordered
            | None => ordered
            end) order b).
Proof.
  intros entries t order. induction order as [|key order IH];
    intros a b He Hab; simpl; [exact Hab|].
  apply IH; [exact He|].
  pose proof (entrywise_get _ _ _ _ _ key He) as Hget.
  destruct (Dict.get key entries) as [[v bv]|].
  - destruct Hget as (x & -> & Hv & Hb). cbn [fst snd] in *. subst bv.
    destruct (value_truthy x); [|exact Hab].
    now apply entrywise_set.
  - now rewrite Hget.
Qed.

Lemma second_loop_on_heap :
  forall (entries : Dict.t (Process.pyval * bool)) (t : Dict.t value),
    Process.entrywise (Process.entry_of h) entries t ->
    forall (a : Dict.t Process.pyval) (b : Dict.t value),
      Process.entrywise (Process.reads_as h) a b ->
      Process.entrywise (Process.reads_as h)
        (fold_left
           (fun ordered kvb =>
              if (negb (Dict.mem (fst kvb) ordered) && snd (snd kvb))%bool
              then Dict.set (fst kvb) (fst (snd kvb)) ordered
              else ordered) entries a)
        (fold_left
           (fun ordered kv =>
              if (negb (Dict.mem (fst kv) ordered)
                  && value_truthy (snd kv))%bool
              then Dict.set (fst kv) (snd kv) ordered
              else ordered) t b).
Proof.
  intros entries t H.
  induction H as [|[k [v bv]] [k' x] entries t [Hk [Hv Hb]] H IH];
    intros a b Hab; simpl; [exact Hab|].
  cbn [fst snd] in *. subst k' bv. apply IH.
  rewrite (entrywise_mem _ _ _ _ _ k Hab).
  destruct (negb (Dict.mem k b) && value_truthy x)%bool; [|exact Hab].
  now apply entrywise_set.
Qed.

End Ordering_on_the_heap.

(** [order_by_importance] on the heap: one new dict, which reads as the
    dict the function returns; its values are those of the components,
    the same objects. *)
Lemma order_by_importance_run :
  forall (p : Process.t) (tv : Process.pyval) (t : Dict.t value)
         (w : Dict.t Z) (order : list string),
    Process.read_components (Process.heap p) tv = Some t ->
    exists dp,
      Process.order_by_importance tv w order p
      = (Process.mk (Process.heap p ++ [Process.DictO dp])
                    (Process.categories_name p) (Process.maps_name p)
                    (Process.templates_name p),
         Ok (Process.RefV (List.length (Process.heap p))))
      /\ Process.entrywise
           (fun v x => Process.read_value (Process.heap p) v = Some x)
           dp (Utils.order_by_importance t w order).
Proof.
  intros p tv t w order Ht.
  unfold Process.read_components, Process.table_at in Ht.
  destruct (Process.dict_at (Process.heap p) tv) as [d|] eqn:Hd;
    [|discriminate].
  apply read_entries_entrywise in Ht.
  destruct (entries_with_truth _ _ _ Ht) as (entries & He & Hrel).
  unfold Process.order_by_importance.
  rewrite (mbind_reading _ _ _ _ p _ Hd).
  rewrite (mbind_reading _ _ _ _ p _ He).
  eexists. split; [reflexivity|].
  unfold Utils.order_by_importance.
  apply second_loop_on_heap; [exact Hrel|].
  apply first_loop_on_heap; [exact Hrel | constructor].
Qed.

Lemma generate_negative_prompt_run :
  forall (p : Process.t) (g : Globals) (category : string),
    Process.read_globals p = Some g ->
    Process.generate_negative_prompt category (Process.categories_name p) p
    = (p, Ok (Utils.generate_negative_prompt category (CATEGORIES g))).
Proof.
  intros p g category Hg.
  destruct (read_globals_tables _ _ Hg) as ((cats & Hc & Hcats) & _ & _).
  unfold Process.generate_negative_prompt, Utils.generate_negative_prompt.
  rewrite (mbind_reading _ _ _ _ p _ Hc).
  pose proof (entrywise_get _ _ _ _ _ category Hcats) as Hget.
  destruct (Dict.get category cats) as [rv|].
  - destruct Hget as (rules & -> & Hr).
    destruct (read_rules_lists _ _ _ Hr) as (d & Hd & _ & Hn).
    unfold Process.mbind, Process.reading. rewrite Hd, Hn. reflexivity.
  - rewrite Hget. reflexivity.
Qed.

Lemma read_template_order :
  forall (h : list Process.pyobj) (v : Process.pyval) (x : Template),
    Process.read_template h v = Some x ->
    match Process.dict_at h v with
    | Some d => match Dict.get "emphasis_order" d with
                | Some l => Process.strs_at h l
                | None => None
                end
    | None => None
    end = Some (emphasis_order x).
Proof.
  unfold Process.read_template. intros h v x H.
  destruct (Process.dict_at h v) as [d|]; [|discriminate].
  destruct (Dict.get "emphasis_order" d) as [l|]; [|discriminate].
  destruct (Process.strs_at h l) as [o|]; [|discriminate].
  destruct (Process.str_or_empty d "structure"); [|discriminate].
  now injection H as <-.
Qed.

Lemma read_entries_map :
  forall (A : Type) (f : Process.pyval -> option A) (inj : A -> Process.pyval)
         (d : Dict.t A),
    (forall a, f (inj a) = Some a) ->
    Process.read_entries f (map (fun kv => (fst kv, inj (snd kv))) d)
    = Some d.
Proof.
  intros A f inj d Hf. unfold Process.read_entries.
  induction d as [|[k a] d IH]; simpl; [reflexivity|].
  now rewrite Hf, IH.
Qed.

Lemma token_estimate_strs :
  forall (A : Type) (R : A -> value -> Prop) (f : A -> option string)
         (dp : Dict.t A) (dv : Dict.t value),
    (forall v x, R v x -> f v = Some (value_str x)) ->
    Process.entrywise R dp dv ->
    exists strs,
      Process.all_some
        (map (fun kv => match f (snd kv) with
                        | Some s => Some (fst kv, s)
                        | None => None
                        end) dp) = Some strs
      /\ zsum (map (fun s => Z.of_nat (String.length s)) (Dict.values strs))
         = zsum (map (fun v => Z.of_nat (String.length (value_str v)))
                     (Dict.values dv)).
Proof.
  intros A R f dp dv Hf H.
  induction H as [|[k v] [k' x] dp dv [Hk Hv] H IH]; simpl.
  - exists []. now split.
  - destruct IH as (strs & -> & Hsum). cbn [fst snd] in *.
    rewrite (Hf _ _ Hv). eexists. split; [reflexivity|].
    simpl. now rewrite Hsum.
Qed.

Lemma str_at_value : forall (h : list Process.pyobj) (v : Process.pyval)
                              (x : value),
  Process.read_value h v = Some x ->
  Process.str_at h v = Some (value_str x).
Proof.
  intros h v x H. unfold Process.str_at. now rewrite H.
Qed.

(** [build_prompt_skeleton] on the heap, against the function: the same
    [KeyError], raised before anything is added; or four new objects (the
    sections, the emphasis, the metadata and the skeleton itself) that
    read as the skeleton the function returns. *)
Lemma build_prompt_skeleton_run :
  forall (p : Process.t) (g : Globals) (tv : Process.pyval)
         (t : Dict.t value) (category : string) (w : Dict.t Z),
    Process.read_globals p = Some g ->
    Process.read_components (Process.heap p) tv = Some t ->
    exists p',
      Process.grows p p'
      /\ match Server.build_prompt_skeleton g t category w with
         | Ok sk =>
             exists v,
               Process.build_prompt_skeleton tv category w p = (p', Ok v)
               /\ Process.read_skeleton (Process.heap p') v = Some sk
               /\ Process.lookup (Process.heap p) v = None
         | Raise e =>
             Process.build_prompt_skeleton tv category w p = (p', Raise e)
         end.
Proof.
  intros p g tv t category w Hg Ht.
  destruct (read_globals_tables _ _ Hg) as (_ & _ & (tpls & Htp & Htpls)).
  unfold Process.build_prompt_skeleton, Server.build_prompt_skeleton.
  rewrite (mbind_reading _ _ _ _ p _ Htp).
  unfold Dict.item.
  pose proof (entrywise_get _ _ _ _ _ category Htpls) as Hget.
  destruct (Dict.get category tpls) as [xv|].
  2:{ rewrite Hget. exists p. split; [apply grows_refl | reflexivity]. }
  destruct Hget as (tpl & -> & Htpl). cbn [bind].
  unfold Process.mbind at 1. cbn [Process.lift].
  rewrite (mbind_reading _ _ _ _ p _ (read_template_order _ _ _ Htpl)).
  destruct (order_by_importance_run p tv t w (emphasis_order tpl) Ht)
    as (dp & Hrun & Hdp).
  unfold Process.mbind at 1. rewrite Hrun.
  set (h := Process.heap p) in *.
  set (o1 := Process.DictO dp).
  unfold Process.mbind at 1. cbn [Process.alloc Process.heap
    Process.categories_name Process.maps_name Process.templates_name].
  match goal with
  | |- context [Process.mk ((h ++ [o1]) ++ [?o]) _ _ _] => set (o2 := o)
  end.
  set (p2 := Process.mk ((h ++ [o1]) ++ [o2]) (Process.categories_name p)
                        (Process.maps_name p) (Process.templates_name p)).
  assert (Hgrow2 : Process.grows p p2).
  { split; [|now repeat split]. exists [o1; o2]. subst p2. cbn [Process.heap].
    now rewrite <- app_assoc. }
  pose proof (grows_read_globals _ _ _ Hgrow2 Hg) as Hg2.
  pose proof (generate_negative_prompt_run p2 g category Hg2) as Hneg.
  change (Process.categories_name p2) with (Process.categories_name p)
    in Hneg.
  unfold Process.mbind at 1. rewrite Hneg.
  (* the strs of the sections *)
  assert (Hsub2 : Process.sub_heap h (Process.heap p2))
    by (apply grows_sub_heap; exact Hgrow2).
  assert (Hdp2 : Process.entrywise
                   (fun v x => Process.read_value (Process.heap p2) v
                               = Some x)
                   dp (Utils.order_by_importance t w (emphasis_order tpl))).
  { eapply entrywise_weaken; [|exact Hdp].
    intros v x Hv. now apply (read_value_mono _ _ Hsub2). }
  destruct (token_estimate_strs _ _ (Process.str_at (Process.heap p2)) _ _
              (str_at_value (Process.heap p2)) Hdp2)
    as (strs & Hstrs & Hsum).
  assert (Hread : Process.table_at (Process.str_at (Process.heap p2))
                                   (Process.heap p2)
                                   (Process.RefV (List.length h))
                  = Some strs).
  { unfold Process.table_at, Process.dict_at.
    assert (L : Process.lookup (Process.heap p2)
                               (Process.RefV (List.length h)) = Some o1).
    { subst p2. cbn [Process.heap]. rewrite <- app_assoc. cbn [app].
      apply (lookup_new h o1 [o2]). }
    rewrite L. unfold o1. exact Hstrs. }
  rewrite (mbind_reading _ _ _ _ p2 _ Hread).
  unfold Process.mbind, Process.alloc. subst p2.
  cbn [Process.heap Process.categories_name Process.maps_name
       Process.templates_name].
  eexists. split; [|eexists; split; [reflexivity|]].
  { split; [|now repeat split]. cbn [Process.heap].
    rewrite <- !app_assoc. cbn [app]. eexists. reflexivity. }
  cbn [Process.heap]. split; [|simpl; apply nth_error_None;
                                rewrite !length_app; simpl; lia].
  rewrite !length_app. cbn [List.length].
  match goal with
  | |- context [((((h ++ [o1]) ++ [o2]) ++ [?a]) ++ [?b])%list] =>
      set (o3 := a); set (o4 := b)
  end.
  assert (Hheap : ((((h ++ [o1]) ++ [o2]) ++ [o3]) ++ [o4])%list
                  = (h ++ [o1; o2; o3; o4])%list)
    by now rewrite <- !app_assoc.
  rewrite Hheap.
  set (h4 := (h ++ [o1; o2; o3; o4])%list).
  assert (Hsub4 : Process.sub_heap h h4) by apply sub_heap_app.
  assert (L1 : Process.lookup h4 (Process.RefV (List.length h)) = Some o1)
    by (apply (lookup_added h _ 0 o1); [reflexivity | lia]).
  assert (L2 : Process.lookup h4 (Process.RefV (List.length h + 1)%nat)
               = Some o2)
    by (apply (lookup_added h _ 1 o2); [reflexivity | lia]).
  assert (L3 : Process.lookup h4 (Process.RefV (List.length h + 1 + 1)%nat)
               = Some o3)
    by (apply (lookup_added h _ 2 o3); [reflexivity | lia]).
  assert (L4 : Process.lookup h4
                 (Process.RefV (List.length h + 1 + 1 + 1)%nat)
               = Some o4)
    by (apply (lookup_added h _ 3 o4); [reflexivity | lia]).
  unfold Process.read_skeleton, Process.dict_at. rewrite L4.
  subst o4. cbn [Dict.get String.eqb Ascii.eqb Bool.eqb].
  (* the sections *)
  unfold Process.read_components, Process.table_at, Process.dict_at.
  rewrite L1. subst o1.
  assert (Hsec : Process.read_entries (Process.read_value h4) dp
                 = Some (Utils.order_by_importance t w (emphasis_order tpl))).
  { apply read_entries_entrywise. eapply entrywise_weaken; [|exact Hdp].
    intros v x Hv. now apply (read_value_mono _ _ Hsub4). }
  cbv beta iota. rewrite Hsec.
  (* the emphasis *)
  rewrite L2. subst o2. cbv beta iota.
  rewrite (read_entries_map _ Process.as_num Process.FloatV _
             (fun a => eq_refl)).
  (* the template, an object of the table *)
  rewrite (read_template_mono _ _ Hsub4 _ _ Htpl).
  (* the metadata *)
  unfold Process.read_metadata, Process.dict_at. rewrite L3. subst o3.
  cbv beta iota. cbn [Dict.get String.eqb Ascii.eqb Bool.eqb].
  unfold Server.token_estimate. rewrite Hsum. reflexivity.
Qed.

(** The pipeline on the heap, against the two functions in a row *)
Lemma transform_then_assemble_run :
  forall (p : Process.t) (g : Globals) (parsed : ComponentSet)
         (category : string) (style_params : option Params) (w : Dict.t Z),
    Process.read_globals p = Some g ->
    exists p',
      Process.grows p p'
      /\ match (t <- Server.apply_transformations g parsed category
                                                  style_params ;;
                Server.build_prompt_skeleton g t category w) with
         | Ok sk =>
             exists v,
               Process.transform_then_assemble parsed category style_params
                                               w p = (p', Ok v)
               /\ Process.read_skeleton (Process.heap p') v = Some sk
               /\ Process.lookup (Process.heap p) v = None
         | Raise e =>
             Process.transform_then_assemble parsed category style_params
                                             w p = (p', Raise e)
         end.
Proof.
  intros p g parsed category style_params w Hg.
  destruct (apply_transformations_run p g parsed category style_params Hg)
    as (p1 & Hgrow1 & H1).
  unfold Process.transform_then_assemble, Process.mbind.
  destruct (Server.apply_transformations g parsed category style_params)
    as [t|e]; cbn [bind].
  - destruct H1 as (tv & -> & Ht & _).
    pose proof (grows_read_globals _ _ _ Hgrow1 Hg) as Hg1.
    destruct (build_prompt_skeleton_run p1 g tv t category w Hg1 Ht)
      as (p2 & Hgrow2 & H2).
    exists p2. split; [now apply (grows_trans p p1 p2)|].
    destruct (Server.build_prompt_skeleton g t category w) as [sk|e].
    + destruct H2 as (v & -> & Hsk & Hnew). exists v.
      split; [reflexivity|]. split; [exact Hsk|].
      destruct v as [ | | | | |l]; try reflexivity.
      simpl in *. apply nth_error_None. apply nth_error_None in Hnew.
      destruct Hgrow1 as ([new Hnew1] & _). rewrite Hnew1 in Hnew.
      rewrite length_app in Hnew. lia.
    + now rewrite H2.
  - rewrite H1. exists p1. now split.
Qed.



(** What the heap holds after a run, in the process after import.  The
    list under 'style_markers' of the sections is the list the category
    holds under 'mandatory_markers', the same object; the template of the
    skeleton is the template of the table, the same object.  And
    [refine_component], which writes to the skeleton it is given, writes to
    objects of the run only: after an edit of the first skeleton the
    tables read as before, the edited skeleton has its new subject, and
    the next run returns the skeleton the first run returned. *)
Remark skeleton_shares_with_tables :
  let p1 := fst (red_cat_run running) in
  let s1 := Process.RefV 152%nat in
  let edit := Process.refine_component s1 "subject" "a blue dog" in
  let p1' := fst (edit p1) in
  let p2 := fst (red_cat_run p1') in
  let sections_of h s :=
    match Process.dict_at h s with
    | Some d => match Dict.get "sections" d with
                | Some x => Process.dict_at h x
                | None => None
                end
    | None => None
    end in
  let category_at h name :=
    match Process.dict_at h (Process.categories_name running) with
    | Some d => match Dict.get name d with
                | Some x => Process.dict_at h x
                | None => None
                end
    | None => None
    end in
  snd (red_cat_run running) = Ok s1
  /\ option_map (Dict.get "style_markers")
                (sections_of (Process.heap p1) s1)
     = option_map (Dict.get "mandatory_markers")
                  (category_at (Process.heap p1) "mascot_theater")
  /\ option_map (Dict.get "style_markers")
                (sections_of (Process.heap p1) s1)
     = Some (Some (Process.RefV 26%nat))
  /\ option_map (Dict.get "template")
                (Process.dict_at (Process.heap p1) s1)
     = option_map (Dict.get "mascot_theater")
                  (Process.dict_at (Process.heap p1)
                                   (Process.templates_name running))
  /\ snd (edit p1) = Ok s1
  /\ Process.read_globals p1' = Some OlogLoader.globals
  /\ option_map (fun sk => Dict.get "subject" (sections sk))
                (Process.read_skeleton (Process.heap p1') s1)
     = Some (Some (VStr "a blue dog"))
  /\ option_map (fun sk => history sk)
                (Process.read_skeleton (Process.heap p1') s1)
     = Some ["subject"]
  /\ exists s2 sk,
       snd (red_cat_run p1') = Ok s2
       /\ Process.read_skeleton (Process.heap p2) s2 = Some sk
       /\ Process.read_skeleton (Process.heap p1) s1 = Some sk.
Proof.
  cbv zeta.
  repeat (split; [vm_compute; reflexivity|]).
  eexists. eexists.
  split; [vm_compute; reflexivity|].
  split; vm_compute; reflexivity.
Qed.
